(** * Inactive-user clean-up of the admin endpoints: a verification development

    The development embeds, as executable Rocq definitions,
    - [calculateDirectorySize], the recursive directory size of the users
      admin endpoint,
    - [dirHasExtraContent] and [checkUserIsUnused] of [src/user-data-audit.js],
    - the [/delete] and [/delete-inactive-users] request handlers,
    and proves the properties the specification states about them. *)

From Stdlib Require Import ZArith QArith Qround String Ascii List Lia Bool Permutation.
From stdpp Require Import base option list gmap strings pretty sorting.

Local Open Scope string_scope.
Local Open Scope list_scope.
Local Open Scope Z_scope.

(** ** The file system *)

Module Fs.

(** A file-system object.  [File] is a regular file with its byte size.
    [Dir] is a directory: whether [readdir] succeeds on it, the size [stat]
    reports for the directory itself, and its entries in listing order.
    [Special] stands for everything else a directory entry can be (symbolic
    link, socket, device): its [Dirent] is neither a file nor a directory, and
    [target] is the size [stat] reports after following it, or [None] when
    [stat] throws (a dangling link).  A link whose target is a directory is not
    represented. *)
#[warnings="-register-all"]
Inductive node : Type :=
| File (size : Z)
| Dir (readable : bool) (dsize : Z) (entries : list (string * node))
| Special (target : option Z).

(** A path is the list of its segments; [path.join(p, name)] is [p ++ [name]]
    and the empty relative path [''] is [[]]. *)
Definition path : Type := list string.

Section node_rect_nested.
Variable P : node -> Prop.
Hypothesis HFile : forall sz, P (File sz).
Hypothesis HSpecial : forall t, P (Special t).
Hypothesis HDir : forall r d es, Forall (fun e => P (snd e)) es -> P (Dir r d es).

Fixpoint node_nested_ind (n : node) : P n :=
  match n with
  | File sz => HFile sz
  | Special t => HSpecial t
  | Dir r d es =>
      HDir r d es
        ((fix go (l : list (string * node)) : Forall (fun e => P (snd e)) l :=
            match l with
            | [] => List.Forall_nil _
            | e :: l' => @List.Forall_cons _ _ e l' (node_nested_ind (snd e)) (go l')
            end) es)
  end.
End node_rect_nested.

Fixpoint node_size (n : node) : nat :=
  match n with
  | Dir _ _ es => S (list_sum (map (fun e => node_size (snd e)) es))
  | _ => 1%nat
  end.

Fixpoint find_entry (name : string) (es : list (string * node)) : option node :=
  match es with
  | [] => None
  | (n, c) :: es' => if String.eqb n name then Some c else find_entry name es'
  end.

(** Resolution of a path from the root of the file system. *)
Fixpoint lookup (fs : node) (p : path) : option node :=
  match p with
  | [] => Some fs
  | name :: p' =>
      match fs with
      | Dir _ _ es =>
          match find_entry name es with
          | Some c => lookup c p'
          | None => None
          end
      | _ => None
      end
  end.

(** [fs.Stats]: the two fields the code reads. *)
Record Stats : Type := mkStats { isDirectory : bool; size : Z }.

(** [fs.promises.stat]: [None] when it throws. *)
Definition stat (fs : node) (p : path) : option Stats :=
  match lookup fs p with
  | Some (File sz) => Some (mkStats false sz)
  | Some (Dir _ d _) => Some (mkStats true d)
  | Some (Special (Some sz)) => Some (mkStats false sz)
  | Some (Special None) => None
  | None => None
  end.

(** [fs.existsSync] *)
Definition existsSync (fs : node) (p : path) : bool :=
  match stat fs p with Some _ => true | None => false end.

(** The three answers of a [Dirent]: [isDirectory()], [isFile()], neither. *)
Inductive kind : Type := KDirectory | KFile | KOther.

Definition kind_of (n : node) : kind :=
  match n with
  | File _ => KFile
  | Dir _ _ _ => KDirectory
  | Special _ => KOther
  end.

Record Dirent : Type := mkDirent { name : string; dkind : kind }.

(** [fs.promises.readdir(p, { withFileTypes: true })]: [None] when it throws
    (the path is missing, is not a directory, or may not be read). *)
Definition dirent_of (e : string * node) : Dirent :=
  mkDirent (fst e) (kind_of (snd e)).

Definition readdirTypes (fs : node) (p : path) : option (list Dirent) :=
  match lookup fs p with
  | Some (Dir true _ es) => Some (map dirent_of es)
  | _ => None
  end.

(** [fs.promises.readdir(p)]: the names only. *)
Definition readdir (fs : node) (p : path) : option (list string) :=
  option_map (map name) (readdirTypes fs p).

(** Names are unique within every directory. *)
Fixpoint distinct (l : list string) : bool :=
  match l with
  | [] => true
  | x :: l' => negb (existsb (String.eqb x) l') && distinct l'
  end.

Fixpoint wf_node (n : node) : bool :=
  match n with
  | Dir _ _ es => distinct (map fst es) && forallb (fun e => wf_node (snd e)) es
  | _ => true
  end.

(** [fs.promises.rm(p, { recursive: true, force: true })] on the tree: the
    entry named by [p] disappears with everything below it; a missing path is
    left alone. Removing the root itself is not expressible and leaves the
    tree as it is. *)
Fixpoint rm (fs : node) (p : path) : node :=
  match p, fs with
  | [name], Dir r d es =>
      Dir r d (List.filter (fun e => negb (String.eqb (fst e) name)) es)
  | name :: p', Dir r d es =>
      Dir r d (map (fun e => if String.eqb (fst e) name then (fst e, rm (snd e) p') else e) es)
  | _, _ => fs
  end.

End Fs.

(** ** Directory size *)

Module DirectorySize.
Import Fs.

(** The [for] loop of [calculateDirectorySize] over the listed names.
    [recur] is the recursive call.  An exception of [stat] leaves the loop:
    the [catch] block covers the whole loop, and the function then returns
    the [totalSize] accumulated so far. *)
Fixpoint sumItems (recur : path -> option Z) (fs : node) (dirPath : path)
    (items : list string) (totalSize : Z) : option Z :=
  match items with
  | [] => Some totalSize
  | item :: rest =>
      let itemPath := dirPath ++ [item] in
      match stat fs itemPath with
      | None => Some totalSize
      | Some stats =>
          if isDirectory stats then
            match recur itemPath with
            | None => None
            | Some sub => sumItems recur fs dirPath rest (totalSize + sub)
            end
          else sumItems recur fs dirPath rest (totalSize + size stats)
      end
  end.

(** [calculateDirectorySize].  The recursion of the source is on the path; it
    is bounded here by [fuel], and [None] means that the bound was reached.
    A missing path gives 0, and so does a path [readdir] throws on. *)
Fixpoint calculateDirectorySize_fuel (fuel : nat) (fs : node) (dirPath : path)
  : option Z :=
  match fuel with
  | O => None
  | S fuel' =>
      if negb (existsSync fs dirPath) then Some 0
      else
        match readdir fs dirPath with
        | None => Some 0
        | Some items =>
            sumItems (calculateDirectorySize_fuel fuel' fs) fs dirPath items 0
        end
  end.

(** The recursion depth never exceeds the number of nodes of the tree. *)
Definition calculateDirectorySize (fs : node) (dirPath : path) : option Z :=
  calculateDirectorySize_fuel (S (node_size fs)) fs dirPath.

(** *** What the function computes, by recursion on the tree *)

(** The sum the loop of one directory reaches: it stops at the first entry on
    which [stat] throws. *)
Fixpoint counted (n : node) : Z :=
  match n with
  | File sz => sz
  | Special (Some sz) => sz
  | Special None => 0
  | Dir false _ _ => 0
  | Dir true _ es =>
      (fix go (es : list (string * node)) : Z :=
         match es with
         | [] => 0
         | (_, Special None) :: _ => 0
         | (_, c) :: es' => counted c + go es'
         end) es
  end.

(** The same loop, named. *)
Definition counted_entries : list (string * node) -> Z :=
  fix go (es : list (string * node)) : Z :=
    match es with
    | [] => 0
    | (_, Special None) :: _ => 0
    | (_, c) :: es' => counted c + go es'
    end.

(** The value for a path: a missing path and a path that is not a directory
    give 0. *)
Definition directorySize (fs : node) (p : path) : Z :=
  match lookup fs p with
  | Some (Dir r d es) => counted (Dir r d es)
  | _ => 0
  end.



Definition sumZ (l : list Z) : Z := foldr Z.add 0 l.


End DirectorySize.

(** ** The baseline audit ([src/user-data-audit.js]) *)

Module Audit.
Import Fs.

(** Names that are commonly present but not meaningful user content. *)
Definition IGNORED_ENTRY_NAMES : list string :=
  [".DS_Store"; "Thumbs.db"; "desktop.ini"].

Definition ignored (entryName : string) : bool :=
  existsb (String.eqb entryName) IGNORED_ENTRY_NAMES.

(** [{ hasExtra, example? }] *)
Record Result : Type := mkResult { hasExtra : bool; example : option path }.

Definition noExtra : Result := mkResult false None.
Definition extra (entryRelPath : path) : Result := mkResult true (Some entryRelPath).
Definition unknownExtra : Result := mkResult true (Some ["unknown"]).

(** An element of the traversal stack. *)
Record frame : Type := mkFrame { absPath : path; relPath : path }.

(** What the body of the [for] loop does with one entry: it skips an ignored
    name, pushes a directory, returns from the function with [hasExtra: true],
    or falls through to the next entry. *)
Inductive verdict : Type :=
| Ignored
| Descend (f : frame)
| Extra (entryRelPath : path)
| Same.

Definition visitEntry (fs : node) (baselineDir : option path) (current : frame)
    (entry : Dirent) : verdict :=
  if ignored (name entry) then Ignored
  else
    let entryAbsPath := absPath current ++ [name entry] in
    let entryRelPath := relPath current ++ [name entry] in
    match dkind entry with
    | KDirectory => Descend (mkFrame entryAbsPath entryRelPath)
    | KOther => Extra entryRelPath
    | KFile =>
        match baselineDir with
        | None => Extra entryRelPath
        | Some baseline =>
            let baselinePath := baseline ++ entryRelPath in
            if negb (existsSync fs baselinePath) then Extra entryRelPath
            else
              match stat fs entryAbsPath, stat fs baselinePath with
              | Some userStat, Some baseStat =>
                  if negb (size userStat =? size baseStat) then Extra entryRelPath
                  else Same
              | _, _ => Extra entryRelPath
              end
        end
    end.

(** The [for] loop over the entries of the directory popped from the stack. *)
Inductive loopExit : Type :=
| Finished (stack : list frame)
| Return (r : Result).

Fixpoint visitEntries (fs : node) (baselineDir : option path) (current : frame)
    (entries : list Dirent) (stack : list frame) : loopExit :=
  match entries with
  | [] => Finished stack
  | entry :: rest =>
      match visitEntry fs baselineDir current entry with
      | Extra entryRelPath => Return (extra entryRelPath)
      | Descend f => visitEntries fs baselineDir current rest (f :: stack)
      | Ignored | Same => visitEntries fs baselineDir current rest stack
      end
  end.

(** How the [try] block ends. *)
Inductive outcome : Type :=
| Returned (r : Result)
| Thrown.

(** The [while (stack.length > 0)] loop.  The head of the list is the top of
    the stack.  [None]: the bound [fuel] on the number of iterations was
    reached. *)
Fixpoint walk (fuel : nat) (fs : node) (baselineDir : option path)
    (stack : list frame) : option outcome :=
  match fuel with
  | O => None
  | S fuel' =>
      match stack with
      | [] => Some (Returned noExtra)
      | current :: stack' =>
          match readdirTypes fs (absPath current) with
          | None => Some Thrown
          | Some entries =>
              match visitEntries fs baselineDir current entries stack' with
              | Return r => Some (Returned r)
              | Finished stack'' => walk fuel' fs baselineDir stack''
              end
          end
      end
  end.

(** [dirHasExtraContent(userDir, baselineDir)].  [userDir = None] is a falsy
    argument ([undefined] or the empty string).  The [catch] block turns any
    exception into [{ hasExtra: true, example: 'unknown' }]. *)
Definition dirHasExtraContent (fs : node) (userDir baselineDir : option path)
  : option Result :=
  match userDir with
  | None => Some noExtra
  | Some dir =>
      if negb (existsSync fs dir) then Some noExtra
      else
        match walk (S (node_size fs)) fs baselineDir [mkFrame dir []] with
        | None => None
        | Some (Returned r) => Some r
        | Some Thrown => Some unknownExtra
        end
  end.

Definition keysToCheck : list string :=
  [ "chats"; "groupChats"; "characters"; "worlds"; "groups"; "files";
    "comfyWorkflows"; "userImages";
    "instruct"; "context"; "sysprompt"; "reasoning"; "quickreplies";
    "openAI_Settings"; "koboldAI_Settings"; "novelAI_Settings";
    "textGen_Settings" ].

(** [{ isUnused, details }] *)
Record UnusedCheck : Type :=
  mkUnusedCheck { isUnused : bool; details : gmap string Result }.

(** The [for (const key of keysToCheck)] loop; [details] is the object being
    filled.  [userDirectories?.[key]] and [baselineDirectories?.[key] || null]
    read an absent object, an absent key and a [null] value alike. *)
Fixpoint checkKeys (fs : node) (userDirectories baselineDirectories : option (gmap string path))
    (keys : list string) (details : gmap string Result) : option UnusedCheck :=
  match keys with
  | [] => Some (mkUnusedCheck true details)
  | key :: rest =>
      let userDir := userDirectories ≫= (fun d => d !! key) in
      let baselineDir := baselineDirectories ≫= (fun d => d !! key) in
      match dirHasExtraContent fs userDir baselineDir with
      | None => None
      | Some r =>
          let details' := <[key := r]> details in
          if hasExtra r then Some (mkUnusedCheck false details')
          else checkKeys fs userDirectories baselineDirectories rest details'
      end
  end.

Definition checkUserIsUnused (fs : node)
    (userDirectories baselineDirectories : option (gmap string path))
  : option UnusedCheck :=
  checkKeys fs userDirectories baselineDirectories keysToCheck ∅.

(** *** The traversal, by recursion on the tree *)

(** A regular file of [sz] bytes at [entryRelPath] is matched by the baseline:
    there is a baseline directory, the path exists below it, and [stat]
    reports the same size there. *)
Definition matchesBaseline (fs : node) (baselineDir : option path)
    (entryRelPath : path) (sz : Z) : bool :=
  match baselineDir with
  | None => false
  | Some baseline =>
      match stat fs (baseline ++ entryRelPath) with
      | Some baseStat => sz =? size baseStat
      | None => false
      end
  end.

(** A directory holds nothing extra: it can be listed, and each entry that is
    not ignored is a regular file matched by the baseline or a directory that
    holds nothing extra. *)
Fixpoint clean (fs : node) (baselineDir : option path) (rel : path) (n : node) : bool :=
  match n with
  | Dir true _ es =>
      (fix go (es : list (string * node)) : bool :=
         match es with
         | [] => true
         | (nm, c) :: es' =>
             (ignored nm ||
              match c with
              | File sz => matchesBaseline fs baselineDir (rel ++ [nm]) sz
              | Dir _ _ _ => clean fs baselineDir (rel ++ [nm]) c
              | Special _ => false
              end) && go es'
         end) es
  | _ => false
  end.

(** The entries of one directory, named. *)
Definition clean_entries (fs : node) (baselineDir : option path) (rel : path)
  : list (string * node) -> bool :=
  fix go (es : list (string * node)) : bool :=
    match es with
    | [] => true
    | (nm, c) :: es' =>
        (ignored nm ||
         match c with
         | File sz => matchesBaseline fs baselineDir (rel ++ [nm]) sz
         | Dir _ _ _ => clean fs baselineDir (rel ++ [nm]) c
         | Special _ => false
         end) && go es'
    end.

(** A frame of the stack holds nothing extra. *)
Definition frame_clean (fs : node) (baselineDir : option path) (f : frame) : bool :=
  match lookup fs (absPath f) with
  | Some n => clean fs baselineDir (relPath f) n
  | None => false
  end.

(** The number of nodes below the frames of a stack. *)
Definition frame_weight (fs : node) (f : frame) : nat :=
  match lookup fs (absPath f) with
  | Some n => node_size n
  | None => 0
  end.

Definition stack_weight (fs : node) (stack : list frame) : nat :=
  list_sum (map (frame_weight fs) stack).

(** Whether the [try] block ended with [hasExtra: true] or an exception. *)
Definition reportsExtra (o : outcome) : bool :=
  match o with
  | Returned r => hasExtra r
  | Thrown => true
  end.

(** The answer of [dirHasExtraContent], by recursion on the tree. *)
Definition holdsExtra (fs : node) (userDir baselineDir : option path) : bool :=
  match userDir with
  | None => false
  | Some dir =>
      existsSync fs dir &&
      negb (match lookup fs dir with
            | Some n => clean fs baselineDir [] n
            | None => false
            end)
  end.

(** The result [checkUserIsUnused] stores for one key of the checklist. *)
Definition categoryResult (fs : node)
    (userDirectories baselineDirectories : option (gmap string path))
    (key : string) : option Result :=
  dirHasExtraContent fs (userDirectories ≫= (fun d => d !! key))
                        (baselineDirectories ≫= (fun d => d !! key)).

(** The category of [key] was checked and reported nothing extra. *)
Definition reportsNoExtra (fs : node)
    (userDirectories baselineDirectories : option (gmap string path))
    (key : string) : Prop :=
  exists r, categoryResult fs userDirectories baselineDirectories key = Some r /\
            hasExtra r = false.

(** The [try] block of [dirHasExtraContent] ends with an exception. *)
Definition throws (fs : node) (userDir baselineDir : option path) : Prop :=
  exists dir, userDir = Some dir /\ existsSync fs dir = true /\
              walk (S (node_size fs)) fs baselineDir [mkFrame dir []] = Some Thrown.

(** A small file system: the directories of a user [u] and of the baseline
    [b]; the user has a chat, a preset equal in size to the baseline's, a
    world file that differs in size from the baseline's, a dangling link and a
    directory that cannot be listed. *)
Definition sampleFs : node :=
  Dir true 4096
    [ ("u", Dir true 4096
        [ ("chats", Dir true 4096 [ ("chat1.json", File 13) ]);
          ("instruct", Dir true 4096
             [ ("preset.json", File 7); (".DS_Store", File 99);
               ("sub", Dir true 4096 []) ]);
          ("worlds", Dir true 4096 [ ("wi.json", File 13) ]);
          ("groups", Dir false 4096 [ ("g.json", File 1) ]);
          ("files", Dir true 4096 [ ("link", Special None); ("late.bin", File 5) ]) ]);
      ("b", Dir true 4096
        [ ("instruct", Dir true 4096 [ ("preset.json", File 7) ]);
          ("worlds", Dir true 4096 [ ("wi.json", File 7) ]) ]) ].

End Audit.

(** ** JavaScript values *)

Module Js.

(** A number: [NaN], an infinity, or a finite value.  Finite values are
    rationals: the arithmetic the handlers do on them (comparison, [floor],
    multiplication by [1024 * 1024]) is exact. *)
Inductive number : Type :=
| NaN
| Infinity (negative : bool)
| Finite (q : Q).

(** A field of a parsed JSON request body.  [Obj] is an array or an object,
    given by the string its [toString()] yields (the only thing the handlers
    can observe of it). *)
Inductive value : Type :=
| Undefined
| Null
| Bool (b : bool)
| Num (q : Q)
| Str (s : string)
| Obj (toString : string).

(** What the runtime provides and this development does not compute:
    [sha256hex s] is [crypto.createHash('sha256').update(s).digest('hex')],
    [Number_toString] the decimal string of a finite number ([JSON.stringify]
    of a number), [StringToNumber] the numeric value of a string. *)
Record Runtime : Type := mkRuntime {
  sha256hex : string -> string;
  Number_toString : Q -> string;
  StringToNumber : string -> number
}.

(** [Number(v)] *)
Definition toNumber (rt : Runtime) (v : value) : number :=
  match v with
  | Undefined => NaN
  | Null => Finite 0
  | Bool true => Finite 1
  | Bool false => Finite 0
  | Num q => Finite q
  | Str s => StringToNumber rt s
  | Obj s => StringToNumber rt s
  end.

(** [Math.floor] *)
Definition floor (n : number) : number :=
  match n with
  | Finite q => Finite (inject_Z (Qfloor q))
  | _ => n
  end.

(** [Number.isFinite] *)
Definition isFinite (n : number) : bool :=
  match n with Finite _ => true | _ => false end.

(** [Number.isInteger] *)
Definition isInteger (n : number) : bool :=
  match n with
  | Finite q => Qeq_bool q (inject_Z (Qfloor q))
  | _ => false
  end.

Definition Qltb (a b : Q) : bool := negb (Qle_bool b a).

(** [n < k] for a rational [k]; comparisons with [NaN] are false. *)
Definition lt (n : number) (k : Q) : bool :=
  match n with
  | NaN => false
  | Infinity negative => negative
  | Finite q => Qltb q k
  end.

(** [n > k] *)
Definition gt (n : number) (k : Q) : bool :=
  match n with
  | NaN => false
  | Infinity negative => negb negative
  | Finite q => Qltb k q
  end.

(** [n === k] for an integer [k] *)
Definition strictEqualsInt (n : number) (k : Z) : bool :=
  match n with
  | Finite q => Qeq_bool q (inject_Z k)
  | _ => false
  end.

(** Truthiness of a value. *)
Definition truthy (v : value) : bool :=
  match v with
  | Undefined | Null => false
  | Bool b => b
  | Num q => negb (Qeq_bool q 0)
  | Str s => negb (String.eqb s "")
  | Obj _ => true
  end.

(** The white space [String.prototype.trim] removes, within ASCII. *)
Definition isWhiteSpace (c : ascii) : bool :=
  existsb (Ascii.eqb c) ["009"; "010"; "011"; "012"; "013"; " "]%char.

Fixpoint isBlank (s : string) : bool :=
  match s with
  | EmptyString => true
  | String c s' => isWhiteSpace c && isBlank s'
  end.

(** [s.trim().length > 0] *)
Definition hasText (s : string) : bool := negb (isBlank s).

(** Truthiness of a number that may be absent: [undefined], [null] and 0 are
    falsy. *)
Definition truthyTime (t : option Z) : option Z :=
  match t with
  | Some v => if v =? 0 then None else Some v
  | None => None
  end.

(** [Array.prototype.sort()] on strings: ascending in the order of the code
    units.  The sorted array is computed by insertion. *)
Fixpoint insertSorted (x : string) (l : list string) : list string :=
  match l with
  | [] => [x]
  | y :: l' => if String.leb x y then x :: y :: l' else y :: insertSorted x l'
  end.

Definition sort (l : list string) : list string :=
  foldr insertSorted [] l.

End Js.

(** ** [JSON.stringify] *)

Module Json.
Import Js.

Definition dquote : ascii := "034"%char.
Definition backslash : ascii := "092"%char.

Definition hexDigit (n : N) : ascii :=
  match n with
  | 0%N => "0" | 1%N => "1" | 2%N => "2" | 3%N => "3" | 4%N => "4"
  | 5%N => "5" | 6%N => "6" | 7%N => "7" | 8%N => "8" | 9%N => "9"
  | 10%N => "a" | 11%N => "b" | 12%N => "c" | 13%N => "d" | 14%N => "e"
  | _ => "f"
  end%char.

(** The escape of one character in [QuoteJSONString]: the quotation mark, the
    reverse solidus and the control characters below U+0020 are escaped, the
    others are copied. *)
Definition escapeChar (c : ascii) : string :=
  let n := N_of_ascii c in
  if Ascii.eqb c dquote then String backslash (String dquote "")
  else if Ascii.eqb c backslash then String backslash (String backslash "")
  else if (n =? 8)%N then String backslash "b"
  else if (n =? 9)%N then String backslash "t"
  else if (n =? 10)%N then String backslash "n"
  else if (n =? 12)%N then String backslash "f"
  else if (n =? 13)%N then String backslash "r"
  else if (n <? 32)%N then
    String backslash
      (String "u" (String "0" (String "0"
         (String (hexDigit (n / 16)) (String (hexDigit (n mod 16)) "")))))
  else String c "".

Fixpoint escapeString (s : string) : string :=
  match s with
  | EmptyString => EmptyString
  | String c s' => escapeChar c +:+ escapeString s'
  end.

(** [JSON.stringify(s)] for a string [s] *)
Definition quote (s : string) : string :=
  String dquote (escapeString s +:+ String dquote "").

(** The inverse of [escapeChar]: the character an escape at the head of a
    string stands for, and the rest of the string. *)
Definition unhex (c : ascii) : N :=
  let n := N_of_ascii c in
  if (n <? 58)%N then (n - 48)%N else (n - 87)%N.

Definition unescapeChar (s : string) : option (ascii * string) :=
  match s with
  | EmptyString => None
  | String c rest =>
      if Ascii.eqb c backslash then
        match rest with
        | String x rest' =>
            if Ascii.eqb x "u" then
              match rest' with
              | String _ (String _ (String h (String l rest''))) =>
                  Some (ascii_of_N (16 * unhex h + unhex l), rest'')
              | _ => None
              end
            else if Ascii.eqb x "b" then Some ("008"%char, rest')
            else if Ascii.eqb x "t" then Some ("009"%char, rest')
            else if Ascii.eqb x "n" then Some ("010"%char, rest')
            else if Ascii.eqb x "f" then Some ("012"%char, rest')
            else if Ascii.eqb x "r" then Some ("013"%char, rest')
            else Some (x, rest')
        | EmptyString => None
        end
      else Some (c, rest)
  end.

(** The characters a number is written with. *)
Definition numberChar (c : ascii) : bool :=
  existsb (Ascii.eqb c)
    ["0"; "1"; "2"; "3"; "4"; "5"; "6"; "7"; "8"; "9"; "-"; "+"; "."; "e"]%char.

Fixpoint allChars (P : ascii -> bool) (s : string) : bool :=
  match s with
  | EmptyString => true
  | String c s' => P c && allChars P s'
  end.

(** The values that occur in the object the preview id is computed from. *)
#[warnings="-register-all"]
Inductive json : Type :=
| JNull
| JBool (b : bool)
| JInt (z : Z)
| JNumber (q : Q)
| JString (s : string)
| JArray (items : list json)
| JObject (members : list (string * json)).

Fixpoint joinWith (sep : string) (l : list string) : string :=
  match l with
  | [] => ""
  | [x] => x
  | x :: l' => x +:+ sep +:+ joinWith sep l'
  end.

(** [JSON.stringify(v)], without indentation.  An integer is written in
    decimal, any other number as [Number_toString] writes it. *)
Fixpoint stringify (rt : Runtime) (v : json) : string :=
  match v with
  | JNull => "null"
  | JBool true => "true"
  | JBool false => "false"
  | JInt z => pretty z
  | JNumber q => Number_toString rt q
  | JString s => quote s
  | JArray items => "[" +:+ joinWith "," (map (stringify rt) items) +:+ "]"
  | JObject members =>
      "{" +:+ joinWith ","
                (map (fun m => quote (fst m) +:+ ":" +:+ stringify rt (snd m)) members)
          +:+ "}"
  end.

End Json.

(** ** Accounts, the world the handlers act on, and their collaborators *)

Module Users.
Import Fs Js.

(** A user record of the account store: the fields the handlers read. *)
Record User : Type := mkUser {
  handle : string;
  name : string;
  created : option Z;
  admin : bool;
  enabled : bool;
  expiresAt : option Z;
  email : option string
}.

(** What [systemMonitor.getUserLoadStats] returns for a handle it knows. *)
Record UserStats : Type := mkUserStats {
  lastActivity : option Z;
  lastHeartbeat : option Z
}.

(** The state the handlers read and change: the account store (the user
    records and the avatar records, each keyed by handle: [toKey] and
    [toAvatarKey] put a constant prefix before the handle), the file system
    and the statistics of the system monitor. *)
Record World : Type := mkWorld {
  users : gmap string User;
  avatars : gmap string string;
  fs : node;
  loadStats : gmap string UserStats
}.

(** [getDefaultTemplateInfo()]; [categories = None] when it is not an array. *)
Record TemplateInfo : Type := mkTemplateInfo {
  templateExists : bool;
  categories : option (list string)
}.

(** What a call that may throw yields. *)
Inductive attempt (A : Type) : Type :=
| Ok (a : A)
| Throw (message : string).
Arguments Ok {A} a.
Arguments Throw {A} message.

(** The request context and the collaborators of the handlers.  The fields
    ending in [_error] say which calls throw, and with which message; [nowAt]
    is [Date.now()] at the time the candidate of that handle is processed. *)
Record Env : Type := mkEnv {
  callerHandle : string;
  DEFAULT_USER_handle : string;
  normalizeHandle : value -> string;
  getUserDirectories : string -> gmap string path;
  templateInfo : TemplateInfo;
  now : Z;
  nowAt : string -> Z;
  isEmailServiceAvailable : bool;
  sendInactiveUserDeletionNotice : string -> string -> Z -> attempt bool;
  getItem_error : string -> option string;
  removeItem_error : string -> option string;
  removeAvatar_error : string -> option string;
  rm_error : path -> option string;
  resetUserStats_error : string -> option string
}.

(** [storage.values(x => x.key.startsWith(KEY_PREFIX))] *)
Definition storageValues (w : World) : list User :=
  map snd (map_to_list (users w)).

(** [directories.root] *)
Definition rootOf (directories : gmap string path) : option path :=
  directories !! "root".

(** *** Effects that may throw, on the world *)

Definition M (A : Type) : Type := World -> attempt A * World.

Definition ret {A} (a : A) : M A := fun w => (Ok a, w).

Definition bind {A B} (m : M A) (k : A -> M B) : M B :=
  fun w =>
    match m w with
    | (Ok a, w') => k a w'
    | (Throw msg, w') => (Throw msg, w')
    end.

Notation "m1 >>> m2" := (bind m1 (fun _ => m2))
  (at level 60, right associativity).

Definition failWhen (e : option string) : M unit :=
  fun w => match e with Some msg => (Throw msg, w) | None => (Ok tt, w) end.

(** [await storage.getItem(toKey(handle))] *)
Definition getItem (env : Env) (h : string) : M (option User) :=
  fun w =>
    match getItem_error env h with
    | Some msg => (Throw msg, w)
    | None => (Ok (users w !! h), w)
    end.

(** [await storage.removeItem(toKey(handle))] *)
Definition removeItem (env : Env) (h : string) : M unit :=
  fun w =>
    match removeItem_error env h with
    | Some msg => (Throw msg, w)
    | None => (Ok tt, mkWorld (delete h (users w)) (avatars w) (fs w) (loadStats w))
    end.

(** [await storage.removeItem(toAvatarKey(handle))] *)
Definition removeAvatar (env : Env) (h : string) : M unit :=
  fun w =>
    match removeAvatar_error env h with
    | Some msg => (Throw msg, w)
    | None => (Ok tt, mkWorld (users w) (delete h (avatars w)) (fs w) (loadStats w))
    end.

(** [await fsPromises.rm(root, { recursive: true, force: true })] *)
Definition rmTree (env : Env) (root : path) : M unit :=
  fun w =>
    match rm_error env root with
    | Some msg => (Throw msg, w)
    | None => (Ok tt, mkWorld (users w) (avatars w) (rm (fs w) root) (loadStats w))
    end.

(** [systemMonitor.resetUserStats(handle)] *)
Definition resetUserStats (env : Env) (h : string) : M unit :=
  fun w =>
    match resetUserStats_error env h with
    | Some msg => (Throw msg, w)
    | None => (Ok tt, mkWorld (users w) (avatars w) (fs w) (delete h (loadStats w)))
    end.

Definition when (b : bool) (m : M unit) : M unit :=
  if b then m else ret tt.

(** [fs.existsSync(directories.root)] *)
Definition rootExists (w : World) (root : option path) : bool :=
  match root with
  | Some p => existsSync (fs w) p
  | None => false
  end.

End Users.

(** ** The admin endpoints *)

Module UsersAdmin.
Import Fs Js Json Users DirectorySize Audit.

(** [String.prototype.trim], within ASCII. *)
Fixpoint trimStart (s : string) : string :=
  match s with
  | String c s' => if isWhiteSpace c then trimStart s' else s
  | EmptyString => EmptyString
  end.

Definition trim (s : string) : string :=
  String.rev (trimStart (String.rev (trimStart s))).

(** The scan criteria, [{ inactiveDays, requireUnused, maxStorageMB,
    excludeActiveSubscriptions }]. *)
Record Criteria : Type := mkCriteria {
  inactiveDays : Z;
  requireUnused : bool;
  maxStorageMB : option Q;
  excludeActiveSubscriptions : bool
}.

(** The body of a [/delete-inactive-users] request; an absent field is
    [Undefined]. *)
Record Body : Type := mkBody {
  body_dryRun : value;
  body_inactiveDays : value;
  body_requireUnused : value;
  body_excludeActiveSubscriptions : value;
  body_maxStorageMB : value;
  body_previewId : value;
  body_confirmCount : value
}.

(** The error a request is rejected with. *)
Inductive Diagnostic : Type :=
| InvalidInactiveDays
| InvalidMaxStorageMB
| MissingPreviewId
| MissingConfirmCount
| PreviewChanged
| ConfirmCountMismatch (current : nat)
| MissingRequiredFields
| CannotDeleteYourself
| CannotDeleteDefaultUser
| CannotDisableYourself
| InvalidHandleFormat
| UserNotFound.

(** An entry of [inactiveUsers]. *)
Record Candidate : Type := mkCandidate {
  cand_handle : string;
  cand_name : string;
  cand_lastActivity : Z;
  cand_daysSinceLastActivity : Z;
  cand_storageSize : Z;
  cand_hasEmail : bool;
  cand_expiresAt : option Z;
  cand_hasActiveSubscription : bool;
  cand_isUnused : option bool
}.

(** An entry of [results]; a field the source leaves out is [None]. *)
Record DeletionResult : Type := mkDeletionResult {
  res_handle : string;
  res_name : string;
  res_success : bool;
  res_error : option string;
  res_deletedSize : option Z;
  res_emailNotified : option bool;
  res_emailError : option string
}.

Inductive Response : Type :=
| Rejected (status : Z) (error : Diagnostic)
| ServerError (message : string)
| NoContent
| Preview (criteria : Criteria) (previewId : string)
    (inactiveUsers : list Candidate) (totalUsers : nat) (totalSize : Z)
| Executed (criteria : Criteria) (previewId : string)
    (deletedUsers failedUsers : list DeletionResult)
    (totalDeleted totalFailed : nat) (totalDeletedSize : Z).

(** *** Reading the criteria *)

(** [String(v).trim() !== ''] *)
Definition notBlank (v : value) : bool :=
  match v with
  | Str s | Obj s => hasText s
  | _ => true
  end.

Definition parseCriteria (rt : Runtime) (body : Body) : Diagnostic + Criteria :=
  let inactiveDaysRaw :=
    match body_inactiveDays body with
    | Undefined | Null => Num 60
    | v => v
    end in
  match floor (toNumber rt inactiveDaysRaw) with
  | Finite days =>
      if Qltb days 1 || Qltb 3650 days then inl InvalidInactiveDays
      else
        let requireUnused :=
          match body_requireUnused body with Bool true => true | _ => false end in
        let excludeActiveSubscriptions :=
          match body_excludeActiveSubscriptions body with Bool false => false | _ => true end in
        let finish (maxStorageMB : option Q) :=
          inr (mkCriteria (Qfloor days) requireUnused maxStorageMB
                          excludeActiveSubscriptions) in
        match body_maxStorageMB body with
        | Null | Undefined => finish None
        | raw =>
            if notBlank raw then
              match toNumber rt raw with
              | Finite parsed =>
                  if Qltb parsed 0 then inl InvalidMaxStorageMB
                  else finish (Some parsed)
              | _ => inl InvalidMaxStorageMB
              end
            else finish None
        end
  | _ => inl InvalidInactiveDays
  end.

(** [Math.floor(maxStorageMB * 1024 * 1024)] *)
Definition maxStorageBytes (criteria : Criteria) : option Z :=
  option_map (fun mb => Qfloor (mb * 1024 * 1024)) (maxStorageMB criteria).

(** [inactiveDays * 24 * 60 * 60 * 1000] *)
Definition inactiveThreshold (criteria : Criteria) : Z :=
  inactiveDays criteria * 24 * 60 * 60 * 1000.

(** *** The baseline *)

Definition categoryToDirKey : list (string * string) :=
  [ ("characters", "characters"); ("worlds", "worlds");
    ("instruct", "instruct"); ("context", "context");
    ("sysprompt", "sysprompt"); ("reasoning", "reasoning");
    ("quickreplies", "quickreplies");
    ("openai_settings", "openAI_Settings");
    ("kobold_settings", "koboldAI_Settings");
    ("novel_settings", "novelAI_Settings");
    ("textgen_settings", "textGen_Settings") ].

Fixpoint assoc (k : string) (l : list (string * string)) : option string :=
  match l with
  | [] => None
  | (k', v) :: l' => if String.eqb k' k then Some v else assoc k l'
  end.

(** The directory keys of the categories the active template populates. *)
Definition activeDirKeys (cats : list string) : list string :=
  omap (fun categoryId => assoc categoryId categoryToDirKey) cats.

(** The directories of [default-template], with the keys outside the active
    categories set to [null]; [null] when there is no active template.  A
    [null] entry and a missing one read alike in [checkUserIsUnused]. *)
Definition baselineDirectories (env : Env) : option (gmap string path) :=
  match categories (templateInfo env) with
  | Some cats =>
      if templateExists (templateInfo env) && negb (Nat.eqb (length cats) 0) then
        Some (filter (fun kv => fst kv ∈ activeDirKeys cats)
                     (getUserDirectories env "default-template"))
      else None
  | None => None
  end.

(** *** The scan *)

(** [Boolean(user.expiresAt && user.expiresAt > t)] *)
Definition hasActiveSubscriptionAt (t : Z) (user : User) : bool :=
  match expiresAt user with
  | Some e => negb (e =? 0) && (t <? e)
  | None => false
  end.

(** The last activity of a user: with statistics that record a last activity,
    the heartbeat when there is one and else that last activity; otherwise
    the creation time, or 0. *)
Definition lastActivityTimeOf (userStats : option UserStats) (user : User) : Z :=
  match userStats with
  | Some st =>
      match truthyTime (lastActivity st) with
      | Some activity =>
          match truthyTime (lastHeartbeat st) with
          | Some heartbeat => heartbeat
          | None => activity
          end
      | None => default 0 (created user)
      end
  | None => default 0 (created user)
  end.

(** [typeof user.email === 'string' && user.email.trim().length > 0] *)
Definition hasBoundEmail (user : User) : bool :=
  match email user with
  | Some e => hasText e
  | None => false
  end.

(** [calculateDirectorySize(directories.root)] *)
Definition storageSizeOf (w : World) (directories : gmap string path) : option Z :=
  match rootOf directories with
  | Some root => calculateDirectorySize (fs w) root
  | None => Some 0
  end.

(** The body of the loop over the users: [Some None] is [continue], [Some
    (Some c)] pushes the candidate [c], [None] means that a traversal ran out
    of its bound. *)
Definition scanUser (env : Env) (criteria : Criteria)
    (baseline : option (gmap string path)) (w : World) (user : User)
  : option (option Candidate) :=
  if String.eqb (handle user) (callerHandle env) then Some None
  else if String.eqb (handle user) (DEFAULT_USER_handle env) then Some None
  else if admin user then Some None
  else
    let hasActiveSubscription := hasActiveSubscriptionAt (now env) user in
    if excludeActiveSubscriptions criteria && hasActiveSubscription then Some None
    else
      let userStats := loadStats w !! handle user in
      let lastActivityTime := lastActivityTimeOf userStats user in
      let timeSinceLastActivity := now env - lastActivityTime in
      if negb (timeSinceLastActivity >? inactiveThreshold criteria) then Some None
      else
        let daysSinceLastActivity := timeSinceLastActivity / (24 * 60 * 60 * 1000) in
        let directories := getUserDirectories env (handle user) in
        match storageSizeOf w directories with
        | None => None
        | Some storageSize =>
            let candidate (unused : option bool) :=
              mkCandidate (handle user) (name user) lastActivityTime
                daysSinceLastActivity storageSize (hasBoundEmail user)
                (truthyTime (expiresAt user)) hasActiveSubscription unused in
            if match maxStorageBytes criteria with
               | Some cap => storageSize >? cap
               | None => false
               end
            then Some None
            else if requireUnused criteria then
              match checkUserIsUnused (fs w) (Some directories) baseline with
              | None => None
              | Some unusedCheck =>
                  if negb (isUnused unusedCheck) then Some None
                  else Some (Some (candidate (Some (isUnused unusedCheck))))
              end
            else Some (Some (candidate None))
        end.

(** The loop over the users; [candidates] and [totalCandidateSize] are the
    variables of the source. *)
Fixpoint scanUsers (env : Env) (criteria : Criteria)
    (baseline : option (gmap string path)) (w : World) (us : list User)
    (candidates : list Candidate) (totalCandidateSize : Z)
  : option (list Candidate * Z) :=
  match us with
  | [] => Some (candidates, totalCandidateSize)
  | user :: rest =>
      match scanUser env criteria baseline w user with
      | None => None
      | Some None =>
          scanUsers env criteria baseline w rest candidates totalCandidateSize
      | Some (Some c) =>
          scanUsers env criteria baseline w rest (candidates ++ [c])
                    (totalCandidateSize + cand_storageSize c)
      end
  end.

Definition scan (env : Env) (criteria : Criteria) (w : World)
  : option (list Candidate * Z) :=
  scanUsers env criteria (baselineDirectories env) w (storageValues w) [] 0.

(** *** The preview id *)

Definition criteriaJson (criteria : Criteria) : json :=
  JObject
    [ ("inactiveDays", JInt (inactiveDays criteria));
      ("requireUnused", JBool (requireUnused criteria));
      ("maxStorageMB",
         match maxStorageMB criteria with
         | Some mb => JNumber mb
         | None => JNull
         end);
      ("excludeActiveSubscriptions", JBool (excludeActiveSubscriptions criteria)) ].

(** [JSON.stringify({ criteria, handles: candidates.map(u => u.handle).sort() })] *)
Definition previewInput (rt : Runtime) (criteria : Criteria) (handles : list string) : string :=
  stringify rt
    (JObject [ ("criteria", criteriaJson criteria);
               ("handles", JArray (map JString (sort handles))) ]).

Definition previewIdOf (rt : Runtime) (criteria : Criteria) (handles : list string) : string :=
  sha256hex rt (previewInput rt criteria handles).

(** *** The execution pass *)

Definition failure (c : Candidate) (message : string)
    (emailNotified : option bool) (emailError : option string) : DeletionResult :=
  mkDeletionResult (cand_handle c) (cand_name c) false (Some message) None
                   emailNotified emailError.

(** The deletion notice: [(emailNotified, emailError)] after the block, or the
    exception of the notifier.  Both variables still hold their initial
    values when the notifier throws. *)
Definition notify (env : Env) (user : User) (c : Candidate)
  : attempt (bool * option string) :=
  if hasBoundEmail user then
    if isEmailServiceAvailable env then
      match sendInactiveUserDeletionNotice env
              (trim (default "" (email user))) (name user)
              (cand_daysSinceLastActivity c) with
      | Throw msg => Throw msg
      | Ok sent =>
          Ok (sent, if sent then None else Some "Failed to send notification email")
      end
    else Ok (false, Some "Email service not available")
  else Ok (false, None).

(** The removals of one candidate, in the order of the source: the account
    record, the avatar record, the directory tree when it exists, the
    statistics.  An exception leaves what was removed before it removed. *)
Definition removeCandidate (env : Env) (c : Candidate) : M unit :=
  let directories := getUserDirectories env (cand_handle c) in
  removeItem env (cand_handle c) >>>
  removeAvatar env (cand_handle c) >>>
  (fun w =>
     match rootOf directories with
     | Some root => when (existsSync (fs w) root) (rmTree env root) w
     | None => ret tt w
     end) >>>
  resetUserStats env (cand_handle c).

(** The body of the loop over the candidates, with its [try] and [catch]:
    the entry pushed on [results], and the world afterwards. *)
Definition deleteCandidate (env : Env) (criteria : Criteria) (c : Candidate)
    (w : World) : DeletionResult * World :=
  match getItem env (cand_handle c) w with
  | (Throw msg, w1) => (failure c msg (Some false) None, w1)
  | (Ok None, w1) =>
      (failure c "User not found" None None, w1)
  | (Ok (Some user), w1) =>
      if String.eqb (cand_handle c) (callerHandle env)
         || String.eqb (cand_handle c) (DEFAULT_USER_handle env)
         || admin user
      then (failure c "Protected user cannot be deleted" None None, w1)
      else if excludeActiveSubscriptions criteria
              && hasActiveSubscriptionAt (nowAt env (cand_handle c)) user
      then (failure c "User has active subscription" None None, w1)
      else
        match notify env user c with
        | Throw msg => (failure c msg (Some false) None, w1)
        | Ok (emailNotified, emailError) =>
            match removeCandidate env c w1 with
            | (Throw msg, w2) =>
                (failure c msg (Some emailNotified) emailError, w2)
            | (Ok _, w2) =>
                (mkDeletionResult (cand_handle c) (cand_name c) true None
                   (Some (cand_storageSize c)) (Some emailNotified) emailError,
                 w2)
            end
        end
  end.

(** The loop over the candidates; [results] and [totalDeletedSize] are the
    variables of the source. *)
Fixpoint deleteCandidates (env : Env) (criteria : Criteria)
    (candidates : list Candidate) (w : World)
    (results : list DeletionResult) (totalDeletedSize : Z)
  : list DeletionResult * Z * World :=
  match candidates with
  | [] => (results, totalDeletedSize, w)
  | c :: rest =>
      let '(r, w') := deleteCandidate env criteria c w in
      deleteCandidates env criteria rest w' (results ++ [r])
        (if res_success r then totalDeletedSize + cand_storageSize c
         else totalDeletedSize)
  end.

(** *** [POST /delete-inactive-users] *)

(** The handler: the response and the world after the request, or [None]
    when a traversal of the scan ran out of its bound. *)
Definition deleteInactiveUsers (rt : Runtime) (env : Env) (body : Body) (w : World)
  : option (Response * World) :=
  match parseCriteria rt body with
  | inl diagnostic => Some (Rejected 400 diagnostic, w)
  | inr criteria =>
      match scan env criteria w with
      | None => None
      | Some (candidates, totalCandidateSize) =>
          let previewId := previewIdOf rt criteria (map cand_handle candidates) in
          match body_dryRun body with
          | Bool true =>
              Some (Preview criteria previewId candidates (length candidates)
                            totalCandidateSize, w)
          | _ =>
              let confirmCount := toNumber rt (body_confirmCount body) in
              match body_previewId body with
              | Str requestPreviewId =>
                  if (String.length requestPreviewId <? 8)%nat then
                    Some (Rejected 400 MissingPreviewId, w)
                  else if negb (isFinite confirmCount)
                          || negb (isInteger confirmCount)
                          || lt confirmCount 0 then
                    Some (Rejected 400 MissingConfirmCount, w)
                  else if negb (String.eqb requestPreviewId previewId) then
                    Some (Rejected 409 PreviewChanged, w)
                  else if negb (strictEqualsInt confirmCount
                                  (Z.of_nat (length candidates))) then
                    Some (Rejected 400 (ConfirmCountMismatch (length candidates)), w)
                  else
                    let '(results, totalDeletedSize, w') :=
                      deleteCandidates env criteria candidates w [] 0 in
                    let deleted := List.filter res_success results in
                    let failed := List.filter (fun r => negb (res_success r)) results in
                    Some (Executed criteria previewId deleted failed
                            (length deleted) (length failed) totalDeletedSize, w')
              | _ => Some (Rejected 400 MissingPreviewId, w)
              end
          end
      end
  end.

(** *** [POST /delete] and [POST /disable] *)

Record HandleBody : Type := mkHandleBody {
  body_handle : value;
  body_purge : value
}.

(** [v === s] for a string [s] *)
Definition isString (v : value) (s : string) : bool :=
  match v with
  | Str s' => String.eqb s' s
  | _ => false
  end.

Definition deleteUser (env : Env) (body : HandleBody) (w : World) : Response * World :=
  if negb (truthy (body_handle body)) then (Rejected 400 MissingRequiredFields, w)
  else if isString (body_handle body) (callerHandle env) then
    (Rejected 400 CannotDeleteYourself, w)
  else if isString (body_handle body) (DEFAULT_USER_handle env) then
    (Rejected 400 CannotDeleteDefaultUser, w)
  else
    let normalizedHandle := normalizeHandle env (body_handle body) in
    if String.eqb normalizedHandle "" then (Rejected 400 InvalidHandleFormat, w)
    else
      match (removeItem env normalizedHandle >>>
             removeAvatar env normalizedHandle >>>
             resetUserStats env normalizedHandle >>>
             when (truthy (body_purge body))
               (match rootOf (getUserDirectories env normalizedHandle) with
                | Some root => rmTree env root
                | None => failWhen (Some "The path argument must be of type string")
                end)) w with
      | (Ok _, w') => (NoContent, w')
      | (Throw msg, w') => (ServerError msg, w')
      end.

(** [await storage.setItem(toKey(handle), user)] *)
Definition setItem (h : string) (user : User) : M unit :=
  fun w => (Ok tt, mkWorld (<[h := user]> (users w)) (avatars w) (fs w) (loadStats w)).

Definition disableUser (env : Env) (body : HandleBody) (w : World)
  : Response * World :=
  if negb (truthy (body_handle body)) then (Rejected 400 MissingRequiredFields, w)
  else
    let normalizedHandle := normalizeHandle env (body_handle body) in
    if String.eqb normalizedHandle "" then (Rejected 400 InvalidHandleFormat, w)
    else if String.eqb normalizedHandle (callerHandle env) then
      (Rejected 400 CannotDisableYourself, w)
    else
      match getItem env normalizedHandle w with
      | (Throw msg, w') => (ServerError msg, w')
      | (Ok None, w') => (Rejected 404 UserNotFound, w')
      | (Ok (Some user), w') =>
          match setItem normalizedHandle
                  (mkUser (handle user) (name user) (created user) (admin user)
                          false (expiresAt user) (email user)) w' with
          | (Ok _, w'') => (NoContent, w'')
          | (Throw msg, w'') => (ServerError msg, w'')
          end
      end.

End UsersAdmin.

(** ** Notions used in the statements about the endpoints *)

Module Statements.
Import Fs Js Json Users DirectorySize Audit UsersAdmin.

(** Every record of the account store is stored under its own handle. *)
Definition store_consistent (w : World) : Prop :=
  forall k u, users w !! k = Some u -> handle u = k.

(** The same, as a test that can be run. *)
Definition store_consistentb (w : World) : bool :=
  forallb (fun kv => String.eqb (handle (snd kv)) (fst kv)) (map_to_list (users w)).

(** The accounts the bulk pass must never delete. *)
Definition protected (env : Env) (u : User) : Prop :=
  handle u = callerHandle env \/ handle u = DEFAULT_USER_handle env \/ admin u = true.

(** The last-activity time as the specification words it: the heartbeat if
    one is present, else the recorded last activity if present, else the
    creation time. *)
Definition claimedLastActivityTime (userStats : option UserStats) (user : User) : Z :=
  match userStats ≫= (fun st => truthyTime (lastHeartbeat st)) with
  | Some heartbeat => heartbeat
  | None =>
      match userStats ≫= (fun st => truthyTime (lastActivity st)) with
      | Some activity => activity
      | None => default 0 (created user)
      end
  end.

(** Nothing was removed between two worlds: every account record, avatar
    record and file-system object of [w] is still there in [w']. *)
Definition nothingRemoved (w w' : World) : Prop :=
  users w' = users w /\ avatars w' = avatars w /\ fs w' = fs w.

(** The supplied preview id is a string of at least 8 characters. *)
Definition tokenPlausible (v : value) : Prop :=
  exists s, v = Str s /\ (8 <= String.length s)%nat.

(** The supplied count converts, by [Number()], to a non-negative integer. *)
Definition countAccepted (rt : Runtime) (v : value) : Prop :=
  isFinite (toNumber rt v) = true /\ isInteger (toNumber rt v) = true /\
  lt (toNumber rt v) 0 = false.

(** The supplied count is itself a non-negative integer, as the
    specification words the precondition. *)
Definition isNonNegativeInteger (v : value) : Prop :=
  exists n : Z, 0 <= n /\ v = Num (inject_Z n).

(** The diagnostics of the four preconditions of an execution. *)
Definition preconditionDiagnostic (n : nat) (d : Diagnostic) : Prop :=
  d = MissingPreviewId \/ d = MissingConfirmCount \/ d = PreviewChanged \/
  d = ConfirmCountMismatch n.

(** The texts of the leaves of the object the digest is taken of, and the
    text that follows the first element of its array. *)
Definition boolText (b : bool) : string := if b then "true" else "false".

Definition capText (rt : Runtime) (mb : option Q) : string :=
  match mb with
  | Some q => Number_toString rt q
  | None => "null"
  end.

Definition arrayRest (l : list string) : string :=
  match l with
  | [] => "]}"
  | _ => "," +:+ joinWith "," (map quote l) +:+ "]}"
  end.

(** The storage cap of the criteria is written with number characters. *)
Definition capWritten (rt : Runtime) (c : Criteria) : Prop :=
  forall q, maxStorageMB c = Some q -> allChars numberChar (Number_toString rt q) = true.

(** Two criteria are the same: the same fields, the storage caps equal as
    numbers. *)
Definition sameCriteria (c1 c2 : Criteria) : Prop :=
  inactiveDays c1 = inactiveDays c2 /\
  requireUnused c1 = requireUnused c2 /\
  excludeActiveSubscriptions c1 = excludeActiveSubscriptions c2 /\
  match maxStorageMB c1, maxStorageMB c2 with
  | Some a, Some b => a == b
  | None, None => True
  | _, _ => False
  end.

(** An entry of [results] is a success, or a failure with its error. *)
Definition wellFormedResult (r : DeletionResult) : Prop :=
  (res_success r = true /\ res_error r = None) \/
  (res_success r = false /\ is_Some (res_error r)).

End Statements.

(** ** A sample installation *)

Module Sample.
Import Fs Js Json Users DirectorySize Audit UsersAdmin.

(** A runtime for the examples: the digest is the identity and numbers are
    whole, written in decimal. *)
Definition rt : Runtime :=
  mkRuntime (fun s => s) (fun q => pretty (Qfloor q)) (fun _ => NaN).

Definition dirsOf (h : string) : gmap string path :=
  list_to_map (("root", ["data"; h]) :: map (fun k => (k, ["data"; h; k])) keysToCheck).

Definition day : Z := 24 * 60 * 60 * 1000.

(** Lower-casing of the ASCII letters, as a handle normalisation. *)
Definition lowerChar (c : ascii) : ascii :=
  let n := N_of_ascii c in
  if ((65 <=? n) && (n <=? 90))%N then ascii_of_N (n + 32) else c.

Fixpoint lowerCase (s : string) : string :=
  match s with
  | EmptyString => EmptyString
  | String c s' => String (lowerChar c) (lowerCase s')
  end.

Definition normalize (v : value) : string :=
  match v with Str s => lowerCase s | _ => "" end.

(** The caller is [admin]; it is day 100, and the candidates are processed on
    day 101. *)
Definition env : Env :=
  mkEnv "admin" "default-user" normalize dirsOf
        (mkTemplateInfo true (Some ["instruct"]))
        (100 * day) (fun _ => 101 * day)
        false (fun _ _ _ => Ok true)
        (fun _ => None) (fun _ => None) (fun _ => None) (fun _ => None) (fun _ => None).

Definition userDir (files : list (string * node)) : node := Dir true 4096 files.

(** [carol] was created on day 1 and holds the template's preset only;
    [dave] has a subscription that runs to day 200; [erin] is an admin;
    [gina] was created on day 90;
    [frank] was created on day 1, has no recorded last activity and a
    heartbeat on day 100. *)
Definition world : World :=
  mkWorld
    (list_to_map
       [ ("admin", mkUser "admin" "Admin" (Some 0) true true None None);
         ("default-user", mkUser "default-user" "User" (Some 0) false true None None);
         ("carol", mkUser "carol" "Carol" (Some day) false true None (Some "c@x.org"));
         ("dave", mkUser "dave" "Dave" (Some day) false true (Some (200 * day)) None);
         ("erin", mkUser "erin" "Erin" (Some day) true true None None);
         ("gina", mkUser "gina" "Gina" (Some (90 * day)) false true None None) ])
    (list_to_map [ ("carol", "avatar") ])
    (Dir true 4096
       [ ("data", Dir true 4096
            [ ("carol", userDir [ ("instruct", userDir [ ("preset.json", File 7) ]) ]);
              ("default-template",
                 userDir [ ("instruct", userDir [ ("preset.json", File 7) ]) ]);
              ("dave", userDir [ ("chats", userDir [ ("c.json", File 100) ]) ]);
              ("admin", userDir [ ("chats", userDir [ ("a.json", File 50) ]) ]) ]) ])
    ∅.

Definition frank : User := mkUser "frank" "Frank" (Some day) false true None None.

Definition worldWithFrank : World :=
  mkWorld (<["frank" := frank]> (users world)) (avatars world) (fs world)
          (<["frank" := mkUserStats None (Some (100 * day))]> (loadStats world)).

(** The same installation where the directory of [carol] cannot be removed. *)
Definition faultyEnv : Env :=
  mkEnv "admin" "default-user" normalize dirsOf
        (mkTemplateInfo true (Some ["instruct"]))
        (100 * day) (fun _ => 101 * day)
        false (fun _ _ _ => Ok true)
        (fun _ => None) (fun _ => None) (fun _ => None)
        (fun p => if decide (p = ["data"; "carol"]) then Some "EACCES" else None)
        (fun _ => None).

Definition criteriaAny : Criteria := mkCriteria 60 false None true.

Definition candidatesAny : list Candidate :=
  [ mkCandidate "carol" "Carol" day 99 7 true None false None;
    mkCandidate "frank" "Frank" day 99 0 false None false None ].

Definition criteriaCap (mb : Q) : Criteria := mkCriteria 60 true (Some mb) true.

Definition scanBody : Body :=
  mkBody (Bool true) (Num 60) (Bool true) Undefined Undefined Undefined Undefined.

Definition criteria : Criteria := mkCriteria 60 true None true.

Definition carolToken : string := previewIdOf rt criteria ["carol"].

Definition executeBody (previewId confirmCount : value) : Body :=
  mkBody Undefined (Num 60) (Bool true) Undefined Undefined previewId confirmCount.

End Sample.

(** * Part I, continued: further notions and endpoints *)

(** ** Trees without failures, and with sizes that are not negative *)

Module Trees.
Import Fs DirectorySize.

(** No failure below the node: every directory can be listed and [stat]
    succeeds on every entry. *)
Fixpoint intact (n : node) : bool :=
  match n with
  | File _ => true
  | Special (Some _) => true
  | Special None => false
  | Dir r _ es => r && forallb (fun e => intact (snd e)) es
  end.

(** No size below the node is negative. *)
Fixpoint sizesNonNegative (n : node) : bool :=
  match n with
  | File sz => 0 <=? sz
  | Special (Some sz) => 0 <=? sz
  | Special None => true
  | Dir _ _ es => forallb (fun e => sizesNonNegative (snd e)) es
  end.

(** The bytes of all the files below a node. *)
Fixpoint totalBytes (n : node) : Z :=
  match n with
  | File sz => sz
  | Special (Some sz) => sz
  | Special None => 0
  | Dir _ _ es => sumZ (map (fun e => totalBytes (snd e)) es)
  end.


(** Below the node there are directories and regular files only, apart from
    entries with an ignored name; the node itself is a directory, and every
    directory can be listed. *)
Fixpoint plain (n : node) : bool :=
  match n with
  | Dir true _ es =>
      forallb (fun e => Audit.ignored (fst e) ||
                        match snd e with
                        | Dir _ _ _ => plain (snd e)
                        | File _ => true
                        | Special _ => false
                        end) es
  | _ => false
  end.

End Trees.

(** ** What the example of an audit result stands for *)

Module AuditStatements.
Import Fs Audit.

(** The entry at [rel] below [dir] is one the walk calls extra: its name is
    not ignored, it is not a directory, and if it is a regular file the
    baseline does not match it. *)
Definition extraEntry (fs : node) (dir : path) (baselineDir : option path)
    (rel : path) : Prop :=
  exists parent nm c,
    rel = parent ++ [nm] /\
    lookup fs (dir ++ rel) = Some c /\
    ignored nm = false /\
    kind_of c <> KDirectory /\
    (forall sz, c = File sz -> matchesBaseline fs baselineDir rel sz = false).

(** The frames of the stack lie below [dir], at their relative paths. *)
Definition framesBelow (dir : path) (stack : list frame) : Prop :=
  Forall (fun f => absPath f = dir ++ relPath f) stack.

End AuditStatements.

(** ** The categories of user content *)

Module Categories.

(** The keys of the checklist no category of the default template maps to:
    they are never compared with a baseline. *)
Definition contentKeys : list string :=
  [ "chats"; "groupChats"; "groups"; "files"; "comfyWorkflows"; "userImages" ].

End Categories.

(** ** [POST /enable], [POST /promote] and [POST /demote] *)

Module AccountEndpoints.
Import Js Users UsersAdmin.

(** What a handler answers: the status, and the text of [{ error }] when
    there is one. *)
Record Answer : Type := mkAnswer { answer_status : Z; answer_error : option string }.

(** [await storage.setItem(toKey(handle), user)], where the store may refuse
    the write: [setItem_error] gives the exception for a handle. *)
Definition setItemOrThrow (setItem_error : string -> option string)
    (h : string) (user : User) : M unit :=
  fun w =>
    match setItem_error h with
    | Some msg => (Throw msg, w)
    | None => setItem h user w
    end.

Definition enableUser (env : Env) (setItem_error : string -> option string)
    (body : HandleBody) (w : World) : Answer * World :=
  if negb (truthy (body_handle body)) then
    (mkAnswer 400 (Some "Missing required fields"), w)
  else
    let normalizedHandle := normalizeHandle env (body_handle body) in
    if String.eqb normalizedHandle "" then
      (mkAnswer 400 (Some "Invalid handle format"), w)
    else
      match getItem env normalizedHandle w with
      | (Throw msg, w') => (mkAnswer 500 None, w')
      | (Ok None, w') => (mkAnswer 404 (Some "User not found"), w')
      | (Ok (Some user), w') =>
          match setItemOrThrow setItem_error normalizedHandle
                  (mkUser (handle user) (name user) (created user) (admin user)
                          true (expiresAt user) (email user)) w' with
          | (Ok _, w'') => (mkAnswer 204 None, w'')
          | (Throw msg, w'') => (mkAnswer 500 None, w'')
          end
      end.

Definition promoteUser (env : Env) (setItem_error : string -> option string)
    (body : HandleBody) (w : World) : Answer * World :=
  if negb (truthy (body_handle body)) then
    (mkAnswer 400 (Some "Missing required fields"), w)
  else
    let normalizedHandle := normalizeHandle env (body_handle body) in
    if String.eqb normalizedHandle "" then
      (mkAnswer 400 (Some "Invalid handle format"), w)
    else
      match getItem env normalizedHandle w with
      | (Throw msg, w') => (mkAnswer 500 None, w')
      | (Ok None, w') => (mkAnswer 404 (Some "User not found"), w')
      | (Ok (Some user), w') =>
          match setItemOrThrow setItem_error normalizedHandle
                  (mkUser (handle user) (name user) (created user) true
                          (enabled user) (expiresAt user) (email user)) w' with
          | (Ok _, w'') => (mkAnswer 204 None, w'')
          | (Throw msg, w'') => (mkAnswer 500 None, w'')
          end
      end.

Definition demoteUser (env : Env) (setItem_error : string -> option string)
    (body : HandleBody) (w : World) : Answer * World :=
  if negb (truthy (body_handle body)) then
    (mkAnswer 400 (Some "Missing required fields"), w)
  else
    let normalizedHandle := normalizeHandle env (body_handle body) in
    if String.eqb normalizedHandle "" then
      (mkAnswer 400 (Some "Invalid handle format"), w)
    else if String.eqb normalizedHandle (callerHandle env) then
      (mkAnswer 400 (Some "Cannot demote yourself"), w)
    else
      match getItem env normalizedHandle w with
      | (Throw msg, w') => (mkAnswer 500 None, w')
      | (Ok None, w') => (mkAnswer 404 (Some "User not found"), w')
      | (Ok (Some user), w') =>
          match setItemOrThrow setItem_error normalizedHandle
                  (mkUser (handle user) (name user) (created user) false
                          (enabled user) (expiresAt user) (email user)) w' with
          | (Ok _, w'') => (mkAnswer 204 None, w'')
          | (Throw msg, w'') => (mkAnswer 500 None, w'')
          end
      end.

(** The account store after one of the four flag endpoints has answered 204
    for the handle [h]: the record of [h] with one flag set, all else as it
    was. *)
Definition updated (w : World) (h : string) (user : User) : World :=
  mkWorld (<[h := user]> (users w)) (avatars w) (fs w) (loadStats w).

Definition withEnabled (b : bool) (u : User) : User :=
  mkUser (handle u) (name u) (created u) (admin u) b (expiresAt u) (email u).

Definition withAdmin (b : bool) (u : User) : User :=
  mkUser (handle u) (name u) (created u) b (enabled u) (expiresAt u) (email u).

(** The account of [h] is an admin that may log in. *)
Definition enabledAdmin (w : World) (h : string) : Prop :=
  exists u, users w !! h = Some u /\ admin u = true /\ enabled u = true.

End AccountEndpoints.

(** ** [POST /clear-backups] *)

Module Backups.
Import Fs DirectorySize Users.

(** A new, empty directory with the directories of [p] nested in it; [dsize]
    is the size [stat] reports for a new directory. *)
Fixpoint newDirs (dsize : Z) (p : path) : node :=
  match p with
  | [] => Dir true dsize []
  | name :: p' => Dir true dsize [(name, newDirs dsize p')]
  end.

(** [fs.promises.mkdir(p, { recursive: true })] on the tree: the missing
    directories of [p] are created, a directory that exists is left alone;
    [None] when it throws because a segment of [p] is not a directory. *)
Fixpoint mkdir (dsize : Z) (fs : node) (p : path) : option node :=
  match p, fs with
  | [], Dir _ _ _ => Some fs
  | name :: p', Dir r d es =>
      match find_entry name es with
      | Some c =>
          match mkdir dsize c p' with
          | Some c' =>
              Some (Dir r d (map (fun e => if String.eqb (fst e) name
                                           then (fst e, c') else e) es))
          | None => None
          end
      | None => Some (Dir r d (es ++ [(name, newDirs dsize p')]))
      end
  | _, _ => None
  end.

(** What the handler needs of the platform besides [Env]: the size of a new
    directory, the exceptions of [mkdir] other than the one above, and the
    texts of the exceptions [readdir] and [mkdir] throw on a path. *)
Record Platform : Type := mkPlatform {
  newDirSize : Z;
  mkdir_error : path -> option string;
  readdir_message : path -> string;
  mkdir_message : path -> string
}.

(** The answers of [/clear-backups]: 400, the report, or 500 with the text
    of the exception.  The [message] of the report is left out. *)
Inductive BackupResponse : Type :=
| MissingFields
| Cleared (deletedSize : Z) (deletedFiles : nat)
| Failed (message : string).

(** The handler, for a request whose [handle] is a string; [None] when the
    traversal of [calculateDirectorySize] ran out of its bound.  The handle
    is used as it is given: it is not normalised. *)
Definition clearBackups (env : Env) (pf : Platform) (handle : string) (w : World)
  : option (BackupResponse * World) :=
  if String.eqb handle "" then Some (MissingFields, w)
  else
    let directories := getUserDirectories env handle in
    match directories !! "backups" with
    | None => Some (Cleared 0 0, w)
    | Some backups =>
        if existsSync (fs w) backups then
          match calculateDirectorySize (fs w) backups with
          | None => None
          | Some backupsSize =>
              match readdir (fs w) backups with
              | None => Some (Failed (readdir_message pf backups), w)
              | Some files =>
                  match rmTree env backups w with
                  | (Throw msg, w1) => Some (Failed msg, w1)
                  | (Ok _, w1) =>
                      match mkdir_error pf backups with
                      | Some msg => Some (Failed msg, w1)
                      | None =>
                          match mkdir (newDirSize pf) (fs w1) backups with
                          | None => Some (Failed (mkdir_message pf backups), w1)
                          | Some fs2 =>
                              Some (Cleared (0 + backupsSize) (0 + length files),
                                    mkWorld (users w1) (avatars w1) fs2 (loadStats w1))
                          end
                      end
                  end
              end
          end
        else Some (Cleared 0 0, w)
    end.

End Backups.

(** ** A sample installation with backups *)

Module BackupSample.
Import Fs Users Backups.

Definition backupDirsOf (h : string) : gmap string path :=
  <["backups" := ["data"; h; "backups"]]> (Sample.dirsOf h).

Definition backupEnv : Env :=
  mkEnv "admin" "default-user" Sample.normalize backupDirsOf
        (mkTemplateInfo true (Some ["instruct"]))
        (100 * Sample.day) (fun _ => 101 * Sample.day)
        false (fun _ _ _ => Ok true)
        (fun _ => None) (fun _ => None) (fun _ => None) (fun _ => None) (fun _ => None).

Definition platform : Platform :=
  mkPlatform 4096 (fun _ => None) (fun _ => "ENOTDIR") (fun _ => "ENOTDIR").

(** [erin] has two entries in her backups directory, a file and a directory
    with a file in it, and a chat. *)
Definition backupWorld : World :=
  mkWorld (users Sample.world) (avatars Sample.world)
    (Dir true 4096
       [ ("data", Dir true 4096
            [ ("erin", Sample.userDir
                 [ ("backups", Sample.userDir
                      [ ("a.bak", File 10);
                        ("old", Sample.userDir [ ("b.bak", File 5) ]) ]);
                   ("chats", Sample.userDir [ ("c.json", File 100) ]) ]) ]) ])
    ∅.

End BackupSample.

(** * Part II: properties *)

(** ** Facts about the file system *)

Module FsFacts.
Import Fs.

Lemma find_entry_In name es c :
  find_entry name es = Some c -> In (name, c) es.
Proof.
  induction es as [|[n c'] es IH]; simpl; [discriminate|].
  destruct (String.eqb_spec n name) as [->|Hne].
  - intros [= ->]. now left.
  - intros H. right. auto.
Qed.

Lemma distinct_cons x l :
  distinct (x :: l) = true <-> ~ In x l /\ distinct l = true.
Proof.
  simpl. rewrite andb_true_iff, negb_true_iff.
  split; intros [H1 H2]; split; auto.
  - intros Hin. assert (existsb (String.eqb x) l = true) as E.
    { apply existsb_exists. exists x. split; [done|apply String.eqb_refl]. }
    congruence.
  - destruct (existsb (String.eqb x) l) eqn:E; [|done].
    apply existsb_exists in E as (y & Hy & Heq).
    apply String.eqb_eq in Heq. subst. contradiction.
Qed.

Lemma find_entry_distinct name c es :
  distinct (map fst es) = true -> In (name, c) es -> find_entry name es = Some c.
Proof.
  induction es as [|[n c'] es IH]; simpl map; [intros _ []|].
  rewrite distinct_cons. intros [Hn Hd] [Heq|Hin].
  - injection Heq as -> ->. simpl. now rewrite String.eqb_refl.
  - simpl. destruct (String.eqb_spec n name) as [->|Hne]; [|auto].
    exfalso. apply Hn. apply in_map_iff. now exists (name, c).
Qed.

Lemma lookup_snoc fs p name :
  lookup fs (p ++ [name]) =
  match lookup fs p with
  | Some (Dir _ _ es) => find_entry name es
  | _ => None
  end.
Proof.
  revert fs. induction p as [|s p IH]; intros fs; simpl.
  - destruct fs; try done. destruct (find_entry name entries); done.
  - destruct fs; try done. destruct (find_entry s entries); [apply IH|done].
Qed.

Lemma list_sum_cons x l : list_sum (x :: l) = (x + list_sum l)%nat.
Proof. reflexivity. Qed.

Lemma In_node_size (e : string * node) es :
  In e es -> (node_size (snd e) <= list_sum (map (fun e => node_size (snd e)) es))%nat.
Proof.
  induction es as [|e' es IH]; simpl; [intros []|].
  intros [->|Hin]; [lia|]. specialize (IH Hin). lia.
Qed.

Lemma wf_node_entry r d es e :
  wf_node (Dir r d es) = true -> In e es -> wf_node (snd e) = true.
Proof.
  simpl. rewrite andb_true_iff. intros [_ H] Hin.
  rewrite forallb_forall in H. auto.
Qed.

Lemma wf_node_lookup fs p n :
  wf_node fs = true -> lookup fs p = Some n -> wf_node n = true.
Proof.
  revert fs. induction p as [|s p IH]; intros fs Hwf; simpl.
  - now intros [= <-].
  - destruct fs as [|r d es|]; try done.
    destruct (find_entry s es) as [c|] eqn:E; [|done].
    apply IH. apply find_entry_In in E.
    apply (wf_node_entry r d es (s, c)); auto.
Qed.

Lemma lookup_node_size fs p n :
  lookup fs p = Some n -> (node_size n <= node_size fs)%nat.
Proof.
  revert fs. induction p as [|s p IH]; intros fs; simpl.
  - intros [= <-]. lia.
  - destruct fs as [|r d es|]; try done.
    destruct (find_entry s es) as [c|] eqn:E; [|done].
    intros H. apply IH in H. apply find_entry_In in E.
    apply In_node_size in E. simpl in *. lia.
Qed.

End FsFacts.

(** ** Directory size *)

Module DirectorySizeFacts.
Import Fs FsFacts DirectorySize.

Lemma counted_Dir r d es :
  counted (Dir r d es) = if r then counted_entries es else 0.
Proof. destruct r; reflexivity. Qed.

Lemma stat_snoc fs p r d es nm c :
  lookup fs p = Some (Dir r d es) -> find_entry nm es = Some c ->
  stat fs (p ++ [nm]) =
  match c with
  | File sz => Some (mkStats false sz)
  | Dir _ d' _ => Some (mkStats true d')
  | Special t => option_map (mkStats false) t
  end.
Proof.
  intros Hp Hc. unfold stat. rewrite lookup_snoc, Hp, Hc.
  destruct c as [| |[]]; reflexivity.
Qed.

Lemma sumItems_counted recur fs p r d es l acc :
  lookup fs p = Some (Dir r d es) ->
  (forall e, In e l -> find_entry (fst e) es = Some (snd e)) ->
  (forall e r' d' es', In e l -> snd e = Dir r' d' es' ->
     recur (p ++ [fst e]) = Some (counted (snd e))) ->
  sumItems recur fs p (map fst l) acc = Some (acc + counted_entries l).
Proof.
  intros Hp. revert acc. induction l as [|[nm c] l IH]; intros acc Hfind Hrec.
  - simpl. f_equal. lia.
  - simpl map. cbn [sumItems].
    rewrite (stat_snoc fs p r d es nm c Hp (Hfind (nm, c) (or_introl eq_refl))).
    assert (Hl : forall e, In e l -> find_entry (fst e) es = Some (snd e))
      by (intros; apply Hfind; now right).
    assert (Hr : forall e r' d' es', In e l -> snd e = Dir r' d' es' ->
              recur (p ++ [fst e]) = Some (counted (snd e)))
      by (intros; eapply Hrec; [now right|eassumption]).
    destruct c as [sz|r' d' es'|[sz|]].
    + cbn. rewrite IH by assumption. f_equal. simpl. lia.
    + cbn [isDirectory].
      pose proof (Hrec (nm, Dir r' d' es') r' d' es' (or_introl eq_refl) eq_refl) as Hx.
      cbn [fst snd] in Hx. rewrite Hx.
      rewrite IH by assumption. f_equal. cbn [counted_entries snd]. lia.
    + cbn. rewrite IH by assumption. f_equal. simpl. lia.
    + cbn. f_equal. lia.
Qed.

Lemma calculateDirectorySize_fuel_counted fuel : forall fs p,
  wf_node fs = true ->
  (match lookup fs p with Some n => node_size n | None => 0 end < fuel)%nat ->
  calculateDirectorySize_fuel fuel fs p = Some (directorySize fs p).
Proof.
  induction fuel as [|fuel IH]; intros fs p Hwf Hfuel; [lia|].
  cbn [calculateDirectorySize_fuel].
  unfold directorySize, existsSync, readdir, readdirTypes, stat.
  destruct (lookup fs p) as [[sz|r d es|[sz|]]|] eqn:Hp; cbn; try reflexivity.
  destruct r; cbn; [|reflexivity].
  rewrite map_map. cbn.
  change (map (fun x : string * node => name (dirent_of x)) es) with (map fst es).
  assert (Hwfn := wf_node_lookup _ _ _ Hwf Hp).
  assert (Hd : distinct (map fst es) = true).
  { simpl in Hwfn. now apply andb_true_iff in Hwfn as [? _]. }
  rewrite (sumItems_counted _ fs p true d es es 0 Hp).
  - reflexivity.
  - intros [nm c] Hin. now apply find_entry_distinct.
  - intros [nm c] r' d' es' Hin Hc. simpl in Hc. subst c. cbn [fst snd].
    rewrite IH; [|assumption|].
    + unfold directorySize. rewrite lookup_snoc, Hp.
      now rewrite (find_entry_distinct nm (Dir r' d' es') es).
    + rewrite lookup_snoc, Hp.
      rewrite (find_entry_distinct nm (Dir r' d' es') es) by assumption.
      apply In_node_size in Hin. cbn [snd] in Hin.
      change (node_size (Dir true d es))
        with (S (list_sum (map (fun e => node_size (snd e)) es))) in Hfuel.
      lia.
Qed.

Lemma calculateDirectorySize_counted fs p :
  wf_node fs = true ->
  calculateDirectorySize fs p = Some (directorySize fs p).
Proof.
  intros Hwf. apply calculateDirectorySize_fuel_counted; [done|].
  destruct (lookup fs p) eqn:E; [|lia].
  apply lookup_node_size in E. lia.
Qed.


End DirectorySizeFacts.

(** ** The baseline audit *)

Module AuditFacts.
Import Fs FsFacts DirectorySizeFacts Audit.

Lemma clean_Dir fs b rel r d es :
  clean fs b rel (Dir r d es) = if r then clean_entries fs b rel es else false.
Proof. destruct r; reflexivity. Qed.

Lemma stack_weight_app fs s1 s2 :
  stack_weight fs (s1 ++ s2) = (stack_weight fs s1 + stack_weight fs s2)%nat.
Proof. unfold stack_weight. rewrite map_app, list_sum_app. reflexivity. Qed.

Lemma forallb_frame_clean_app fs b s1 s2 :
  forallb (frame_clean fs b) (s1 ++ s2) =
  forallb (frame_clean fs b) s1 && forallb (frame_clean fs b) s2.
Proof. apply forallb_app. Qed.

(** The loop over the entries of one directory: it returns with
    [hasExtra: true] exactly when an entry of the directory itself is extra, and
    otherwise pushes the sub-directories that are not ignored. *)
Lemma visitEntries_spec fs b cur r d es :
  lookup fs (absPath cur) = Some (Dir r d es) ->
  forall l stack,
  (forall e, In e l -> find_entry (fst e) es = Some (snd e)) ->
  match visitEntries fs b cur (map dirent_of l) stack with
  | Return res =>
      hasExtra res = true /\ clean_entries fs b (relPath cur) l = false
  | Finished stack' =>
      exists pushed,
        stack' = pushed ++ stack /\
        clean_entries fs b (relPath cur) l = forallb (frame_clean fs b) pushed /\
        (stack_weight fs pushed <= list_sum (map (fun e => node_size (snd e)) l))%nat
  end.
Proof.
  intros Hcur. induction l as [|[nm c] l IH]; intros stack Hfind.
  - simpl. exists []. repeat split; simpl; auto.
  - assert (Hl : forall e, In e l -> find_entry (fst e) es = Some (snd e))
      by (intros; apply Hfind; now right).
    pose proof (Hfind (nm, c) (or_introl eq_refl)) as Hc. cbn [fst snd] in Hc.
    cbn [map visitEntries]. unfold visitEntry. cbn [dirent_of name dkind fst snd].
    cbn [clean_entries].
    destruct (ignored nm) eqn:Hign.
    { specialize (IH stack Hl).
      destruct (visitEntries fs b cur (map dirent_of l) stack) as [stack'|res].
      - destruct IH as (pushed & -> & Hclean & Hw). exists pushed.
        repeat split; [exact Hclean|]. cbn [map]. rewrite ?list_sum_cons. lia.
      - destruct IH as [? Hclean]. split; [done|]. now rewrite Hclean, andb_false_r. }
    cbn [orb].
    destruct c as [sz|r' d' es'|t]; cbn [kind_of].
    + (* a regular file *)
      assert (Hstat : stat fs (absPath cur ++ [nm]) = Some (mkStats false sz))
        by (rewrite (stat_snoc fs _ r d es nm (File sz) Hcur Hc); reflexivity).
      assert (Hgoal : forall P : Prop,
        P ->
        match visitEntries fs b cur (map dirent_of l) stack with
        | Return res => hasExtra res = true /\ clean_entries fs b (relPath cur) l = false
        | Finished stack' => exists pushed, stack' = pushed ++ stack /\
            clean_entries fs b (relPath cur) l = forallb (frame_clean fs b) pushed /\
            (stack_weight fs pushed <= list_sum (map (fun e => node_size (snd e)) ((nm, File sz) :: l)))%nat
        end).
      { intros _ _. specialize (IH stack Hl).
        destruct (visitEntries fs b cur (map dirent_of l) stack) as [stack'|res]; [|exact IH].
        destruct IH as (pushed & -> & Hclean & Hw). exists pushed.
        repeat split; [exact Hclean|]. cbn [map]. rewrite ?list_sum_cons. lia. }
      unfold matchesBaseline.
      destruct b as [bp|]; [|now split].
      unfold existsSync.
      destruct (stat fs (bp ++ relPath cur ++ [nm])) as [bs|] eqn:Hbs; cbn [negb]; [|now split].
      rewrite Hstat. cbn [size].
      destruct (sz =? size bs) eqn:Heq; cbn [negb andb]; [|now split].
      apply (Hgoal True I).
    + (* a directory *)
      set (f := mkFrame (absPath cur ++ [nm]) (relPath cur ++ [nm])).
      specialize (IH (f :: stack) Hl).
      assert (Hf : lookup fs (absPath f) = Some (Dir r' d' es'))
        by (unfold f; cbn [absPath]; now rewrite lookup_snoc, Hcur).
      destruct (visitEntries fs b cur (map dirent_of l) (f :: stack)) as [stack'|res].
      * destruct IH as (pushed & -> & Hclean & Hw). exists (pushed ++ [f]).
        split; [now rewrite <- app_assoc|]. split.
        -- assert (Hfc : frame_clean fs b f
                          = clean fs b (relPath cur ++ [nm]) (Dir r' d' es'))
             by (unfold frame_clean; rewrite Hf; reflexivity).
           rewrite forallb_frame_clean_app, Hclean. cbn [forallb].
           rewrite Hfc, andb_true_r. apply andb_comm.
        -- assert (Hfw : stack_weight fs [f] = node_size (Dir r' d' es')).
           { unfold stack_weight, frame_weight. cbn [map]. rewrite Hf.
             rewrite list_sum_cons. cbn [list_sum fold_right]. lia. }
           rewrite stack_weight_app, Hfw. cbn [map snd]. rewrite list_sum_cons. lia.
      * destruct IH as [? Hclean]. split; [done|]. now rewrite Hclean, andb_false_r.
    + now split.
Qed.

Lemma walk_spec fuel : forall fs b stack,
  wf_node fs = true ->
  (stack_weight fs stack < fuel)%nat ->
  exists o, walk fuel fs b stack = Some o /\
            reportsExtra o = negb (forallb (frame_clean fs b) stack) /\
            (reportsExtra o = false -> o = Returned noExtra).
Proof.
  induction fuel as [|fuel IH]; intros fs b stack Hwf Hfuel; [lia|].
  destruct stack as [|cur stack]; cbn [walk].
  { exists (Returned noExtra). repeat split. }
  unfold readdirTypes. cbn [forallb]. unfold frame_clean at 1.
  unfold stack_weight in Hfuel. cbn [map] in Hfuel. rewrite ?list_sum_cons in Hfuel. unfold frame_weight at 1 in Hfuel.
  destruct (lookup fs (absPath cur)) as [[sz|r d es|t]|] eqn:Hcur;
    try (exists Thrown; repeat split; discriminate).
  destruct r; [|exists Thrown; repeat split; discriminate].
  assert (Hwfn := wf_node_lookup _ _ _ Hwf Hcur).
  assert (Hd : distinct (map fst es) = true).
  { simpl in Hwfn. now apply andb_true_iff in Hwfn as [? _]. }
  pose proof (visitEntries_spec fs b cur true d es Hcur es stack) as Hloop.
  rewrite clean_Dir.
  destruct (visitEntries fs b cur (map dirent_of es) stack) as [stack'|res].
  - destruct Hloop as (pushed & -> & Hclean & Hw).
    { intros [nm c] Hin. now apply find_entry_distinct. }
    destruct (IH fs b (pushed ++ stack) Hwf) as (o & Ho & Hextra & Hno).
    { rewrite stack_weight_app. fold (stack_weight fs stack) in Hfuel.
      change (node_size (Dir true d es))
        with (S (list_sum (map (fun e => node_size (snd e)) es))) in Hfuel. lia. }
    exists o. split; [exact Ho|]. split; [|exact Hno].
    rewrite Hextra, forallb_frame_clean_app, Hclean. reflexivity.
  - destruct Hloop as [Hres Hclean].
    { intros [nm c] Hin. now apply find_entry_distinct. }
    exists (Returned res). split; [reflexivity|]. cbn [reportsExtra]. split.
    + now rewrite Hres, Hclean.
    + congruence.
Qed.

(** [dirHasExtraContent] always answers, and [hasExtra] is [holdsExtra]. *)
Lemma dirHasExtraContent_spec fs userDir b :
  wf_node fs = true ->
  exists res, dirHasExtraContent fs userDir b = Some res /\
              hasExtra res = holdsExtra fs userDir b /\
              (hasExtra res = false -> res = noExtra).
Proof.
  intros Hwf. unfold dirHasExtraContent, holdsExtra.
  destruct userDir as [dir|]; [|exists noExtra; repeat split].
  destruct (existsSync fs dir) eqn:Hex; cbn [negb andb]; [|exists noExtra; repeat split].
  destruct (walk_spec (S (node_size fs)) fs b [mkFrame dir []] Hwf) as (o & Ho & Hextra & Hno).
  { unfold stack_weight, frame_weight. cbn [map absPath]. rewrite list_sum_cons.
    change (list_sum []) with 0%nat.
    destruct (lookup fs dir) eqn:E; [|lia]. apply lookup_node_size in E. lia. }
  rewrite Ho. cbn [forallb] in Hextra. unfold frame_clean in Hextra.
  cbn [absPath relPath] in Hextra. rewrite andb_true_r in Hextra.
  destruct o as [res|].
  - exists res. split; [reflexivity|]. split; [exact Hextra|].
    intros Hf. specialize (Hno Hf). congruence.
  - exists unknownExtra. split; [reflexivity|]. split; [exact Hextra|]. discriminate.
Qed.

Lemma categoryResult_total fs ud bd key :
  wf_node fs = true ->
  exists r, categoryResult fs ud bd key = Some r.
Proof.
  intros Hwf. destruct (dirHasExtraContent_spec fs (ud ≫= (fun d => d !! key))
    (bd ≫= (fun d => d !! key)) Hwf) as (r & Hr & _). now exists r.
Qed.

Lemma checkKeys_spec fs ud bd :
  wf_node fs = true -> forall keys details0,
  exists res, checkKeys fs ud bd keys details0 = Some res /\
    ((isUnused res = true /\ Forall (reportsNoExtra fs ud bd) keys /\
      forall k, details res !! k =
                if decide (k ∈ keys) then categoryResult fs ud bd k else details0 !! k)
     \/
     (isUnused res = false /\
      exists pre key post r,
        keys = pre ++ key :: post /\ Forall (reportsNoExtra fs ud bd) pre /\
        categoryResult fs ud bd key = Some r /\ hasExtra r = true /\
        forall k, details res !! k =
                  if decide (k ∈ pre ++ [key]) then categoryResult fs ud bd k
                  else details0 !! k)).
Proof.
  intros Hwf. induction keys as [|key keys IH]; intros details0.
  - exists (mkUnusedCheck true details0). split; [reflexivity|]. left.
    split; [reflexivity|]. split; [constructor|].
    intros k. cbn [details]. case_decide as Hk; [|reflexivity]. now apply elem_of_nil in Hk.
  - cbn [checkKeys]. fold (categoryResult fs ud bd key).
    destruct (categoryResult_total fs ud bd key Hwf) as (r & Hr). rewrite Hr.
    destruct (hasExtra r) eqn:Hextra.
    + eexists. split; [reflexivity|]. right. split; [reflexivity|].
      exists [], key, keys, r. repeat split; [constructor|assumption..|].
      intros k. cbn [details app]. case_decide as Hk.
      * apply list_elem_of_singleton in Hk as ->. now rewrite lookup_insert_eq.
      * rewrite lookup_insert_ne; [reflexivity|]. intros ->. apply Hk. now left.
    + destruct (IH (<[key:=r]> details0)) as (res & Hres & Hcases).
      exists res. split; [exact Hres|].
      assert (Hkey : reportsNoExtra fs ud bd key) by now exists r.
      destruct Hcases as [(Hu & Hall & Hd)|(Hu & pre & key' & post & r' & -> & Hall & Hr' & Hx & Hd)].
      * left. split; [exact Hu|]. split; [now constructor|].
        intros k. rewrite Hd.
        destruct (decide (k = key)) as [->|Hne]; repeat case_decide;
          rewrite ?lookup_insert_eq, ?lookup_insert_ne by congruence;
          try congruence; exfalso; set_solver.
      * right. split; [exact Hu|].
        exists (key :: pre), key', post, r'. repeat split; [now constructor|assumption..|].
        intros k. rewrite Hd. cbn [app].
        destruct (decide (k = key)) as [->|Hne]; repeat case_decide;
          rewrite ?lookup_insert_eq, ?lookup_insert_ne by congruence;
          try congruence; exfalso; set_solver.
Qed.


Lemma NoDup_keysToCheck : NoDup keysToCheck.
Proof. apply (bool_decide_unpack (NoDup keysToCheck)). vm_compute. exact I. Qed.

Lemma dirHasExtraContent_throws fs userDir baselineDir :
  throws fs userDir baselineDir ->
  dirHasExtraContent fs userDir baselineDir = Some unknownExtra.
Proof.
  intros (dir & -> & Hex & Hw). unfold dirHasExtraContent. now rewrite Hex, Hw.
Qed.

(** C3: [checkUserIsUnused] answers [isUnused = true] exactly when every
    category of the checklist reports no extra content; one category that
    reports extra content gives [isUnused = false] whatever the others hold;
    and a category whose traversal throws is reported with [hasExtra = true],
    so that the answer is [isUnused = false]. *)
Theorem checkUserIsUnused_unused_iff fs ud bd :
  wf_node fs = true ->
  exists res, checkUserIsUnused fs ud bd = Some res /\
    (isUnused res = true <->
       forall key, key ∈ keysToCheck -> reportsNoExtra fs ud bd key) /\
    (forall key r, key ∈ keysToCheck ->
       categoryResult fs ud bd key = Some r -> hasExtra r = true ->
       isUnused res = false) /\
    (forall key, key ∈ keysToCheck ->
       throws fs (ud ≫= (fun d => d !! key)) (bd ≫= (fun d => d !! key)) ->
       categoryResult fs ud bd key = Some unknownExtra /\ isUnused res = false).
Proof.
  intros Hwf.
  destruct (checkKeys_spec fs ud bd Hwf keysToCheck ∅) as (res & Hres & Hcases).
  exists res. split; [exact Hres|].
  assert (Hiff : isUnused res = true <->
                 forall key, key ∈ keysToCheck -> reportsNoExtra fs ud bd key).
  { destruct Hcases as [(Hu & Hall & _)|(Hu & pre & key & post & r & Hk & _ & Hr & Hx & _)].
    - split; [|done]. intros _. now apply Forall_forall.
    - split; [congruence|]. intros Hall. exfalso.
      destruct (Hall key) as (r' & Hr' & Hx').
      + rewrite Hk. apply elem_of_app. right. now left.
      + congruence. }
  assert (Hone : forall key r, key ∈ keysToCheck ->
            categoryResult fs ud bd key = Some r -> hasExtra r = true ->
            isUnused res = false).
  { intros key r Hin Hr Hx. destruct (isUnused res) eqn:Hu; [|reflexivity].
    destruct (proj1 Hiff eq_refl key Hin) as (r' & Hr' & Hx'). congruence. }
  split; [exact Hiff|]. split; [exact Hone|].
  intros key Hin Hthrows.
  pose proof (dirHasExtraContent_throws _ _ _ Hthrows) as Hr.
  split; [exact Hr|]. now apply (Hone key unknownExtra).
Qed.

Lemma checkUserIsUnused_unused_iff_witness :
  exists res,
    checkUserIsUnused sampleFs (Some {[ "instruct" := ["u"; "instruct"] ]})
                               (Some {[ "instruct" := ["b"; "instruct"] ]}) = Some res /\
    (isUnused res = true <->
       forall key, key ∈ keysToCheck ->
         reportsNoExtra sampleFs (Some {[ "instruct" := ["u"; "instruct"] ]})
                                 (Some {[ "instruct" := ["b"; "instruct"] ]}) key) /\
    (forall key r, key ∈ keysToCheck ->
       categoryResult sampleFs (Some {[ "instruct" := ["u"; "instruct"] ]})
                               (Some {[ "instruct" := ["b"; "instruct"] ]}) key = Some r ->
       hasExtra r = true -> isUnused res = false) /\
    (forall key, key ∈ keysToCheck ->
       throws sampleFs
         ((Some {[ "instruct" := ["u"; "instruct"] ]} : option (gmap string path))
            ≫= (fun d => d !! key))
         ((Some {[ "instruct" := ["b"; "instruct"] ]} : option (gmap string path))
            ≫= (fun d => d !! key)) ->
       categoryResult sampleFs (Some {[ "instruct" := ["u"; "instruct"] ]})
                               (Some {[ "instruct" := ["b"; "instruct"] ]}) key
         = Some unknownExtra /\ isUnused res = false).
Proof.
  apply (checkUserIsUnused_unused_iff sampleFs). reflexivity.
Defined.

(** A directory that cannot be listed makes the traversal throw. *)
Example unreadable_directory_throws :
  throws sampleFs (Some ["u"; "groups"]) None /\
  (isUnused <$> checkUserIsUnused sampleFs (Some {[ "groups" := ["u"; "groups"] ]}) None)
    = Some false.
Proof.
  split; [|vm_compute; reflexivity].
  exists ["u"; "groups"]. repeat split; vm_compute; reflexivity.
Qed.


(** C10: the categories are checked in the order of the checklist and the
    check stops at the first one that reports extra content.  With
    [isUnused = false], [details] holds the results of the categories up to
    and including that first offending one, and nothing for the later ones;
    with [isUnused = true] it holds a result for every category. *)
Theorem checkUserIsUnused_details fs ud bd :
  wf_node fs = true ->
  exists res, checkUserIsUnused fs ud bd = Some res /\
    (isUnused res = false ->
       exists pre key post r,
         keysToCheck = pre ++ key :: post /\
         (forall k, k ∈ pre ->
            exists rk, details res !! k = Some rk /\
                       categoryResult fs ud bd k = Some rk /\ hasExtra rk = false) /\
         details res !! key = Some r /\
         categoryResult fs ud bd key = Some r /\ hasExtra r = true /\
         (forall k, k ∈ post -> details res !! k = None) /\
         dom (details res) = list_to_set (pre ++ [key])) /\
    (isUnused res = true ->
       (forall k, k ∈ keysToCheck ->
          exists rk, details res !! k = Some rk /\
                     categoryResult fs ud bd k = Some rk /\ hasExtra rk = false) /\
       dom (details res) = list_to_set keysToCheck).
Proof.
  intros Hwf.
  destruct (checkKeys_spec fs ud bd Hwf keysToCheck ∅) as (res & Hres & Hcases).
  exists res. split; [exact Hres|].
  destruct Hcases as [(Hu & Hall & Hd)|(Hu & pre & key & post & r & Hk & Hall & Hr & Hx & Hd)].
  - split; [congruence|]. intros _. split.
    + intros k Hin. rewrite Forall_forall in Hall.
      destruct (Hall k Hin) as (rk & Hrk & Hxk). exists rk.
      rewrite Hd, decide_True by assumption. auto.
    + apply set_eq. intros k. rewrite elem_of_dom, elem_of_list_to_set, Hd.
      case_decide as Hin.
      * split; [done|]. intros _. apply (categoryResult_total fs ud bd k Hwf).
      * rewrite lookup_empty. split; [intros [? [=]]|done].
  - split; [|congruence]. intros _. exists pre, key, post, r.
    pose proof NoDup_keysToCheck as Hnd. rewrite Hk in Hnd.
    apply NoDup_app in Hnd as (Hpre & Hdisj & Hkp).
    apply NoDup_cons in Hkp as [Hkey Hpost].
    split; [exact Hk|]. split; [|split; [|split; [exact Hr|split; [exact Hx|split]]]].
    + intros k Hin. rewrite Forall_forall in Hall.
      destruct (Hall k Hin) as (rk & Hrk & Hxk). exists rk.
      rewrite Hd, decide_True; [auto|]. apply elem_of_app. now left.
    + rewrite Hd, decide_True; [exact Hr|]. apply elem_of_app. right. now left.
    + intros k Hin. rewrite Hd, decide_False; [apply lookup_empty|].
      intros Hin'. apply elem_of_app in Hin' as [Hin'|Hin'].
      * apply (Hdisj k Hin'). now right.
      * apply list_elem_of_singleton in Hin' as ->. contradiction.
    + apply set_eq. intros k. rewrite elem_of_dom, elem_of_list_to_set, Hd.
      case_decide as Hin.
      * split; [done|]. intros _. apply (categoryResult_total fs ud bd k Hwf).
      * rewrite lookup_empty. split; [intros [? [=]]|done].
Qed.

Lemma checkUserIsUnused_details_witness :
  exists res,
    checkUserIsUnused sampleFs (Some {[ "worlds" := ["u"; "worlds"] ]})
                               (Some {[ "worlds" := ["b"; "worlds"] ]}) = Some res /\
    (isUnused res = false ->
       exists pre key post r,
         keysToCheck = pre ++ key :: post /\
         (forall k, k ∈ pre ->
            exists rk, details res !! k = Some rk /\
                       categoryResult sampleFs (Some {[ "worlds" := ["u"; "worlds"] ]})
                         (Some {[ "worlds" := ["b"; "worlds"] ]}) k = Some rk /\
                       hasExtra rk = false) /\
         details res !! key = Some r /\
         categoryResult sampleFs (Some {[ "worlds" := ["u"; "worlds"] ]})
           (Some {[ "worlds" := ["b"; "worlds"] ]}) key = Some r /\
         hasExtra r = true /\
         (forall k, k ∈ post -> details res !! k = None) /\
         dom (details res) = list_to_set (pre ++ [key])) /\
    (isUnused res = true ->
       (forall k, k ∈ keysToCheck ->
          exists rk, details res !! k = Some rk /\
                     categoryResult sampleFs (Some {[ "worlds" := ["u"; "worlds"] ]})
                       (Some {[ "worlds" := ["b"; "worlds"] ]}) k = Some rk /\
                     hasExtra rk = false) /\
       dom (details res) = list_to_set keysToCheck).
Proof.
  apply (checkUserIsUnused_details sampleFs). reflexivity.
Defined.

(** The first offending category of the sample user is the fourth of the
    checklist: three results without extra content, then the offending one. *)
Example checkUserIsUnused_details_sample :
  (fun res => (isUnused res,
               (fun k => hasExtra <$> details res !! k) <$>
                 ["chats"; "groupChats"; "characters"; "worlds"; "groups"; "textGen_Settings"]))
    <$> checkUserIsUnused sampleFs (Some {[ "worlds" := ["u"; "worlds"] ]})
                                   (Some {[ "worlds" := ["b"; "worlds"] ]})
  = Some (false, [Some false; Some false; Some false; Some true; None; None]).
Proof. vm_compute. reflexivity. Qed.


(** C4: how one entry met during the walk is classified, once ignored names
    are filtered out.  Directories are what the walk descends into.  An entry
    that is neither a directory nor a regular file is extra unconditionally; a
    regular file is extra when no baseline directory is given, when its
    relative path does not exist below the baseline, or when the two sizes
    differ, and is accepted when the path exists below the baseline with the
    same size.  An extra entry ends the function with [hasExtra: true] and
    the entry's relative path; an accepted one lets the loop go on.  As a
    whole, [dirHasExtraContent] answers [hasExtra = holdsExtra]: the
    directory exists and some walked entry is extra or some walked directory
    cannot be listed. *)
Theorem dirHasExtraContent_classification fs baselineDir :
  wf_node fs = true ->
  (forall current entry,
     ignored (name entry) = false ->
     let entryAbsPath := absPath current ++ [name entry] in
     let entryRelPath := relPath current ++ [name entry] in
     (dkind entry = KDirectory ->
        visitEntry fs baselineDir current entry
          = Descend (mkFrame entryAbsPath entryRelPath)) /\
     (dkind entry = KOther ->
        visitEntry fs baselineDir current entry = Extra entryRelPath) /\
     (dkind entry = KFile -> baselineDir = None ->
        visitEntry fs baselineDir current entry = Extra entryRelPath) /\
     (forall baseline, dkind entry = KFile -> baselineDir = Some baseline ->
        existsSync fs (baseline ++ entryRelPath) = false ->
        visitEntry fs baselineDir current entry = Extra entryRelPath) /\
     (forall baseline userStat baseStat,
        dkind entry = KFile -> baselineDir = Some baseline ->
        stat fs entryAbsPath = Some userStat ->
        stat fs (baseline ++ entryRelPath) = Some baseStat ->
        (size userStat <> size baseStat ->
           visitEntry fs baselineDir current entry = Extra entryRelPath) /\
        (size userStat = size baseStat ->
           visitEntry fs baselineDir current entry = Same))) /\
  (forall current entry rest stack,
     (forall entryRelPath,
        visitEntry fs baselineDir current entry = Extra entryRelPath ->
        visitEntries fs baselineDir current (entry :: rest) stack
          = Return (extra entryRelPath)) /\
     (visitEntry fs baselineDir current entry = Same ->
        visitEntries fs baselineDir current (entry :: rest) stack
          = visitEntries fs baselineDir current rest stack)) /\
  (forall fuel current entries stack r,
     readdirTypes fs (absPath current) = Some entries ->
     visitEntries fs baselineDir current entries stack = Return r ->
     walk (S fuel) fs baselineDir (current :: stack) = Some (Returned r)) /\
  (forall userDir,
     exists res, dirHasExtraContent fs userDir baselineDir = Some res /\
                 hasExtra res = holdsExtra fs userDir baselineDir).
Proof.
  intros Hwf. split; [|split; [|split]].
  - intros current entry Hign entryAbsPath entryRelPath.
    unfold visitEntry. rewrite Hign. fold entryAbsPath entryRelPath.
    split; [now intros ->|]. split; [now intros ->|].
    split; [now intros -> ->|]. split.
    + intros baseline -> -> Hex. now rewrite Hex.
    + intros baseline userStat baseStat -> -> Hu Hb.
      unfold existsSync. rewrite Hb, Hu. cbn [negb]. split.
      * intros Hne.
        destruct (Z.eqb_spec (size userStat) (size baseStat)); [contradiction|reflexivity].
      * intros Heq. now rewrite Heq, Z.eqb_refl.
  - intros current entry rest stack. split.
    + intros entryRelPath Hv. cbn [visitEntries]. now rewrite Hv.
    + intros Hv. cbn [visitEntries]. now rewrite Hv.
  - intros fuel current entries stack r Hread Hret. cbn [walk].
    now rewrite Hread, Hret.
  - intros userDir.
    destruct (dirHasExtraContent_spec fs userDir baselineDir Hwf) as (res & Hres & Hx & _).
    now exists res.
Qed.

Lemma dirHasExtraContent_classification_witness :
  wf_node sampleFs = true /\
  exists res,
    dirHasExtraContent sampleFs (Some ["u"; "worlds"]) (Some ["b"; "worlds"]) = Some res /\
    hasExtra res = holdsExtra sampleFs (Some ["u"; "worlds"]) (Some ["b"; "worlds"]).
Proof.
  split; [reflexivity|].
  apply (dirHasExtraContent_classification sampleFs (Some ["b"; "worlds"]) eq_refl).
Defined.

(** The scenarios of the unit tests: an extra chat without baseline, a preset
    equal in path and size to the baseline's (an ignored name and an empty
    sub-directory beside it), a world file of another size, a dangling link. *)
Example dirHasExtraContent_samples :
  dirHasExtraContent sampleFs (Some ["u"; "chats"]) None = Some (extra ["chat1.json"]) /\
  dirHasExtraContent sampleFs (Some ["u"; "instruct"]) (Some ["b"; "instruct"]) = Some noExtra /\
  dirHasExtraContent sampleFs (Some ["u"; "worlds"]) (Some ["b"; "worlds"])
    = Some (extra ["wi.json"]) /\
  dirHasExtraContent sampleFs (Some ["u"; "files"]) (Some ["b"; "files"])
    = Some (extra ["link"]) /\
  dirHasExtraContent sampleFs (Some ["u"; "missing"]) None = Some noExtra.
Proof. repeat split; vm_compute; reflexivity. Qed.

End AuditFacts.

(** ** The scan *)

Module ScanFacts.
Import Fs FsFacts Js Json Users DirectorySize DirectorySizeFacts Audit AuditFacts.
Import UsersAdmin Statements.

(** What a user that becomes a candidate went through. *)
Lemma scanUser_candidate env criteria baseline w user c :
  scanUser env criteria baseline w user = Some (Some c) ->
  cand_handle c = handle user /\
  handle user <> callerHandle env /\
  handle user <> DEFAULT_USER_handle env /\
  admin user = false /\
  (excludeActiveSubscriptions criteria = true ->
     hasActiveSubscriptionAt (now env) user = false) /\
  cand_lastActivity c = lastActivityTimeOf (loadStats w !! handle user) user /\
  now env - cand_lastActivity c > inactiveThreshold criteria.
Proof.
  unfold scanUser.
  destruct (String.eqb_spec (handle user) (callerHandle env)) as [|Hc]; [discriminate|].
  destruct (String.eqb_spec (handle user) (DEFAULT_USER_handle env)) as [|Hd]; [discriminate|].
  destruct (admin user) eqn:Ha; [discriminate|].
  destruct (excludeActiveSubscriptions criteria && hasActiveSubscriptionAt (now env) user)
    eqn:Hsub; [discriminate|].
  destruct (now env - lastActivityTimeOf (loadStats w !! handle user) user
            >? inactiveThreshold criteria) eqn:Hgt; [|discriminate].
  cbn [negb].
  assert (Hsub' : excludeActiveSubscriptions criteria = true ->
                  hasActiveSubscriptionAt (now env) user = false).
  { intros He. now rewrite He in Hsub. }
  apply Z.gtb_lt in Hgt.
  destruct (storageSizeOf w (getUserDirectories env (handle user))) as [sz|]; [|discriminate].
  destruct (match maxStorageBytes criteria with Some cap => sz >? cap | None => false end);
    [discriminate|].
  destruct (requireUnused criteria).
  - destruct (checkUserIsUnused _ _ _) as [chk|]; [|discriminate].
    destruct (isUnused chk); [|discriminate].
    intros [= <-]. cbn. repeat split; auto. lia.
  - intros [= <-]. cbn. repeat split; auto. lia.
Qed.

(** A user whose last activity is not older than the threshold is skipped. *)
Lemma scanUser_recent env criteria baseline w user :
  now env - lastActivityTimeOf (loadStats w !! handle user) user
    <= inactiveThreshold criteria ->
  scanUser env criteria baseline w user = Some None.
Proof.
  intros Hle. unfold scanUser.
  destruct (String.eqb _ _); [reflexivity|].
  destruct (String.eqb _ _); [reflexivity|].
  destruct (admin user); [reflexivity|].
  destruct (_ && _); [reflexivity|].
  destruct (Z.gtb_spec (now env - lastActivityTimeOf (loadStats w !! handle user) user)
                       (inactiveThreshold criteria)); [lia|reflexivity].
Qed.

Lemma scanUser_protected env criteria baseline w user :
  protected env user ->
  scanUser env criteria baseline w user = Some None.
Proof.
  intros Hp. unfold scanUser.
  destruct (String.eqb_spec (handle user) (callerHandle env)); [reflexivity|].
  destruct (String.eqb_spec (handle user) (DEFAULT_USER_handle env)); [reflexivity|].
  destruct (admin user) eqn:Ha; [reflexivity|].
  destruct Hp as [?|[?|?]]; congruence.
Qed.

Lemma storageSizeOf_total w directories :
  wf_node (fs w) = true -> exists sz, storageSizeOf w directories = Some sz.
Proof.
  intros Hwf. unfold storageSizeOf. destruct (rootOf directories) as [root|]; [|eauto].
  rewrite calculateDirectorySize_counted by assumption. eauto.
Qed.

Lemma scanUser_total env criteria baseline w user :
  wf_node (fs w) = true ->
  exists r, scanUser env criteria baseline w user = Some r.
Proof.
  intros Hwf. unfold scanUser.
  repeat (match goal with |- context [if ?b then _ else _] => destruct b end; eauto).
  all: destruct (storageSizeOf_total w (getUserDirectories env (handle user)) Hwf) as (sz & ->).
  all: repeat (match goal with |- context [if ?b then _ else _] => destruct b end; eauto).
  all: destruct (checkKeys_spec (fs w) (Some (getUserDirectories env (handle user)))
                    baseline Hwf keysToCheck ∅) as (chk & Hchk & _).
  all: unfold checkUserIsUnused; rewrite Hchk.
  all: destruct (isUnused chk); cbn; eauto.
Qed.

(** The candidates of the loop are, in order, those of the users that were
    not skipped. *)
Lemma scanUsers_spec env criteria baseline w us : forall cands0 total0 cands total,
  scanUsers env criteria baseline w us cands0 total0 = Some (cands, total) ->
  exists new,
    cands = cands0 ++ new /\
    (forall c, In c new ->
       exists u, In u us /\ scanUser env criteria baseline w u = Some (Some c)).
Proof.
  induction us as [|u us IH]; intros cands0 total0 cands total; cbn [scanUsers].
  - intros [= <- <-]. exists []. split; [now rewrite app_nil_r|]. intros c [].
  - destruct (scanUser env criteria baseline w u) as [[c|]|] eqn:Hu; [| |discriminate].
    + intros H. apply IH in H as (new & -> & Hnew).
      exists (c :: new). split; [now rewrite <- app_assoc|].
      intros c' [<-|Hin].
      * exists u. split; [now left|exact Hu].
      * destruct (Hnew c' Hin) as (u' & Hu' & Hs). exists u'. split; [now right|exact Hs].
    + intros H. apply IH in H as (new & -> & Hnew).
      exists new. split; [reflexivity|].
      intros c' Hin. destruct (Hnew c' Hin) as (u' & Hu' & Hs).
      exists u'. split; [now right|exact Hs].
Qed.

Lemma scanUsers_total env criteria baseline w us : forall cands0 total0,
  wf_node (fs w) = true ->
  exists r, scanUsers env criteria baseline w us cands0 total0 = Some r.
Proof.
  induction us as [|u us IH]; intros cands0 total0 Hwf; cbn [scanUsers]; [eauto|].
  destruct (scanUser_total env criteria baseline w u Hwf) as ([c|] & ->); apply IH; assumption.
Qed.

Lemma scan_total env criteria w :
  wf_node (fs w) = true -> exists cands total, scan env criteria w = Some (cands, total).
Proof.
  intros Hwf. destruct (scanUsers_total env criteria (baselineDirectories env) w
                          (storageValues w) [] 0 Hwf) as ([cands total] & H).
  now exists cands, total.
Qed.

Lemma scan_candidates env criteria w cands total :
  scan env criteria w = Some (cands, total) ->
  forall c, In c cands ->
    exists u, In u (storageValues w) /\
      scanUser env criteria (baselineDirectories env) w u = Some (Some c).
Proof.
  intros H. apply scanUsers_spec in H as (new & -> & Hnew). exact Hnew.
Qed.

Lemma storageValues_lookup w u :
  In u (storageValues w) <-> exists k, users w !! k = Some u.
Proof.
  unfold storageValues. rewrite in_map_iff. split.
  - intros ([k u'] & <- & Hin). exists k.
    apply list_elem_of_In, elem_of_map_to_list in Hin. exact Hin.
  - intros (k & Hk). exists (k, u). split; [reflexivity|].
    apply list_elem_of_In, elem_of_map_to_list. exact Hk.
Qed.

(** In a consistent store a handle names one record. *)
Lemma storageValues_handle_inj w u u' :
  store_consistent w ->
  In u (storageValues w) -> In u' (storageValues w) ->
  handle u = handle u' -> u = u'.
Proof.
  intros Hc Hu Hu' Hh.
  apply storageValues_lookup in Hu as (k & Hk).
  apply storageValues_lookup in Hu' as (k' & Hk').
  pose proof (Hc _ _ Hk) as E. pose proof (Hc _ _ Hk') as E'.
  assert (k = k') by congruence. subst k'. congruence.
Qed.

(** A user the loop skips is not among the candidates. *)
Lemma scan_skipped env criteria w cands total u :
  store_consistent w ->
  scan env criteria w = Some (cands, total) ->
  In u (storageValues w) ->
  scanUser env criteria (baselineDirectories env) w u = Some None ->
  ~ In (handle u) (map cand_handle cands).
Proof.
  intros Hc Hscan Hu Hskip Hin.
  apply in_map_iff in Hin as (c & Hh & Hin).
  destruct (scan_candidates _ _ _ _ _ Hscan c Hin) as (u' & Hu' & Hs).
  pose proof (scanUser_candidate _ _ _ _ _ _ Hs) as (Hh' & _).
  assert (u' = u) by (apply (storageValues_handle_inj w); [assumption..|congruence]).
  subst u'. congruence.
Qed.


Lemma store_consistentb_spec w :
  store_consistentb w = true -> store_consistent w.
Proof.
  unfold store_consistentb. rewrite forallb_forall. intros H k u Hk.
  specialize (H (k, u)). cbn in H. apply String.eqb_eq, H.
  apply list_elem_of_In, elem_of_map_to_list. exact Hk.
Qed.

(** C6, as amended: the last-activity time of a user is the heartbeat when the
    statistics record a last activity and a heartbeat, the recorded last
    activity when they record one without a heartbeat, and the creation time
    (0 when the record has none) when there are no statistics or no recorded
    last activity; every candidate carries that time and is older than
    [inactiveDays] days by it, and a user for whom the elapsed time does not
    strictly exceed [inactiveDays] in milliseconds is not a candidate. *)
Theorem scan_lastActivity env criteria w cands total :
  store_consistent w ->
  scan env criteria w = Some (cands, total) ->
  (forall st user,
     (forall activity heartbeat,
        truthyTime (lastActivity st) = Some activity ->
        truthyTime (lastHeartbeat st) = Some heartbeat ->
        lastActivityTimeOf (Some st) user = heartbeat) /\
     (forall activity,
        truthyTime (lastActivity st) = Some activity ->
        truthyTime (lastHeartbeat st) = None ->
        lastActivityTimeOf (Some st) user = activity) /\
     (truthyTime (lastActivity st) = None ->
        lastActivityTimeOf (Some st) user = default 0 (created user)) /\
     lastActivityTimeOf None user = default 0 (created user)) /\
  (forall c, In c cands ->
     exists u, In u (storageValues w) /\ cand_handle c = handle u /\
       cand_lastActivity c = lastActivityTimeOf (loadStats w !! handle u) u /\
       now env - cand_lastActivity c > inactiveDays criteria * 24 * 60 * 60 * 1000) /\
  (forall u, In u (storageValues w) ->
     now env - lastActivityTimeOf (loadStats w !! handle u) u
       <= inactiveDays criteria * 24 * 60 * 60 * 1000 ->
     ~ In (handle u) (map cand_handle cands)).
Proof.
  intros Hc Hscan. split; [|split].
  - intros st user. unfold lastActivityTimeOf. repeat split.
    + now intros a h -> ->.
    + now intros a -> ->.
    + now intros ->.
  - intros c Hin. destruct (scan_candidates _ _ _ _ _ Hscan c Hin) as (u & Hu & Hs).
    apply scanUser_candidate in Hs as (Hh & _ & _ & _ & _ & Hl & Hgt).
    exists u. repeat split; assumption.
  - intros u Hu Hle. apply (scan_skipped env criteria w cands total u Hc Hscan Hu).
    now apply scanUser_recent.
Qed.

Lemma scan_lastActivity_witness :
  store_consistent Sample.world /\
  (fst <$> scan Sample.env Sample.criteria Sample.world)
    = Some [mkCandidate "carol" "Carol" Sample.day 99 7 true None false (Some true)] /\
  ~ In "gina" (map cand_handle
                 [mkCandidate "carol" "Carol" Sample.day 99 7 true None false (Some true)]).
Proof.
  assert (Hc : store_consistent Sample.world)
    by (apply store_consistentb_spec; vm_compute; reflexivity).
  assert (Hs : scan Sample.env Sample.criteria Sample.world
               = Some ([mkCandidate "carol" "Carol" Sample.day 99 7 true None false
                          (Some true)], 7))
    by (vm_compute; reflexivity).
  split; [exact Hc|]. split; [now rewrite Hs|].
  apply (proj2 (proj2 (scan_lastActivity Sample.env Sample.criteria Sample.world _ _ Hc Hs))
           (mkUser "gina" "Gina" (Some (90 * Sample.day)) false true None None)).
  - apply (proj2 (storageValues_lookup _ _)). exists "gina". vm_compute. reflexivity.
  - clear Hc Hs. vm_compute. intros H. discriminate H.
Defined.

(** C6, as the claim words it, fails: [frank] has a heartbeat of today and no
    recorded last activity; the claimed last-activity time is that heartbeat,
    the code takes the creation time, 99 days back, and the scan lists
    [frank] as inactive for 60 days. *)
Lemma scan_lastActivity_counterexample :
  let stats := mkUserStats None (Some (100 * Sample.day)) in
  claimedLastActivityTime (Some stats) Sample.frank = 100 * Sample.day /\
  lastActivityTimeOf (Some stats) Sample.frank = Sample.day /\
  now Sample.env - claimedLastActivityTime (Some stats) Sample.frank
    <= inactiveDays Sample.criteria * 24 * 60 * 60 * 1000 /\
  (map cand_handle ∘ fst <$>
     scan Sample.env (mkCriteria 60 false None true) Sample.worldWithFrank)
    = Some ["carol"; "frank"].
Proof. vm_compute. repeat split; discriminate. Qed.


(** C1: a protected account (the caller's, the default account, an admin) is
    never a candidate of the scan; and when the execution pass re-fetches the
    live record of a candidate and finds it protected, it records the failure
    [Protected user cannot be deleted] and changes nothing: no account
    record, avatar record or directory is removed.  The live world [w'] is
    arbitrary: it need not be the world the scan saw. *)
Theorem protected_never_deleted env criteria w cands total :
  store_consistent w ->
  scan env criteria w = Some (cands, total) ->
  (forall u, In u (storageValues w) -> protected env u ->
     ~ In (handle u) (map cand_handle cands)) /\
  (forall w' c u,
     store_consistent w' ->
     getItem_error env (cand_handle c) = None ->
     users w' !! cand_handle c = Some u ->
     protected env u ->
     deleteCandidate env criteria c w'
       = (failure c "Protected user cannot be deleted" None None, w')).
Proof.
  intros Hc Hscan. split.
  - intros u Hu Hp. apply (scan_skipped env criteria w cands total u Hc Hscan Hu).
    now apply scanUser_protected.
  - intros w' c u Hc' Hget Hu Hp. unfold deleteCandidate, getItem.
    rewrite Hget, Hu. pose proof (Hc' _ _ Hu) as Hh. rewrite <- Hh.
    destruct Hp as [Hp|[Hp|Hp]].
    + rewrite Hp, String.eqb_refl. reflexivity.
    + rewrite Hp, String.eqb_refl, orb_true_r. reflexivity.
    + rewrite Hp, !orb_true_r. reflexivity.
Qed.

Lemma protected_never_deleted_witness :
  store_consistent Sample.world /\
  ~ In "erin" (map cand_handle
                 [mkCandidate "carol" "Carol" Sample.day 99 7 true None false (Some true)]) /\
  deleteCandidate Sample.env Sample.criteria
      (mkCandidate "erin" "Erin" Sample.day 99 0 false None false None) Sample.world
    = (failure (mkCandidate "erin" "Erin" Sample.day 99 0 false None false None)
         "Protected user cannot be deleted" None None, Sample.world).
Proof.
  assert (Hc : store_consistent Sample.world)
    by (apply store_consistentb_spec; vm_compute; reflexivity).
  assert (Hs : scan Sample.env Sample.criteria Sample.world
               = Some ([mkCandidate "carol" "Carol" Sample.day 99 7 true None false
                          (Some true)], 7))
    by (vm_compute; reflexivity).
  destruct (protected_never_deleted Sample.env Sample.criteria Sample.world _ _ Hc Hs)
    as [Hscan Hexec].
  split; [exact Hc|]. split.
  - apply (Hscan (mkUser "erin" "Erin" (Some Sample.day) true true None None)).
    + apply (proj2 (storageValues_lookup _ _)). exists "erin". vm_compute. reflexivity.
    + right. right. reflexivity.
  - apply (Hexec Sample.world _
             (mkUser "erin" "Erin" (Some Sample.day) true true None None) Hc).
    + reflexivity.
    + vm_compute. reflexivity.
    + right. right. reflexivity.
Defined.

End ScanFacts.

(** ** The execution pass *)

Module ExecFacts.
Import Fs FsFacts Js Json Users DirectorySize DirectorySizeFacts Audit AuditFacts.
Import UsersAdmin Statements ScanFacts.

(** The entry of a candidate names that candidate, and is well formed. *)
Lemma deleteCandidate_entry env criteria c w :
  res_handle (fst (deleteCandidate env criteria c w)) = cand_handle c /\
  res_name (fst (deleteCandidate env criteria c w)) = cand_name c /\
  wellFormedResult (fst (deleteCandidate env criteria c w)).
Proof.
  unfold deleteCandidate, wellFormedResult.
  destruct (getItem env (cand_handle c) w) as [[[user|]|msg] w1]; cbn.
  2,3: repeat split; right; split; eauto.
  destruct (_ || _ || _); cbn; [repeat split; right; split; eauto|].
  destruct (_ && _); cbn; [repeat split; right; split; eauto|].
  destruct (notify env user c) as [[emailNotified emailError]|msg]; cbn;
    [|repeat split; right; split; eauto].
  destruct (removeCandidate env c w1) as [[[]|msg] w2]; cbn.
  - repeat split. left. split; reflexivity.
  - repeat split; right; split; eauto.
Qed.


(** The part of the handler after the scan, for a request that is not a dry
    run. *)
Lemma deleteInactiveUsers_execute rt env body w criteria cands total :
  parseCriteria rt body = inr criteria ->
  scan env criteria w = Some (cands, total) ->
  body_dryRun body <> Bool true ->
  deleteInactiveUsers rt env body w =
  let previewId := previewIdOf rt criteria (map cand_handle cands) in
  let confirmCount := toNumber rt (body_confirmCount body) in
  match body_previewId body with
  | Str requestPreviewId =>
      if (String.length requestPreviewId <? 8)%nat then
        Some (Rejected 400 MissingPreviewId, w)
      else if negb (isFinite confirmCount) || negb (isInteger confirmCount)
              || lt confirmCount 0 then
        Some (Rejected 400 MissingConfirmCount, w)
      else if negb (String.eqb requestPreviewId previewId) then
        Some (Rejected 409 PreviewChanged, w)
      else if negb (strictEqualsInt confirmCount (Z.of_nat (length cands))) then
        Some (Rejected 400 (ConfirmCountMismatch (length cands)), w)
      else
        let out := deleteCandidates env criteria cands w [] 0 in
        Some (Executed criteria previewId
                (List.filter res_success (fst (fst out)))
                (List.filter (fun r => negb (res_success r)) (fst (fst out)))
                (length (List.filter res_success (fst (fst out))))
                (length (List.filter (fun r => negb (res_success r)) (fst (fst out))))
                (snd (fst out)),
              snd out)
  | _ => Some (Rejected 400 MissingPreviewId, w)
  end.
Proof.
  intros Hp Hs Hdry. unfold deleteInactiveUsers. rewrite Hp, Hs.
  assert (Hout : forall out : list DeletionResult * Z * World,
            (let '(results, totalDeletedSize, w') := out in
             Some (Executed criteria (previewIdOf rt criteria (map cand_handle cands))
                     (List.filter res_success results)
                     (List.filter (fun r => negb (res_success r)) results)
                     (length (List.filter res_success results))
                     (length (List.filter (fun r => negb (res_success r)) results))
                     totalDeletedSize, w'))
            = Some (Executed criteria (previewIdOf rt criteria (map cand_handle cands))
                     (List.filter res_success (fst (fst out)))
                     (List.filter (fun r => negb (res_success r)) (fst (fst out)))
                     (length (List.filter res_success (fst (fst out))))
                     (length (List.filter (fun r => negb (res_success r)) (fst (fst out))))
                     (snd (fst out)), snd out))
    by (intros [[? ?] ?]; reflexivity).
  cbn zeta.
  destruct (body_dryRun body) as [| |[|]| | |]; try contradiction;
    destruct (body_previewId body); try reflexivity;
    repeat (match goal with |- context [if ?b then _ else _] => destruct b end;
            try reflexivity);
    apply Hout.
Qed.

(** C2, as amended: in an execute call (not a dry run), when the supplied
    preview id is not a string of at least 8 characters, or the supplied
    count does not convert by [Number()] to a non-negative integer, or the
    supplied id differs from the id recomputed by the fresh scan, or the
    converted count differs from the number of fresh candidates, the request
    is rejected with the diagnostic of the first such precondition and the
    world is left as it was: nothing is deleted.  The scan itself always
    completes. *)
Theorem execute_preconditions rt env body w criteria :
  wf_node (fs w) = true ->
  parseCriteria rt body = inr criteria ->
  body_dryRun body <> Bool true ->
  exists cands total,
    scan env criteria w = Some (cands, total) /\
    let previewId := previewIdOf rt criteria (map cand_handle cands) in
    let confirmCount := toNumber rt (body_confirmCount body) in
    (~ tokenPlausible (body_previewId body) ->
       deleteInactiveUsers rt env body w = Some (Rejected 400 MissingPreviewId, w)) /\
    (tokenPlausible (body_previewId body) ->
     ~ countAccepted rt (body_confirmCount body) ->
       deleteInactiveUsers rt env body w = Some (Rejected 400 MissingConfirmCount, w)) /\
    (tokenPlausible (body_previewId body) ->
     countAccepted rt (body_confirmCount body) ->
     body_previewId body <> Str previewId ->
       deleteInactiveUsers rt env body w = Some (Rejected 409 PreviewChanged, w)) /\
    (tokenPlausible (body_previewId body) ->
     countAccepted rt (body_confirmCount body) ->
     body_previewId body = Str previewId ->
     strictEqualsInt confirmCount (Z.of_nat (length cands)) = false ->
       deleteInactiveUsers rt env body w
         = Some (Rejected 400 (ConfirmCountMismatch (length cands)), w)) /\
    ((~ tokenPlausible (body_previewId body) \/
      ~ countAccepted rt (body_confirmCount body) \/
      body_previewId body <> Str previewId \/
      strictEqualsInt confirmCount (Z.of_nat (length cands)) = false) ->
       exists status diagnostic,
         deleteInactiveUsers rt env body w = Some (Rejected status diagnostic, w) /\
         preconditionDiagnostic (length cands) diagnostic).
Proof.
  intros Hwf Hp Hdry.
  destruct (scan_total env criteria w Hwf) as (cands & total & Hs).
  exists cands, total. split; [exact Hs|]. cbn zeta.
  rewrite (deleteInactiveUsers_execute rt env body w criteria cands total Hp Hs Hdry).
  cbn zeta. unfold tokenPlausible, countAccepted.
  set (previewId := previewIdOf rt criteria (map cand_handle cands)).
  set (cc := toNumber rt (body_confirmCount body)).
  set (out := deleteCandidates env criteria cands w [] 0).
  destruct (body_previewId body) as [| | | |s|] eqn:Hid.
  1-4,6: (split; [reflexivity|]); (split; [intros (s & [=] & _)|]);
         (split; [intros (s & [=] & _)|]); (split; [intros (s & [=] & _)|]);
         intros _; exists 400, MissingPreviewId; split; [reflexivity|now left].
  destruct (Nat.ltb_spec (String.length s) 8) as [Hlen|Hlen].
  { split; [reflexivity|]. 
    split; [intros (s' & [= <-] & ?); lia|].
    split; [intros (s' & [= <-] & ?); lia|].
    split; [intros (s' & [= <-] & ?); lia|].
    intros _. exists 400, MissingPreviewId. split; [reflexivity|now left]. }
  assert (Hplaus : exists s', Str s = Str s' /\ (8 <= String.length s')%nat)
    by (exists s; split; [reflexivity|lia]).
  destruct (negb (isFinite cc) || negb (isInteger cc) || lt cc 0) eqn:Hcount.
  { assert (Hbad : ~ (isFinite cc = true /\ isInteger cc = true /\ lt cc 0 = false)).
    { intros (H1 & H2 & H3). rewrite H1, H2, H3 in Hcount. discriminate. }
    split; [intros H; now destruct H|].
    split; [reflexivity|].
    split; [intros _ H; now destruct Hbad|].
    split; [intros _ H; now destruct Hbad|].
    intros _. exists 400, MissingConfirmCount. split; [reflexivity|right; now left]. }
  assert (Hok : isFinite cc = true /\ isInteger cc = true /\ lt cc 0 = false).
  { apply orb_false_iff in Hcount as [Hcount H3].
    apply orb_false_iff in Hcount as [H1 H2].
    apply negb_false_iff in H1, H2. auto. }
  destruct (String.eqb_spec s previewId) as [Heq|Hne]; cbn [negb].
  2: { split; [intros H; now destruct H|].
       split; [intros _ H; now destruct H|].
       split; [reflexivity|].
       split; [intros _ _ [= ?]; contradiction|].
       intros _. exists 409, PreviewChanged. split; [reflexivity|right; right; now left]. }
  destruct (strictEqualsInt cc (Z.of_nat (length cands))) eqn:Hn; cbn [negb].
  2: { split; [intros H; now destruct H|].
       split; [intros _ H; now destruct H|].
       split; [intros _ _ H; subst s; now destruct H|].
       split; [reflexivity|].
       intros _. exists 400, (ConfirmCountMismatch (length cands)).
       split; [reflexivity|right; right; now right]. }
  split; [intros H; now destruct H|].
  split; [intros _ H; now destruct H|].
  split; [intros _ _ H; subst s; now destruct H|].
  split; [intros _ _ _ [=]|].
  intros [H|[H|[H|H]]]; [now destruct H|now destruct H|subst s; now destruct H|discriminate].
Qed.

Lemma execute_preconditions_witness :
  wf_node (fs Sample.world) = true /\
  exists cands total,
    scan Sample.env Sample.criteria Sample.world = Some (cands, total) /\
    deleteInactiveUsers Sample.rt Sample.env
        (Sample.executeBody (Str "1234567") (Num 1)) Sample.world
      = Some (Rejected 400 MissingPreviewId, Sample.world).
Proof.
  split; [reflexivity|].
  destruct (execute_preconditions Sample.rt Sample.env
              (Sample.executeBody (Str "1234567") (Num 1)) Sample.world Sample.criteria)
    as (cands & total & Hs & Htoken & _).
  - reflexivity.
  - vm_compute. reflexivity.
  - discriminate.
  - exists cands, total. split; [exact Hs|]. apply Htoken.
    intros (s & [= <-] & Hlen). cbn in Hlen. lia.
Defined.

(** C2, as the claim words it, fails: [true] is not a non-negative integer,
    yet [Number(true)] is 1, the number of candidates; with the right preview
    id the request is executed and [carol] is deleted: the account record,
    the avatar record and the directory are gone. *)
Lemma execute_preconditions_counterexample :
  let body := Sample.executeBody (Str Sample.carolToken) (Bool true) in
  ~ isNonNegativeInteger (body_confirmCount body) /\
  body_dryRun body <> Bool true /\
  users Sample.world !! "carol" <> None /\
  ((fun out => (match fst out with Executed _ _ d f _ _ _ => (map res_handle d, f)
                | _ => ([], []) end,
                users (snd out) !! "carol", avatars (snd out) !! "carol",
                lookup (fs (snd out)) ["data"; "carol"]))
     <$> deleteInactiveUsers Sample.rt Sample.env body Sample.world)
  = Some (["carol"], [], None, None, None).
Proof.
  cbn zeta. split; [intros (n & _ & [=])|]. split; [discriminate|].
  split; [vm_compute; discriminate|]. vm_compute. reflexivity.
Qed.



End ExecFacts.

(** ** [POST /delete] *)

Module DeleteFacts.
Import Fs FsFacts Js Json Users UsersAdmin Statements.

(** A request whose handle is, character for character, the caller's or the
    default account's is rejected and changes nothing. *)
Lemma deleteUser_exact_handle env purge w :
  callerHandle env <> "" -> DEFAULT_USER_handle env <> "" ->
  deleteUser env (mkHandleBody (Str (callerHandle env)) purge) w
    = (Rejected 400 CannotDeleteYourself, w) /\
  (DEFAULT_USER_handle env <> callerHandle env ->
   deleteUser env (mkHandleBody (Str (DEFAULT_USER_handle env)) purge) w
     = (Rejected 400 CannotDeleteDefaultUser, w)).
Proof.
  intros Hc Hd. unfold deleteUser. cbn [body_handle truthy isString]. split.
  - apply String.eqb_neq in Hc. rewrite Hc. cbn [negb]. now rewrite String.eqb_refl.
  - intros Hne. apply String.eqb_neq in Hd, Hne. rewrite Hd, Hne. cbn [negb].
    now rewrite String.eqb_refl.
Qed.

(** What is left of the account store after the removals of [/delete]. *)
Lemma deleteUser_removes env body w :
  truthy (body_handle body) = true ->
  isString (body_handle body) (callerHandle env) = false ->
  isString (body_handle body) (DEFAULT_USER_handle env) = false ->
  normalizeHandle env (body_handle body) <> "" ->
  removeItem_error env (normalizeHandle env (body_handle body)) = None ->
  (exists r, fst (deleteUser env body w) = r /\ (r = NoContent \/ exists msg, r = ServerError msg)) /\
  users (snd (deleteUser env body w))
    = delete (normalizeHandle env (body_handle body)) (users w).
Proof.
  intros Ht Hc Hd Hn Hrm. unfold deleteUser. rewrite Ht, Hc, Hd. cbn [negb].
  apply String.eqb_neq in Hn. rewrite Hn.
  unfold bind, removeItem, removeAvatar, resetUserStats, when, rmTree, failWhen, ret.
  rewrite Hrm.
  destruct (removeAvatar_error env _); cbn; [split; eauto|].
  destruct (resetUserStats_error env _); cbn; [split; eauto|].
  destruct (truthy (body_purge body)); cbn; [|split; eauto].
  destruct (rootOf _); cbn; [|split; eauto].
  destruct (rm_error env _); cbn; split; eauto.
Qed.

(** C9 fails on the code: [/delete] compares the handle of the request with
    the caller's and the default account's before it normalises it, and
    removes the account of the normalised handle.  A handle that differs from
    the caller's (or the default account's) but normalises to it passes both
    checks: the request is not rejected and the account record is removed.
    [/disable] normalises first and rejects the same request. *)
Theorem deleteUser_unnormalized_handle env purge w raw :
  raw <> "" ->
  raw <> callerHandle env ->
  raw <> DEFAULT_USER_handle env ->
  normalizeHandle env (Str raw) <> "" ->
  removeItem_error env (normalizeHandle env (Str raw)) = None ->
  (normalizeHandle env (Str raw) = callerHandle env \/
   normalizeHandle env (Str raw) = DEFAULT_USER_handle env) ->
  (fst (deleteUser env (mkHandleBody (Str raw) purge) w) = NoContent \/
   exists msg, fst (deleteUser env (mkHandleBody (Str raw) purge) w) = ServerError msg) /\
  users (snd (deleteUser env (mkHandleBody (Str raw) purge) w))
    !! normalizeHandle env (Str raw) = None /\
  (normalizeHandle env (Str raw) = callerHandle env ->
   disableUser env (mkHandleBody (Str raw) purge) w
     = (Rejected 400 CannotDisableYourself, w)).
Proof.
  intros Hraw Hc Hd Hn Hrm Hnorm.
  destruct (deleteUser_removes env (mkHandleBody (Str raw) purge) w) as ((r & Hr & Hcases) & Hu).
  - cbn. now apply negb_true_iff, String.eqb_neq.
  - cbn. now apply String.eqb_neq.
  - cbn. now apply String.eqb_neq.
  - exact Hn.
  - exact Hrm.
  - split; [|split].
    + rewrite Hr. exact Hcases.
    + rewrite Hu. cbn [body_handle]. apply lookup_delete_eq.
    + intros Heq. unfold disableUser. cbn [body_handle truthy].
      apply String.eqb_neq in Hraw, Hn. rewrite Hraw, Hn. cbn [negb].
      now rewrite Heq, String.eqb_refl.
Qed.

Lemma deleteUser_unnormalized_handle_witness :
  users Sample.world !! "admin" <> None /\
  users (snd (deleteUser Sample.env (mkHandleBody (Str "Admin") (Bool true)) Sample.world))
    !! "admin" = None /\
  (fst (deleteUser Sample.env (mkHandleBody (Str "Admin") (Bool true)) Sample.world),
   lookup (fs (snd (deleteUser Sample.env (mkHandleBody (Str "Admin") (Bool true))
                      Sample.world))) ["data"; "admin"])
    = (NoContent, None) /\
  disableUser Sample.env (mkHandleBody (Str "Admin") (Bool true)) Sample.world
    = (Rejected 400 CannotDisableYourself, Sample.world).
Proof.
  destruct (deleteUser_unnormalized_handle Sample.env (Bool true) Sample.world "Admin")
    as (_ & Hgone & Hdisable).
  - discriminate.
  - discriminate.
  - discriminate.
  - vm_compute. discriminate.
  - reflexivity.
  - left. vm_compute. reflexivity.
  - split; [vm_compute; discriminate|]. split; [exact Hgone|].
    split; [vm_compute; reflexivity|]. apply Hdisable. vm_compute. reflexivity.
Defined.

End DeleteFacts.

(** ** The preview id *)

Module TokenFacts.
Import Js Json Users UsersAdmin Statements.

Lemma append_cons x (a b : string) : String x a +:+ b = String x (a +:+ b).
Proof. reflexivity. Qed.

Lemma append_nil (b : string) : "" +:+ b = b.
Proof. reflexivity. Qed.

Lemma append_assoc (a b c : string) : (a +:+ b) +:+ c = a +:+ (b +:+ c).
Proof. induction a as [|x a IH]; [reflexivity|]. rewrite !append_cons. f_equal. exact IH. Qed.

Lemma String_tail_inj x (a b : string) : String x a = String x b -> a = b.
Proof. now intros [= ->]. Qed.

(** *** Sorting *)

Lemma insertSorted_perm x l : Permutation (insertSorted x l) (x :: l).
Proof.
  induction l as [|y l IH]; cbn [insertSorted]; [reflexivity|].
  destruct (String.leb x y); [reflexivity|].
  rewrite IH. apply perm_swap.
Qed.

Lemma sort_perm l : Permutation (sort l) l.
Proof.
  induction l as [|x l IH]; cbn; [reflexivity|].
  rewrite insertSorted_perm. now constructor.
Qed.

Lemma insertSorted_sorted x l :
  Sorted String.le l -> Sorted String.le (insertSorted x l).
Proof.
  induction l as [|y l IH]; cbn [insertSorted]; intros Hs.
  - repeat constructor.
  - destruct (String.leb x y) eqn:E.
    + constructor; [exact Hs|]. constructor. unfold String.le. now rewrite E.
    + apply Sorted_inv in Hs as [Hs Hhd]. constructor; [auto|].
      assert (Hyx : String.le y x).
      { destruct (total String.le x y) as [H|H]; [|exact H].
        unfold String.le in H. rewrite E in H. contradiction. }
      destruct l as [|z l]; cbn [insertSorted].
      * now constructor.
      * destruct (String.leb x z); constructor; [exact Hyx|].
        now apply HdRel_inv in Hhd.
Qed.

Lemma sort_sorted l : Sorted String.le (sort l).
Proof.
  induction l as [|x l IH]; cbn; [constructor|]. now apply insertSorted_sorted.
Qed.

(** The sorted array depends on the elements only, not on their order. *)
Lemma sort_permutation l1 l2 : Permutation l1 l2 -> sort l1 = sort l2.
Proof.
  intros Hp. apply (Sorted_unique String.le); try apply sort_sorted.
  rewrite !sort_perm. exact Hp.
Qed.

(** *** Strings between quotation marks are read back in one way *)

Lemma unescape_escape c rest :
  unescapeChar (escapeChar c +:+ rest) = Some (c, rest).
Proof. destruct c as [[] [] [] [] [] [] [] []]; reflexivity. Qed.

Lemma escapeChar_head c rest :
  exists x rest', escapeChar c +:+ rest = String x rest' /\ x <> dquote.
Proof.
  destruct c as [[] [] [] [] [] [] [] []]; cbn;
    eexists _, _; (split; [reflexivity|discriminate]).
Qed.

Lemma escapeString_inj s1 : forall s2 r1 r2,
  escapeString s1 +:+ String dquote r1 = escapeString s2 +:+ String dquote r2 ->
  s1 = s2 /\ r1 = r2.
Proof.
  induction s1 as [|c1 s1 IH]; intros [|c2 s2] r1 r2; cbn [escapeString];
    rewrite ?append_nil, ?append_assoc.
  - intros [= ->]. auto.
  - intros H. destruct (escapeChar_head c2 (escapeString s2 +:+ String dquote r2))
      as (x & rest' & Hx & Hne). rewrite Hx in H. injection H as H _. congruence.
  - intros H. destruct (escapeChar_head c1 (escapeString s1 +:+ String dquote r1))
      as (x & rest' & Hx & Hne). rewrite Hx in H. injection H as H _. congruence.
  - intros H. apply (f_equal unescapeChar) in H. rewrite !unescape_escape in H.
    injection H as -> H. apply IH in H as [-> ->]. auto.
Qed.

Lemma quote_inj s1 s2 r1 r2 :
  quote s1 +:+ r1 = quote s2 +:+ r2 -> s1 = s2 /\ r1 = r2.
Proof.
  unfold quote. rewrite !append_cons, !append_assoc, !append_cons, !append_nil.
  intros H. apply String_tail_inj in H. now apply escapeString_inj in H.
Qed.

Lemma joinWith_cons x l :
  joinWith "," (map quote (x :: l)) +:+ "]}" = quote x +:+ arrayRest l.
Proof.
  destruct l as [|y l]; [reflexivity|].
  cbn [map joinWith arrayRest]. now rewrite !append_assoc.
Qed.

Lemma arrayRest_cons x l :
  arrayRest (x :: l) = String "," (quote x +:+ arrayRest l).
Proof.
  change (arrayRest (x :: l))
    with (String "," (joinWith "," (map quote (x :: l)) +:+ "]}")).
  now rewrite joinWith_cons.
Qed.

Lemma arrayRest_inj l1 : forall l2, arrayRest l1 = arrayRest l2 -> l1 = l2.
Proof.
  induction l1 as [|x l1 IH]; intros [|y l2].
  - reflexivity.
  - discriminate.
  - discriminate.
  - rewrite !arrayRest_cons. intros H. apply String_tail_inj in H.
    apply quote_inj in H as [-> H]. now rewrite (IH l2 H).
Qed.

Lemma array_inj l1 l2 :
  joinWith "," (map quote l1) +:+ "]}" = joinWith "," (map quote l2) +:+ "]}" ->
  l1 = l2.
Proof.
  destruct l1 as [|x l1], l2 as [|y l2]; [reflexivity|..].
  - rewrite joinWith_cons. discriminate.
  - rewrite joinWith_cons. discriminate.
  - rewrite !joinWith_cons. intros H.
    apply quote_inj in H as [-> H]. now rewrite (arrayRest_inj _ _ H).
Qed.

(** *** Numbers *)

Lemma allChars_app P a b :
  allChars P (a +:+ b) = allChars P a && allChars P b.
Proof.
  induction a as [|x a IH]; [reflexivity|].
  rewrite append_cons. cbn [allChars]. now rewrite IH, andb_assoc.
Qed.

(** A text of number characters ends at the first other character. *)
Lemma delimited P a : forall b x y r1 r2,
  allChars P a = true -> allChars P b = true -> P x = false -> P y = false ->
  a +:+ String x r1 = b +:+ String y r2 ->
  a = b /\ String x r1 = String y r2.
Proof.
  induction a as [|c a IH]; intros [|d b] x y r1 r2 Ha Hb Hx Hy;
    rewrite ?append_cons, ?append_nil.
  - auto.
  - intros [= -> _]. cbn [allChars] in Hb. rewrite Hx in Hb. discriminate.
  - intros [= -> _]. cbn [allChars] in Ha. rewrite Hy in Ha. discriminate.
  - intros H. injection H as -> H. cbn [allChars] in Ha, Hb.
    apply andb_true_iff in Ha as [_ Ha]. apply andb_true_iff in Hb as [_ Hb].
    destruct (IH b x y r1 r2 Ha Hb Hx Hy H) as [-> ?]. auto.
Qed.

Lemma numberChar_digit n : numberChar (pretty_N_char n) = true.
Proof.
  destruct n as [|p]; [reflexivity|].
  do 4 (destruct p as [p|p|]; try reflexivity).
Qed.

Lemma pretty_N_go_chars x : forall s,
  allChars numberChar s = true -> allChars numberChar (pretty_N_go x s) = true.
Proof.
  induction (N.lt_wf_0 x) as [x _ IH]; intros s Hs.
  destruct (decide (x = 0)%N) as [->|Hx]; [now rewrite pretty_N_go_0|].
  rewrite pretty_N_go_step by lia. apply IH.
  - apply N.div_lt; lia.
  - cbn [allChars]. now rewrite numberChar_digit, Hs.
Qed.

Lemma pretty_N_chars (x : N) : allChars numberChar (pretty x) = true.
Proof.
  unfold pretty, pretty_N. case_decide; [reflexivity|]. now apply pretty_N_go_chars.
Qed.

Lemma pretty_Z_chars (z : Z) : allChars numberChar (pretty z) = true.
Proof.
  destruct z as [|p|p]; unfold pretty, pretty_Z; [reflexivity|apply pretty_N_chars|].
  rewrite allChars_app. cbn [allChars]. apply pretty_N_chars.
Qed.

(** *** The text the digest is taken of *)

Lemma previewInput_text rt c hs :
  previewInput rt c hs =
  "{" +:+ quote "criteria" +:+ ":{" +:+
    quote "inactiveDays" +:+ ":" +:+ pretty (inactiveDays c) +:+ "," +:+
    quote "requireUnused" +:+ ":" +:+ boolText (requireUnused c) +:+ "," +:+
    quote "maxStorageMB" +:+ ":" +:+ capText rt (maxStorageMB c) +:+ "," +:+
    quote "excludeActiveSubscriptions" +:+ ":" +:+
      boolText (excludeActiveSubscriptions c) +:+ "}," +:+
  quote "handles" +:+ ":[" +:+ joinWith "," (map quote (sort hs)) +:+ "]}".
Proof.
  unfold previewInput, criteriaJson. cbn [stringify map fst snd joinWith].
  rewrite map_map. cbn [stringify].
  change (map (fun x : string => quote x) (sort hs)) with (map quote (sort hs)).
  destruct (requireUnused c), (excludeActiveSubscriptions c), (maxStorageMB c);
    cbn [boolText capText stringify]; rewrite !append_assoc; reflexivity.
Qed.

Lemma boolText_inj b1 b2 x r1 r2 :
  numberChar x = false ->
  boolText b1 +:+ String x r1 = boolText b2 +:+ String x r2 -> b1 = b2 /\ r1 = r2.
Proof.
  intros Hx. destruct b1, b2; cbn [boolText]; rewrite !append_cons, !append_nil;
    intros [= H]; subst; try discriminate; auto.
Qed.

Lemma capText_inj rt mb1 mb2 r1 r2 :
  (forall q, mb1 = Some q -> allChars numberChar (Number_toString rt q) = true) ->
  (forall q, mb2 = Some q -> allChars numberChar (Number_toString rt q) = true) ->
  capText rt mb1 +:+ String "," r1 = capText rt mb2 +:+ String "," r2 ->
  capText rt mb1 = capText rt mb2 /\ (mb1 = None <-> mb2 = None) /\ r1 = r2.
Proof.
  intros H1 H2. destruct mb1 as [q1|], mb2 as [q2|]; cbn [capText].
  - intros H. apply (delimited numberChar) in H as [-> [= ->]]; auto.
    split; [reflexivity|]. split; [split; discriminate|reflexivity].
  - specialize (H1 q1 eq_refl). destruct (Number_toString rt q1) as [|x s].
    + rewrite append_nil. discriminate.
    + rewrite !append_cons. intros [= -> _]. discriminate.
  - specialize (H2 q2 eq_refl). destruct (Number_toString rt q2) as [|x s].
    + rewrite append_nil. discriminate.
    + rewrite !append_cons. intros [= <- _]. discriminate.
  - rewrite !append_cons, !append_nil. intros [= ->]. auto.
Qed.

(** Two texts are equal only for the same criteria fields and the same sorted
    handles. *)
Lemma previewInput_inj rt c1 c2 hs1 hs2 :
  capWritten rt c1 -> capWritten rt c2 ->
  previewInput rt c1 hs1 = previewInput rt c2 hs2 ->
  inactiveDays c1 = inactiveDays c2 /\
  requireUnused c1 = requireUnused c2 /\
  capText rt (maxStorageMB c1) = capText rt (maxStorageMB c2) /\
  (maxStorageMB c1 = None <-> maxStorageMB c2 = None) /\
  excludeActiveSubscriptions c1 = excludeActiveSubscriptions c2 /\
  sort hs1 = sort hs2.
Proof.
  intros Hw1 Hw2. rewrite !previewInput_text. intros H.
  do 5 apply (inj (String.append _)) in H.
  apply (delimited numberChar) in H as [Hd H];
    [|apply pretty_Z_chars|apply pretty_Z_chars|reflexivity|reflexivity].
  apply (inj pretty) in Hd.
  apply String_tail_inj in H. do 2 apply (inj (String.append _)) in H.
  apply boolText_inj in H as [Hru H]; [|reflexivity].
  do 2 apply (inj (String.append _)) in H.
  apply capText_inj in H as (Hcap & Hnone & H); [|exact Hw1|exact Hw2].
  do 2 apply (inj (String.append _)) in H.
  apply boolText_inj in H as [Hex H]; [|reflexivity].
  apply String_tail_inj in H.
  do 2 apply (inj (String.append _)) in H.
  apply array_inj in H.
  auto 10.
Qed.

(** C5: the preview id is the digest of the criteria and the sorted handles.
    Two candidate lists with the same handles in any order give the same id
    under the same criteria; and when the digest does not collide on the two
    texts, equal ids mean the same criteria and the same handles, so that a
    change of a criterion or of the membership of the candidate set changes
    the id.  The numbers of the criteria are written by the runtime: its
    texts are made of number characters and differ for different numbers. *)
Theorem previewId_digest rt c1 c2 hs1 hs2 :
  capWritten rt c1 -> capWritten rt c2 ->
  (forall q1 q2, maxStorageMB c1 = Some q1 -> maxStorageMB c2 = Some q2 ->
     Number_toString rt q1 = Number_toString rt q2 -> q1 == q2) ->
  (sha256hex rt (previewInput rt c1 hs1) = sha256hex rt (previewInput rt c2 hs2) ->
     previewInput rt c1 hs1 = previewInput rt c2 hs2) ->
  (forall hs hs', Permutation hs hs' -> previewIdOf rt c1 hs = previewIdOf rt c1 hs') /\
  (previewIdOf rt c1 hs1 = previewIdOf rt c2 hs2 ->
     sameCriteria c1 c2 /\ Permutation hs1 hs2) /\
  (~ sameCriteria c1 c2 \/ ~ Permutation hs1 hs2 ->
     previewIdOf rt c1 hs1 <> previewIdOf rt c2 hs2).
Proof.
  intros Hw1 Hw2 Hnum Hdigest.
  assert (Hsame : forall hs hs', Permutation hs hs' ->
                    previewIdOf rt c1 hs = previewIdOf rt c1 hs').
  { intros hs hs' Hp. unfold previewIdOf, previewInput.
    now rewrite (sort_permutation hs hs' Hp). }
  assert (Heq : previewIdOf rt c1 hs1 = previewIdOf rt c2 hs2 ->
                sameCriteria c1 c2 /\ Permutation hs1 hs2).
  { intros H. apply Hdigest in H.
    apply previewInput_inj in H as (Hd & Hru & Hcap & Hnone & Hex & Hsort);
      [|assumption..].
    split.
    - unfold sameCriteria. repeat split; try assumption.
      destruct (maxStorageMB c1) as [q1|] eqn:E1, (maxStorageMB c2) as [q2|] eqn:E2.
      + apply (Hnum q1 q2 eq_refl eq_refl). exact Hcap.
      + destruct Hnone as [_ Hn]. now specialize (Hn eq_refl).
      + destruct Hnone as [Hn _]. now specialize (Hn eq_refl).
      + exact I.
    - rewrite <- (sort_perm hs1), <- (sort_perm hs2), Hsort. reflexivity. }
  split; [exact Hsame|]. split; [exact Heq|].
  intros Hchange H. apply Heq in H as [Hc Hp]. destruct Hchange as [Hn|Hn]; contradiction.
Qed.

Lemma previewId_digest_witness :
  previewIdOf Sample.rt (Sample.criteriaCap 5) ["carol"; "bob"]
    = previewIdOf Sample.rt (Sample.criteriaCap 5) ["bob"; "carol"] /\
  previewIdOf Sample.rt (Sample.criteriaCap 5) ["carol"; "bob"]
    <> previewIdOf Sample.rt (Sample.criteriaCap 10) ["bob"; "carol"] /\
  previewIdOf Sample.rt (Sample.criteriaCap 5) ["carol"; "bob"]
    <> previewIdOf Sample.rt (Sample.criteriaCap 5) ["bob"; "carol"; "dan"].
Proof.
  assert (Hw : forall mb : Z, capWritten Sample.rt (Sample.criteriaCap (inject_Z mb))).
  { intros mb q [= <-]. apply pretty_Z_chars. }
  split; [|split].
  - apply (previewId_digest Sample.rt (Sample.criteriaCap 5) (Sample.criteriaCap 5) [] []
             (Hw 5) (Hw 5)).
    + intros q1 q2 [= <-] [= <-] _. reflexivity.
    + intros _. reflexivity.
    + apply perm_swap.
  - apply (previewId_digest Sample.rt (Sample.criteriaCap 5) (Sample.criteriaCap 10)
             ["carol"; "bob"] ["bob"; "carol"] (Hw 5) (Hw 10)).
    + intros q1 q2 [= <-] [= <-] H. vm_compute in H. discriminate H.
    + intros H. exact H.
    + left. intros (_ & _ & _ & H). vm_compute in H. discriminate H.
  - apply (previewId_digest Sample.rt (Sample.criteriaCap 5) (Sample.criteriaCap 5)
             ["carol"; "bob"] ["bob"; "carol"; "dan"] (Hw 5) (Hw 5)).
    + intros q1 q2 [= <-] [= <-] _. reflexivity.
    + intros H. exact H.
    + right. intros H. apply Permutation_length in H. discriminate H.
Defined.

End TokenFacts.

(** ** Directory size: the statements *)

Module DirectorySizeClaims.
Import Fs FsFacts DirectorySize DirectorySizeFacts.






End DirectorySizeClaims.

(** * Part II, continued: further properties *)

(** ** Directory size on trees without failures *)

Module DirectorySizeMore.
Import Fs FsFacts DirectorySize DirectorySizeFacts Trees.

Lemma counted_intact n : intact n = true -> counted n = totalBytes n.
Proof.
  induction n as [sz|t|r d es IH] using node_nested_ind; cbn [intact].
  - reflexivity.
  - destruct t; [reflexivity|discriminate].
  - intros H. apply andb_true_iff in H as [-> Hall]. rewrite counted_Dir.
    cbn [totalBytes]. induction es as [|[nm c] es IHes]; [reflexivity|].
    cbn [forallb snd] in Hall. apply andb_true_iff in Hall as [Hc Hall].
    apply Forall_cons in IH as [IHc IH]. cbn [snd] in IHc.
    cbn [map sumZ foldr snd]. fold (sumZ (map (fun e => totalBytes (snd e)) es)).
    rewrite <- (IHes IH Hall), <- (IHc Hc).
    destruct c as [sz|r' d' es'|[sz|]]; try reflexivity. discriminate.
Qed.

Lemma counted_bounds n :
  sizesNonNegative n = true -> 0 <= counted n <= totalBytes n.
Proof.
  induction n as [sz|t|r d es IH] using node_nested_ind; cbn [sizesNonNegative].
  - intros H. apply Z.leb_le in H. cbn. lia.
  - destruct t; intros H; [apply Z.leb_le in H|]; cbn; lia.
  - intros Hall. rewrite counted_Dir. cbn [totalBytes].
    assert (Htot : 0 <= counted_entries es
                   <= sumZ (map (fun e => totalBytes (snd e)) es)).
    { induction es as [|[nm c] es IHes]; [cbn; lia|].
      cbn [forallb snd] in Hall. apply andb_true_iff in Hall as [Hc Hall].
      apply Forall_cons in IH as [IHc IH]. cbn [snd] in IHc.
      specialize (IHes IH Hall). specialize (IHc Hc).
      cbn [map sumZ foldr snd]. fold (sumZ (map (fun e => totalBytes (snd e)) es)).
      destruct c as [sz|r' d' es'|[sz|]]; cbn [counted_entries snd] in *; lia. }
    destruct r; [exact Htot|lia].
Qed.

Lemma intact_lookup fs p n : intact fs = true -> lookup fs p = Some n -> intact n = true.
Proof.
  revert fs. induction p as [|s p IH]; intros fs Hi; cbn [lookup].
  - now intros [= <-].
  - destruct fs as [|r d es|]; try discriminate.
    destruct (find_entry s es) as [c|] eqn:E; [|discriminate].
    apply IH. apply find_entry_In in E. cbn [intact] in Hi.
    apply andb_true_iff in Hi as [_ Hi]. rewrite forallb_forall in Hi.
    apply (Hi (s, c) E).
Qed.

Lemma sizesNonNegative_lookup fs p n :
  sizesNonNegative fs = true -> lookup fs p = Some n -> sizesNonNegative n = true.
Proof.
  revert fs. induction p as [|s p IH]; intros fs Hi; cbn [lookup].
  - now intros [= <-].
  - destruct fs as [|r d es|]; try discriminate.
    destruct (find_entry s es) as [c|] eqn:E; [|discriminate].
    apply IH. apply find_entry_In in E. cbn [sizesNonNegative] in Hi.
    rewrite forallb_forall in Hi. apply (Hi (s, c) E).
Qed.

(** X1: when nothing fails below a directory, [calculateDirectorySize] is the
    total of the sizes of all the files below it, at any depth; the size
    [stat] reports for a directory itself is not counted. *)
Theorem calculateDirectorySize_intact fs p r d es :
  wf_node fs = true ->
  lookup fs p = Some (Dir r d es) ->
  intact (Dir r d es) = true ->
  calculateDirectorySize fs p = Some (totalBytes (Dir r d es)).
Proof.
  intros Hwf Hp Hi. rewrite calculateDirectorySize_counted by assumption.
  unfold directorySize. rewrite Hp. f_equal. now apply counted_intact.
Qed.

Lemma calculateDirectorySize_intact_witness :
  calculateDirectorySize Audit.sampleFs ["b"] = Some 14.
Proof.
  apply (calculateDirectorySize_intact Audit.sampleFs ["b"] true 4096
           [ ("instruct", Dir true 4096 [ ("preset.json", File 7) ]);
             ("worlds", Dir true 4096 [ ("wi.json", File 7) ]) ]);
    reflexivity.
Defined.

(** X2: with sizes that are not negative, the result is never negative and never
    more than the total of the files below the path: a failure can only lose
    bytes. *)
Theorem calculateDirectorySize_bounds fs p :
  wf_node fs = true ->
  sizesNonNegative fs = true ->
  exists total,
    calculateDirectorySize fs p = Some total /\
    0 <= total /\
    (forall n, lookup fs p = Some n -> total <= totalBytes n).
Proof.
  intros Hwf Hnn. exists (directorySize fs p).
  split; [now apply calculateDirectorySize_counted|].
  unfold directorySize. destruct (lookup fs p) as [n|] eqn:Hp.
  - pose proof (counted_bounds n (sizesNonNegative_lookup fs p n Hnn Hp)) as Hb.
    pose proof (sizesNonNegative_lookup fs p n Hnn Hp) as Hn.
    destruct n as [sz|r d es|[sz|]].
    + split; [lia|]. intros n [= <-]. cbn in *. lia.
    + split; [lia|]. intros n [= <-]. lia.
    + split; [lia|]. intros n [= <-]. cbn in *. lia.
    + split; [lia|]. intros n [= <-]. cbn. lia.
  - split; [lia|]. intros n [=].
Qed.

Lemma calculateDirectorySize_bounds_witness :
  exists total,
    calculateDirectorySize Audit.sampleFs ["u"] = Some total /\
    0 <= total /\
    (forall n, lookup Audit.sampleFs ["u"] = Some n -> total <= totalBytes n).
Proof.
  apply (calculateDirectorySize_bounds Audit.sampleFs ["u"]); reflexivity.
Defined.

End DirectorySizeMore.

(** ** The audit without a baseline, and against the directory itself *)

Module AuditMore.
Import Fs FsFacts DirectorySizeFacts Audit AuditFacts Trees.




Lemma matchesBaseline_self fs (dir rel : path) r d es nm sz :
  lookup fs (dir ++ rel) = Some (Dir r d es) ->
  find_entry nm es = Some (File sz) ->
  matchesBaseline fs (Some dir) (rel ++ [nm]) sz = true.
Proof.
  intros Hl Hf. unfold matchesBaseline.
  rewrite app_assoc, (stat_snoc fs (dir ++ rel) r d es nm (File sz) Hl Hf).
  cbn. apply Z.eqb_refl.
Qed.

Lemma clean_self fs (dir : path) n : forall rel : path,
  wf_node n = true ->
  lookup fs (dir ++ rel) = Some n ->
  clean fs (Some dir) rel n = plain n.
Proof.
  induction n as [sz|t|r d es IH] using node_nested_ind; intros rel Hwf Hl;
    try reflexivity.
  rewrite clean_Dir. cbn [plain]. destruct r; [|reflexivity].
  assert (Hd : distinct (map fst es) = true).
  { cbn [wf_node] in Hwf. now apply andb_true_iff in Hwf as [? _]. }
  assert (Hfind : forall e, In e es -> find_entry (fst e) es = Some (snd e)).
  { intros [nm c] Hin. now apply find_entry_distinct. }
  assert (Hsub : forall e, In e es -> wf_node (snd e) = true).
  { intros e Hin. apply (wf_node_entry true d es e Hwf Hin). }
  rewrite List.Forall_forall in IH.
  assert (Hgen : forall l, (forall e, In e l -> In e es) ->
            clean_entries fs (Some dir) rel l
            = forallb (fun e => ignored (fst e) ||
                                match snd e with
                                | Dir _ _ _ => plain (snd e)
                                | File _ => true
                                | Special _ => false
                                end) l).
  { induction l as [|[nm c] l IHl]; intros Hin; [reflexivity|].
    cbn [clean_entries forallb fst snd].
    rewrite IHl by (intros; apply Hin; now right).
    f_equal. f_equal.
    pose proof (Hin (nm, c) (or_introl eq_refl)) as Hc.
    pose proof (Hfind _ Hc) as Hf. cbn [fst snd] in Hf.
    destruct c as [sz|r' d' es'|t].
    - now apply (matchesBaseline_self fs dir rel true d es).
    - apply (IH _ Hc).
      + apply (Hsub _ Hc).
      + now rewrite app_assoc, lookup_snoc, Hl.
    - reflexivity. }
  apply Hgen. auto.
Qed.

(** X4: a directory audited against itself as the baseline holds nothing extra
    exactly when it does not exist or holds, at any depth, nothing but regular
    files, directories that can be listed and entries with an ignored name:
    every file is found at the same relative path with the same size. *)
Theorem dirHasExtraContent_self fs dir :
  wf_node fs = true ->
  exists res,
    dirHasExtraContent fs (Some dir) (Some dir) = Some res /\
    (hasExtra res = false <->
       existsSync fs dir = false \/
       exists n, lookup fs dir = Some n /\ plain n = true).
Proof.
  intros Hwf.
  destruct (dirHasExtraContent_spec fs (Some dir) (Some dir) Hwf) as (res & Hres & Hx & _).
  exists res. split; [exact Hres|]. rewrite Hx. unfold holdsExtra.
  destruct (existsSync fs dir) eqn:Hex; cbn [andb].
  - destruct (lookup fs dir) as [n|] eqn:Hn.
    + rewrite (clean_self fs dir n []);
        [|exact (wf_node_lookup fs dir n Hwf Hn)|now rewrite app_nil_r].
      split.
      * intros H. apply negb_false_iff in H. right. now exists n.
      * intros [|(n' & [= <-] & H)]; [discriminate|]. now rewrite H.
    + split; [discriminate|]. intros [|(n' & [=] & _)]. discriminate.
  - split; auto.
Qed.

Lemma dirHasExtraContent_self_witness :
  exists res,
    dirHasExtraContent sampleFs (Some ["u"; "instruct"]) (Some ["u"; "instruct"])
      = Some res /\
    (hasExtra res = false <->
       existsSync sampleFs ["u"; "instruct"] = false \/
       exists n, lookup sampleFs ["u"; "instruct"] = Some n /\ plain n = true).
Proof. apply (dirHasExtraContent_self sampleFs). reflexivity. Defined.

Import AuditStatements.

Lemma visitEntries_example fs b (dir : path) cur r d es :
  lookup fs (absPath cur) = Some (Dir r d es) ->
  absPath cur = dir ++ relPath cur ->
  forall l stack,
  (forall e, In e l -> find_entry (fst e) es = Some (snd e)) ->
  framesBelow dir stack ->
  match visitEntries fs b cur (map dirent_of l) stack with
  | Return res => exists rel, res = extra rel /\ extraEntry fs dir b rel
  | Finished stack' => framesBelow dir stack'
  end.
Proof.
  intros Hcur Habs. induction l as [|[nm c] l IH]; intros stack Hfind Hstack.
  - exact Hstack.
  - assert (Hl : forall e, In e l -> find_entry (fst e) es = Some (snd e))
      by (intros; apply Hfind; now right).
    pose proof (Hfind (nm, c) (or_introl eq_refl)) as Hc. cbn [fst snd] in Hc.
    assert (Hlook : lookup fs (dir ++ relPath cur ++ [nm]) = Some c)
      by (now rewrite app_assoc, <- Habs, lookup_snoc, Hcur).
    cbn [map visitEntries]. unfold visitEntry. cbn [dirent_of name dkind fst snd].
    destruct (ignored nm) eqn:Hign; [now apply IH|].
    assert (Hextra : forall P : Prop,
              kind_of c <> KDirectory ->
              (forall sz, c = File sz ->
                 matchesBaseline fs b (relPath cur ++ [nm]) sz = false) ->
              exists rel, extra (relPath cur ++ [nm]) = extra rel /\
                          extraEntry fs dir b rel).
    { intros _ Hk Hm. exists (relPath cur ++ [nm]). split; [reflexivity|].
      exists (relPath cur), nm, c. auto. }
    destruct c as [sz|r' d' es'|t]; cbn [kind_of].
    + assert (Hstat : stat fs (absPath cur ++ [nm]) = Some (mkStats false sz))
        by (rewrite (stat_snoc fs _ r d es nm (File sz) Hcur Hc); reflexivity).
      destruct b as [bp|].
      * unfold existsSync.
        destruct (stat fs (bp ++ relPath cur ++ [nm])) as [bs|] eqn:Hbs; cbn [negb].
        -- rewrite Hstat. cbn [size].
           destruct (sz =? size bs) eqn:Heq; cbn [negb]; [now apply IH|].
           apply (Hextra True); [discriminate|].
           intros sz' [= <-]. unfold matchesBaseline. now rewrite Hbs.
        -- apply (Hextra True); [discriminate|].
           intros sz' [= <-]. unfold matchesBaseline. now rewrite Hbs.
      * apply (Hextra True); [discriminate|]. reflexivity.
    + apply IH; [exact Hl|]. constructor; [|exact Hstack].
      cbn [absPath relPath]. now rewrite Habs, app_assoc.
    + apply (Hextra True); [discriminate|]. discriminate.
Qed.

Lemma walk_example fuel : forall fs b (dir : path) stack o,
  wf_node fs = true ->
  framesBelow dir stack ->
  walk fuel fs b stack = Some o ->
  match o with
  | Returned res => res = noExtra \/ exists rel, res = extra rel /\ extraEntry fs dir b rel
  | Thrown => True
  end.
Proof.
  induction fuel as [|fuel IH]; intros fs b dir stack o Hwf Hstack; [discriminate|].
  destruct stack as [|cur stack]; cbn [walk].
  { intros [= <-]. now left. }
  apply Forall_cons in Hstack as [Hcur Hstack].
  unfold readdirTypes.
  destruct (lookup fs (absPath cur)) as [[sz|r d es|t]|] eqn:Hl;
    try (intros [= <-]; exact I).
  destruct r; [|intros [= <-]; exact I].
  assert (Hwfn := wf_node_lookup _ _ _ Hwf Hl).
  assert (Hd : distinct (map fst es) = true).
  { cbn [wf_node] in Hwfn. now apply andb_true_iff in Hwfn as [? _]. }
  pose proof (visitEntries_example fs b dir cur true d es Hl Hcur es stack) as Hloop.
  destruct (visitEntries fs b cur (map dirent_of es) stack) as [stack'|res].
  - intros H. apply (IH fs b dir stack' o Hwf); [|exact H].
    apply Hloop; [|exact Hstack]. intros [nm c] Hin. now apply find_entry_distinct.
  - intros [= <-]. right. apply Hloop; [|exact Hstack].
    intros [nm c] Hin. now apply find_entry_distinct.
Qed.

(** X5: the example of a result with [hasExtra: true] is ['unknown'], or the
    relative path of an entry that exists below the audited directory, has a
    name that is not ignored, is not a directory and, if it is a regular file,
    is not matched by the baseline. *)
Theorem dirHasExtraContent_example fs (dir : path) baselineDir res :
  wf_node fs = true ->
  dirHasExtraContent fs (Some dir) baselineDir = Some res ->
  hasExtra res = true ->
  res = unknownExtra \/
  exists rel, res = extra rel /\ extraEntry fs dir baselineDir rel.
Proof.
  intros Hwf. unfold dirHasExtraContent.
  destruct (existsSync fs dir); cbn [negb]; [|intros [= <-]; discriminate].
  destruct (walk (S (node_size fs)) fs baselineDir [mkFrame dir []]) as [o|] eqn:Hw;
    [|discriminate].
  pose proof (walk_example (S (node_size fs)) fs baselineDir dir [mkFrame dir []] o Hwf)
    as Hex.
  destruct o as [r|].
  - intros [= <-] Hx. destruct Hex as [->|Hex]; [| |discriminate|right; exact Hex].
    + constructor; [|constructor]. cbn. now rewrite app_nil_r.
    + exact Hw.
  - intros [= <-] _. now left.
Qed.

Lemma dirHasExtraContent_example_witness :
  extra ["wi.json"] = unknownExtra \/
  exists rel, extra ["wi.json"] = extra rel /\
              extraEntry sampleFs ["u"; "worlds"] (Some ["b"; "worlds"]) rel.
Proof.
  apply (dirHasExtraContent_example sampleFs ["u"; "worlds"] (Some ["b"; "worlds"]));
    reflexivity.
Defined.

Lemma checkKeys_missing fs ud bd : forall keys details0,
  (forall key, key ∈ keys -> categoryResult fs ud bd key = Some noExtra) ->
  exists res, checkKeys fs ud bd keys details0 = Some res /\
    isUnused res = true /\
    forall k, details res !! k =
              if decide (k ∈ keys) then Some noExtra else details0 !! k.
Proof.
  induction keys as [|key keys IH]; intros details0 Hall.
  - eexists. split; [reflexivity|]. split; [reflexivity|].
    intros k. cbn [details]. case_decide as Hk; [|reflexivity]. now apply elem_of_nil in Hk.
  - cbn [checkKeys]. fold (categoryResult fs ud bd key).
    rewrite (Hall key) by now left. cbn [hasExtra noExtra].
    destruct (IH (<[key := noExtra]> details0)) as (res & Hres & Hu & Hd).
    { intros k Hk. apply Hall. now right. }
    exists res. split; [exact Hres|]. split; [exact Hu|].
    intros k. rewrite Hd.
    destruct (decide (k = key)) as [->|Hne]; repeat case_decide;
      rewrite ?lookup_insert_eq, ?lookup_insert_ne by congruence;
      try congruence; exfalso; set_solver.
Qed.

(** X6: when none of the checked directories of a user exists (the key is absent
    or the path is missing), the user is unused whatever the baseline is, and
    every category of the checklist is reported without extra content. *)
Theorem checkUserIsUnused_missing fs ud bd :
  (forall key dir, key ∈ keysToCheck ->
     ud ≫= (fun d => d !! key) = Some dir -> existsSync fs dir = false) ->
  exists res, checkUserIsUnused fs ud bd = Some res /\
    isUnused res = true /\
    forall key, key ∈ keysToCheck -> details res !! key = Some noExtra.
Proof.
  intros Hmissing.
  destruct (checkKeys_missing fs ud bd keysToCheck ∅) as (res & Hres & Hu & Hd).
  { intros key Hin. unfold categoryResult, dirHasExtraContent.
    destruct (ud ≫= (fun d => d !! key)) as [dir|] eqn:E; [|reflexivity].
    now rewrite (Hmissing key dir Hin E). }
  exists res. split; [exact Hres|]. split; [exact Hu|].
  intros key Hin. now rewrite Hd, decide_True.
Qed.

Lemma checkUserIsUnused_missing_witness :
  exists res,
    checkUserIsUnused sampleFs (Some {[ "chats" := ["u"; "nowhere"] ]}) None = Some res /\
    isUnused res = true /\
    forall key, key ∈ keysToCheck -> details res !! key = Some noExtra.
Proof.
  apply checkUserIsUnused_missing. intros key dir _ H.
  destruct (decide (key = "chats")) as [->|Hne].
  - cbn in H. rewrite lookup_singleton_eq in H. injection H as <-. reflexivity.
  - cbn in H. rewrite lookup_singleton_ne in H by congruence. discriminate.
Defined.

End AuditMore.

(** ** The baseline of the scan *)

Module BaselineFacts.
Import Fs FsFacts Js Users Audit AuditFacts UsersAdmin Statements Trees Categories.
Import AuditMore ScanFacts.

Lemma assoc_In k v l : assoc k l = Some v -> In (k, v) l.
Proof.
  induction l as [|[k' v'] l IH]; cbn [assoc]; [discriminate|].
  destruct (String.eqb_spec k' k) as [->|]; [intros [= ->]; now left|].
  intros H. right. auto.
Qed.

Lemma baselineDirectories_entry env b key dir :
  baselineDirectories env = Some b -> b !! key = Some dir ->
  getUserDirectories env "default-template" !! key = Some dir /\
  exists cats categoryId,
    categories (templateInfo env) = Some cats /\ categoryId ∈ cats /\
    In (categoryId, key) categoryToDirKey.
Proof.
  unfold baselineDirectories. intros Hb Hkey.
  destruct (categories (templateInfo env)) as [cats|]; [|discriminate].
  destruct (_ && _); [|discriminate]. injection Hb as <-.
  apply map_lookup_filter_Some in Hkey as [Hdir Hk]. cbn [fst] in Hk.
  unfold activeDirKeys in Hk. apply list_elem_of_omap in Hk as (cat & Hcat & Ha).
  apply assoc_In in Ha. split; [exact Hdir|]. now exists cats, cat.
Qed.

Lemma categoryToDirKey_not_content categoryId key :
  In (categoryId, key) categoryToDirKey -> (key ∉ contentKeys) /\ key <> "root".
Proof.
  intros Ha. cbn in Ha. split.
  - intros Hin. unfold contentKeys in Hin.
    repeat (apply elem_of_cons in Hin as [->|Hin]; [intuition congruence|]).
    now apply elem_of_nil in Hin.
  - intros ->. intuition congruence.
Qed.


(** X7: the baseline has an entry only for a directory key of a category that the
    active template lists, and the entry is the directory of
    [default-template]; there is no baseline at all without a template or
    without categories; and no content key ([chats], [groupChats], [groups],
    [files], [comfyWorkflows], [userImages]) ever has a baseline. *)
Theorem baselineDirectories_keys env :
  (templateExists (templateInfo env) = false -> baselineDirectories env = None) /\
  (categories (templateInfo env) = None -> baselineDirectories env = None) /\
  (categories (templateInfo env) = Some [] -> baselineDirectories env = None) /\
  (forall b key dir,
     baselineDirectories env = Some b -> b !! key = Some dir ->
     getUserDirectories env "default-template" !! key = Some dir /\
     (exists cats categoryId,
        categories (templateInfo env) = Some cats /\ categoryId ∈ cats /\
        In (categoryId, key) categoryToDirKey) /\
     (key ∉ contentKeys) /\ key <> "root").
Proof.
  split; [|split; [|split]].
  - unfold baselineDirectories. intros ->. now destruct (categories (templateInfo env)).
  - unfold baselineDirectories. now intros ->.
  - unfold baselineDirectories. intros ->. now rewrite andb_false_r.
  - intros b key dir Hb Hkey.
    destruct (baselineDirectories_entry env b key dir Hb Hkey)
      as (Hdir & cats & cat & Hc & Hin & Ha).
    split; [exact Hdir|]. split; [now exists cats, cat|].
    now apply (categoryToDirKey_not_content cat).
Qed.

Lemma baselineDirectories_keys_witness :
  exists cats categoryId,
    categories (templateInfo Sample.env) = Some cats /\ categoryId ∈ cats /\
    In (categoryId, "instruct") categoryToDirKey.
Proof.
  destruct (proj2 (proj2 (proj2 (baselineDirectories_keys Sample.env)))
              (default ∅ (baselineDirectories Sample.env)) "instruct"
              ["data"; "default-template"; "instruct"]
              ltac:(vm_compute; reflexivity) ltac:(vm_compute; reflexivity))
    as (_ & H & _).
  exact H.
Defined.

(** What else a user that becomes a candidate went through: the storage cap
    and, when asked for, the audit. *)
Lemma scanUser_candidate_storage env criteria baseline w user c :
  scanUser env criteria baseline w user = Some (Some c) ->
  storageSizeOf w (getUserDirectories env (handle user)) = Some (cand_storageSize c) /\
  (forall cap, maxStorageBytes criteria = Some cap -> cand_storageSize c <= cap) /\
  (requireUnused criteria = true ->
     cand_isUnused c = Some true /\
     exists chk, checkUserIsUnused (fs w) (Some (getUserDirectories env (handle user)))
                   baseline = Some chk /\ isUnused chk = true) /\
  (requireUnused criteria = false -> cand_isUnused c = None).
Proof.
  unfold scanUser.
  destruct (String.eqb _ _); [discriminate|].
  destruct (String.eqb _ _); [discriminate|].
  destruct (admin user); [discriminate|].
  destruct (_ && _); [discriminate|].
  destruct (negb _); [discriminate|].
  destruct (storageSizeOf w (getUserDirectories env (handle user))) as [sz|]; [|discriminate].
  destruct (maxStorageBytes criteria) as [cap|].
  - destruct (Z.gtb_spec sz cap); [discriminate|].
    destruct (requireUnused criteria).
    + destruct (checkUserIsUnused _ _ _) as [chk|]; [|discriminate].
      destruct (isUnused chk) eqn:Hu; [|discriminate]. cbn [negb].
      intros [= <-]. cbn. repeat split; try discriminate; eauto.
      intros cap' [= <-]. lia.
    + intros [= <-]. cbn. repeat split; try discriminate.
      intros cap' [= <-]. lia.
  - destruct (requireUnused criteria).
    + destruct (checkUserIsUnused _ _ _) as [chk|]; [|discriminate].
      destruct (isUnused chk) eqn:Hu; [|discriminate]. cbn [negb].
      intros [= <-]. cbn. repeat split; try discriminate; eauto.
    + intros [= <-]. cbn. repeat split; discriminate.
Qed.



End BaselineFacts.

(** ** More on the scan of [/delete-inactive-users] *)

Module ScanMore.
Import Fs FsFacts Js Users DirectorySize Audit AuditFacts UsersAdmin Statements.
Import ScanFacts BaselineFacts.

(** The running total of the loop is the sum of the sizes of the candidates
    it pushed. *)
Lemma scanUsers_total_sum env criteria baseline w us : forall cands0 total0 cands total,
  scanUsers env criteria baseline w us cands0 total0 = Some (cands, total) ->
  exists new,
    cands = cands0 ++ new /\
    total = total0 + sumZ (map cand_storageSize new).
Proof.
  induction us as [|u us IH]; cbn [scanUsers]; intros cands0 total0 cands total H.
  - injection H as <- <-. exists []. rewrite app_nil_r. cbn. split; [reflexivity|lia].
  - destruct (scanUser env criteria baseline w u) as [[c|]|]; [| |discriminate].
    + apply IH in H as (new & -> & ->). exists (c :: new).
      rewrite <- app_assoc. unfold sumZ. cbn. split; [reflexivity|lia].
    + now apply IH in H.
Qed.

(** Every user the loop body makes a candidate is among the candidates. *)
Lemma scanUsers_complete env criteria baseline w us : forall cands0 total0 cands total,
  scanUsers env criteria baseline w us cands0 total0 = Some (cands, total) ->
  (forall c, In c cands0 -> In c cands) /\
  (forall u c, In u us -> scanUser env criteria baseline w u = Some (Some c) ->
     In c cands).
Proof.
  induction us as [|u us IH]; cbn [scanUsers]; intros cands0 total0 cands total H.
  - injection H as <- <-. split; [tauto|]. intros u c [].
  - destruct (scanUser env criteria baseline w u) as [[c|]|] eqn:Hu; [| |discriminate].
    + apply IH in H as [H0 H1]. split.
      * intros c' Hc'. apply H0, in_or_app. now left.
      * intros u' c' [<-|Hin] Hs.
        -- rewrite Hu in Hs. injection Hs as <-. apply H0, in_or_app. right. now left.
        -- now apply (H1 u').
    + apply IH in H as [H0 H1]. split; [exact H0|].
      intros u' c' [<-|Hin] Hs; [congruence|]. now apply (H1 u').
Qed.

(** The loop body on a user that meets every criterion. *)
Lemma scanUser_accepts env criteria baseline w user sz :
  ~ protected env user ->
  (excludeActiveSubscriptions criteria = true ->
     hasActiveSubscriptionAt (now env) user = false) ->
  now env - lastActivityTimeOf (loadStats w !! handle user) user
    > inactiveThreshold criteria ->
  storageSizeOf w (getUserDirectories env (handle user)) = Some sz ->
  (forall cap, maxStorageBytes criteria = Some cap -> sz <= cap) ->
  (requireUnused criteria = true ->
     exists chk, checkUserIsUnused (fs w) (Some (getUserDirectories env (handle user)))
                   baseline = Some chk /\ isUnused chk = true) ->
  exists c, scanUser env criteria baseline w user = Some (Some c) /\
            cand_handle c = handle user.
Proof.
  intros Hp Hsub Hold Hsz Hcap Hun. unfold scanUser.
  destruct (String.eqb_spec (handle user) (callerHandle env)) as [E|_].
  { exfalso. apply Hp. now left. }
  destruct (String.eqb_spec (handle user) (DEFAULT_USER_handle env)) as [E|_].
  { exfalso. apply Hp. right. now left. }
  destruct (admin user) eqn:Ha.
  { exfalso. apply Hp. right. now right. }
  destruct (excludeActiveSubscriptions criteria) eqn:Hex.
  - rewrite (Hsub eq_refl). cbn [andb].
    destruct (Z.gtb_spec (now env - lastActivityTimeOf (loadStats w !! handle user) user)
                (inactiveThreshold criteria)) as [_|Hle]; [|lia]. cbn [negb].
    rewrite Hsz.
    destruct (maxStorageBytes criteria) as [cap|] eqn:Hm.
    + destruct (Z.gtb_spec sz cap) as [Hgt|_]; [specialize (Hcap cap eq_refl); lia|].
      destruct (requireUnused criteria).
      * destruct (Hun eq_refl) as (chk & -> & ->). cbn. eauto.
      * eauto.
    + destruct (requireUnused criteria).
      * destruct (Hun eq_refl) as (chk & -> & ->). cbn. eauto.
      * eauto.
  - cbn [andb].
    destruct (Z.gtb_spec (now env - lastActivityTimeOf (loadStats w !! handle user) user)
                (inactiveThreshold criteria)) as [_|Hle]; [|lia]. cbn [negb].
    rewrite Hsz.
    destruct (maxStorageBytes criteria) as [cap|] eqn:Hm.
    + destruct (Z.gtb_spec sz cap) as [Hgt|_]; [specialize (Hcap cap eq_refl); lia|].
      destruct (requireUnused criteria).
      * destruct (Hun eq_refl) as (chk & -> & ->). cbn. eauto.
      * eauto.
    + destruct (requireUnused criteria).
      * destruct (Hun eq_refl) as (chk & -> & ->). cbn. eauto.
      * eauto.
Qed.

(** The remaining fields of a candidate. *)
Lemma scanUser_candidate_fields env criteria baseline w user c :
  scanUser env criteria baseline w user = Some (Some c) ->
  cand_name c = name user /\
  cand_hasEmail c = hasBoundEmail user /\
  cand_expiresAt c = truthyTime (expiresAt user) /\
  cand_hasActiveSubscription c = hasActiveSubscriptionAt (now env) user /\
  cand_daysSinceLastActivity c
    = (now env - cand_lastActivity c) / (24 * 60 * 60 * 1000).
Proof.
  unfold scanUser.
  destruct (String.eqb _ _); [discriminate|].
  destruct (String.eqb _ _); [discriminate|].
  destruct (admin user); [discriminate|].
  destruct (_ && _); [discriminate|].
  destruct (negb _); [discriminate|].
  destruct (storageSizeOf w (getUserDirectories env (handle user))) as [sz|]; [|discriminate].
  destruct (match maxStorageBytes criteria with Some _ => _ | None => _ end); [discriminate|].
  destruct (requireUnused criteria).
  - destruct (checkUserIsUnused _ _ _) as [chk|]; [|discriminate].
    destruct (negb _); [discriminate|]. intros [= <-]. cbn. tauto.
  - intros [= <-]. cbn. tauto.
Qed.

(** X9: the size a preview reports for a candidate is the size of the
    candidate's root directory at the time of the scan, it is within the cap
    of the criteria, and the total of the preview is the sum of the sizes of
    its candidates. *)
Theorem scan_storage env criteria w cands total :
  scan env criteria w = Some (cands, total) ->
  total = sumZ (map cand_storageSize cands) /\
  forall c, In c cands ->
    storageSizeOf w (getUserDirectories env (cand_handle c)) = Some (cand_storageSize c) /\
    (forall cap, maxStorageBytes criteria = Some cap -> cand_storageSize c <= cap).
Proof.
  intros Hscan. split.
  - unfold scan in Hscan. apply scanUsers_total_sum in Hscan as (new & -> & ->).
    rewrite app_nil_l. lia.
  - intros c Hc.
    destruct (scan_candidates _ _ _ _ _ Hscan c Hc) as (u & Hu & Hs).
    pose proof (scanUser_candidate _ _ _ _ _ _ Hs) as (Hh & _).
    apply scanUser_candidate_storage in Hs as (Hsz & Hcap & _).
    rewrite Hh. split; assumption.
Qed.

Lemma scan_storage_witness :
  7 = sumZ (map cand_storageSize
              [mkCandidate "carol" "Carol" Sample.day 99 7 true None false (Some true)]) /\
  forall c,
    In c [mkCandidate "carol" "Carol" Sample.day 99 7 true None false (Some true)] ->
    storageSizeOf Sample.world (getUserDirectories Sample.env (cand_handle c))
      = Some (cand_storageSize c) /\
    (forall cap, maxStorageBytes Sample.criteria = Some cap -> cand_storageSize c <= cap).
Proof.
  apply (scan_storage Sample.env Sample.criteria Sample.world). vm_compute. reflexivity.
Defined.

(** X10: the scan misses nobody: a stored account that is not protected, has no
    running subscription when those are excluded, was last active more than
    [inactiveDays] days ago, is within the storage cap and, when
    [requireUnused] is set, passes the audit, is a candidate. *)
Theorem scan_complete env criteria w cands total u :
  scan env criteria w = Some (cands, total) ->
  In u (storageValues w) ->
  ~ protected env u ->
  (excludeActiveSubscriptions criteria = true ->
     hasActiveSubscriptionAt (now env) u = false) ->
  now env - lastActivityTimeOf (loadStats w !! handle u) u
    > inactiveDays criteria * 24 * 60 * 60 * 1000 ->
  (forall cap sz, maxStorageBytes criteria = Some cap ->
     storageSizeOf w (getUserDirectories env (handle u)) = Some sz -> sz <= cap) ->
  (requireUnused criteria = true ->
     exists chk, checkUserIsUnused (fs w) (Some (getUserDirectories env (handle u)))
                   (baselineDirectories env) = Some chk /\ isUnused chk = true) ->
  In (handle u) (map cand_handle cands).
Proof.
  intros Hscan Hu Hp Hsub Hold Hcap Hun.
  destruct (storageSizeOf w (getUserDirectories env (handle u))) as [sz|] eqn:Hsz.
  - destruct (scanUser_accepts env criteria (baselineDirectories env) w u sz)
      as (c & Hc & Hh); try assumption.
    + intros cap Hm. now apply (Hcap cap sz).
    + unfold scan in Hscan. apply scanUsers_complete in Hscan as [_ Hall].
      rewrite <- Hh. apply in_map. now apply (Hall u).
  - exfalso. unfold scan in Hscan.
    assert (Hnone : scanUser env criteria (baselineDirectories env) w u = None).
    { unfold scanUser.
      destruct (String.eqb_spec (handle u) (callerHandle env)) as [E|_].
      { exfalso. apply Hp. now left. }
      destruct (String.eqb_spec (handle u) (DEFAULT_USER_handle env)) as [E|_].
      { exfalso. apply Hp. right. now left. }
      destruct (admin u) eqn:Ha.
      { exfalso. apply Hp. right. now right. }
      destruct (excludeActiveSubscriptions criteria) eqn:Hex.
      - rewrite (Hsub eq_refl). cbn [andb].
        destruct (Z.gtb_spec (now env - lastActivityTimeOf (loadStats w !! handle u) u)
                    (inactiveThreshold criteria)) as [_|Hle];
          [|unfold inactiveThreshold in Hle; lia].
        cbn [negb]. now rewrite Hsz.
      - cbn [andb].
        destruct (Z.gtb_spec (now env - lastActivityTimeOf (loadStats w !! handle u) u)
                    (inactiveThreshold criteria)) as [_|Hle];
          [|unfold inactiveThreshold in Hle; lia].
        cbn [negb]. now rewrite Hsz. }
    clear - Hscan Hu Hnone. revert Hscan. generalize (@nil Candidate) 0.
    induction (storageValues w) as [|u' us IH]; [destruct Hu|].
    intros cands0 total0. cbn [scanUsers]. destruct Hu as [->|Hu].
    + now rewrite Hnone.
    + destruct (scanUser env criteria (baselineDirectories env) w u') as [[c|]|];
        [| |discriminate]; now apply IH.
Qed.

Lemma scan_complete_witness :
  In "carol" (map cand_handle
                [mkCandidate "carol" "Carol" Sample.day 99 7 true None false (Some true)]).
Proof.
  apply (scan_complete Sample.env Sample.criteria Sample.world _ 7
           (mkUser "carol" "Carol" (Some Sample.day) false true None (Some "c@x.org"))).
  - vm_compute. reflexivity.
  - apply (proj2 (storageValues_lookup _ _)). exists "carol". vm_compute. reflexivity.
  - intros [H|[H|H]]; discriminate H.
  - reflexivity.
  - vm_compute. reflexivity.
  - intros cap sz H. discriminate H.
  - intros _.
    exists (default (mkUnusedCheck false ∅)
              (checkUserIsUnused (fs Sample.world)
                 (Some (getUserDirectories Sample.env "carol"))
                 (baselineDirectories Sample.env))).
    split; vm_compute; reflexivity.
Defined.

(** The candidates of the loop come in the order of the users. *)
Lemma scanUsers_sublist env criteria baseline w us : forall cands0 total0 cands total,
  scanUsers env criteria baseline w us cands0 total0 = Some (cands, total) ->
  exists new,
    cands = cands0 ++ new /\
    map cand_handle new `sublist_of` map handle us.
Proof.
  induction us as [|u us IH]; cbn [scanUsers]; intros cands0 total0 cands total H.
  - injection H as <- <-. exists []. rewrite app_nil_r. split; [reflexivity|constructor].
  - destruct (scanUser env criteria baseline w u) as [[c|]|] eqn:Hu; [| |discriminate].
    + apply IH in H as (new & -> & Hsub). exists (c :: new).
      rewrite <- app_assoc. split; [reflexivity|]. cbn [map].
      apply scanUser_candidate in Hu as (-> & _). now apply sublist_skip.
    + apply IH in H as (new & -> & Hsub). exists new. split; [reflexivity|].
      cbn [map]. now apply sublist_cons.
Qed.

Lemma storageValues_handles w :
  store_consistent w -> map handle (storageValues w) = map fst (map_to_list (users w)).
Proof.
  intros Hc. unfold storageValues. rewrite map_map. apply map_ext_in.
  intros [k u] Hin. cbn. apply list_elem_of_In, elem_of_map_to_list in Hin. now apply Hc.
Qed.

(** X11: no account is listed twice: in a store that keeps every record under its
    own handle, the handles of the candidates are pairwise distinct, and they
    come in the order in which the store lists the accounts. *)
Theorem scan_handles_distinct env criteria w cands total :
  store_consistent w ->
  scan env criteria w = Some (cands, total) ->
  NoDup (map cand_handle cands) /\
  map cand_handle cands `sublist_of` map handle (storageValues w).
Proof.
  intros Hc Hscan. unfold scan in Hscan.
  apply scanUsers_sublist in Hscan as (new & -> & Hsub). rewrite app_nil_l.
  split; [|exact Hsub].
  eapply sublist_NoDup; [|exact Hsub]. rewrite (storageValues_handles w Hc).
  apply NoDup_fst_map_to_list.
Qed.

Lemma scan_handles_distinct_witness :
  NoDup (map cand_handle
           [mkCandidate "carol" "Carol" Sample.day 99 7 true None false (Some true)]) /\
  map cand_handle
    [mkCandidate "carol" "Carol" Sample.day 99 7 true None false (Some true)]
    `sublist_of` map handle (storageValues Sample.world).
Proof.
  apply (scan_handles_distinct Sample.env Sample.criteria Sample.world _ 7).
  - apply store_consistentb_spec. vm_compute. reflexivity.
  - vm_compute. reflexivity.
Defined.

(** X12: what a preview says about a candidate: the name, the e-mail flag and the
    expiry of its account; the whole days since its last activity, which are
    at least [inactiveDays]; no running subscription when those are excluded;
    and the audit flag, [true] when [requireUnused] is set and absent
    otherwise. *)
Theorem scan_candidate_report env criteria w cands total :
  scan env criteria w = Some (cands, total) ->
  forall c, In c cands ->
    (exists u, In u (storageValues w) /\ cand_handle c = handle u /\
       cand_name c = name u /\
       cand_hasEmail c = hasBoundEmail u /\
       cand_expiresAt c = truthyTime (expiresAt u) /\
       cand_hasActiveSubscription c = hasActiveSubscriptionAt (now env) u) /\
    cand_daysSinceLastActivity c = (now env - cand_lastActivity c) / (24 * 60 * 60 * 1000) /\
    inactiveDays criteria <= cand_daysSinceLastActivity c /\
    (excludeActiveSubscriptions criteria = true -> cand_hasActiveSubscription c = false) /\
    cand_isUnused c = (if requireUnused criteria then Some true else None).
Proof.
  intros Hscan c Hc.
  destruct (scan_candidates _ _ _ _ _ Hscan c Hc) as (u & Hu & Hs).
  pose proof (scanUser_candidate _ _ _ _ _ _ Hs) as (Hh & _ & _ & _ & Hsub & _ & Hold).
  pose proof (scanUser_candidate_fields _ _ _ _ _ _ Hs) as (Hn & He & Hx & Ha & Hd).
  pose proof (scanUser_candidate_storage _ _ _ _ _ _ Hs) as (_ & _ & Hreq & Hnreq).
  split; [exists u; tauto|]. split; [exact Hd|]. split; [|split].
  - rewrite Hd. unfold inactiveThreshold in Hold.
    apply Z.div_le_lower_bound; lia.
  - intros Hex. rewrite Ha. now apply Hsub.
  - destruct (requireUnused criteria).
    + now destruct (Hreq eq_refl).
    + now apply Hnreq.
Qed.

Lemma scan_candidate_report_witness :
  inactiveDays Sample.criteria
    <= cand_daysSinceLastActivity
         (mkCandidate "carol" "Carol" Sample.day 99 7 true None false (Some true)).
Proof.
  apply (scan_candidate_report Sample.env Sample.criteria Sample.world _ 7
           ltac:(vm_compute; reflexivity)
           (mkCandidate "carol" "Carol" Sample.day 99 7 true None false (Some true))).
  left. reflexivity.
Defined.

End ScanMore.

(** ** The criteria of [/delete-inactive-users] *)

Module CriteriaFacts.
Import Js Users UsersAdmin Statements.

Lemma Qltb_false a b : Qltb a b = false -> (b <= a)%Q.
Proof.
  unfold Qltb. intros H. apply negb_false_iff in H. now apply Qle_bool_iff.
Qed.

(** X13: criteria that are accepted are within their bounds: [inactiveDays] is a
    whole number from 1 to 3650, so the threshold is at least one day; a
    storage cap is the number the request gave, it is not negative and
    neither is the cap in bytes; [requireUnused] is set by the boolean [true]
    only, and subscriptions are excluded unless the request says [false]. *)
Theorem parseCriteria_bounds rt body c :
  parseCriteria rt body = inr c ->
  1 <= inactiveDays c <= 3650 /\
  24 * 60 * 60 * 1000 <= inactiveThreshold c /\
  (forall mb, maxStorageMB c = Some mb ->
     toNumber rt (body_maxStorageMB body) = Finite mb /\ (0 <= mb)%Q) /\
  (forall cap, maxStorageBytes c = Some cap -> 0 <= cap) /\
  (requireUnused c = true <-> body_requireUnused body = Bool true) /\
  (excludeActiveSubscriptions c = false <->
     body_excludeActiveSubscriptions body = Bool false).
Proof.
  unfold parseCriteria.
  destruct (floor _) as [| |days] eqn:Hfloor; try discriminate.
  destruct (Qltb days 1) eqn:Hlo; [discriminate|].
  destruct (Qltb 3650 days) eqn:Hhi; [discriminate|]. cbn [orb].
  apply Qltb_false in Hlo, Hhi.
  assert (Hdays : 1 <= Qfloor days <= 3650).
  { split.
    - change 1 with (Qfloor 1). now apply Qfloor_resp_le.
    - change 3650 with (Qfloor 3650). now apply Qfloor_resp_le. }
  assert (Hflags : forall mb,
    let c := mkCriteria (Qfloor days)
               match body_requireUnused body with Bool true => true | _ => false end mb
               match body_excludeActiveSubscriptions body with
               | Bool false => false | _ => true end in
    (requireUnused c = true <-> body_requireUnused body = Bool true) /\
    (excludeActiveSubscriptions c = false <->
       body_excludeActiveSubscriptions body = Bool false)).
  { intros mb. cbn. split.
    - destruct (body_requireUnused body) as [| |[]| | |]; split; congruence.
    - destruct (body_excludeActiveSubscriptions body) as [| |[]| | |]; split; congruence. }
  assert (Hnone : forall c',
    c' = mkCriteria (Qfloor days)
           match body_requireUnused body with Bool true => true | _ => false end None
           match body_excludeActiveSubscriptions body with
           | Bool false => false | _ => true end ->
    1 <= inactiveDays c' <= 3650 /\
    24 * 60 * 60 * 1000 <= inactiveThreshold c' /\
    (forall mb, maxStorageMB c' = Some mb ->
       toNumber rt (body_maxStorageMB body) = Finite mb /\ (0 <= mb)%Q) /\
    (forall cap, maxStorageBytes c' = Some cap -> 0 <= cap) /\
    (requireUnused c' = true <-> body_requireUnused body = Bool true) /\
    (excludeActiveSubscriptions c' = false <->
       body_excludeActiveSubscriptions body = Bool false)).
  { intros c' ->. split; [exact Hdays|]. split; [unfold inactiveThreshold; cbn; lia|].
    split; [discriminate|]. split; [discriminate|]. apply (Hflags None). }
  assert (Hsome : forall parsed,
    toNumber rt (body_maxStorageMB body) = Finite parsed ->
    (if Qltb parsed 0 then inl InvalidMaxStorageMB
     else inr (mkCriteria (Qfloor days)
                 match body_requireUnused body with Bool true => true | _ => false end
                 (Some parsed)
                 match body_excludeActiveSubscriptions body with
                 | Bool false => false | _ => true end)) = inr c ->
    1 <= inactiveDays c <= 3650 /\
    24 * 60 * 60 * 1000 <= inactiveThreshold c /\
    (forall mb, maxStorageMB c = Some mb ->
       toNumber rt (body_maxStorageMB body) = Finite mb /\ (0 <= mb)%Q) /\
    (forall cap, maxStorageBytes c = Some cap -> 0 <= cap) /\
    (requireUnused c = true <-> body_requireUnused body = Bool true) /\
    (excludeActiveSubscriptions c = false <->
       body_excludeActiveSubscriptions body = Bool false)).
  { intros parsed Hn. destruct (Qltb parsed 0) eqn:Hneg; [discriminate|].
    apply Qltb_false in Hneg. intros [= <-].
    split; [exact Hdays|]. split; [unfold inactiveThreshold; cbn; lia|].
    split; [intros mb [= <-]; now split|]. split; [|apply (Hflags (Some parsed))].
    unfold maxStorageBytes. cbn [maxStorageMB option_map]. intros cap Hcap.
    assert (cap = Qfloor (parsed * 1024 * 1024)) as -> by congruence.
    change 0 with (Qfloor 0). apply Qfloor_resp_le.
    apply Qmult_le_0_compat; [apply Qmult_le_0_compat|]; [exact Hneg|discriminate|discriminate]. }
  destruct (body_maxStorageMB body) as [| |b|q|s|s] eqn:Hraw.
  - intros [= <-]. now apply Hnone.
  - intros [= <-]. now apply Hnone.
  - cbn [notBlank]. destruct (toNumber rt (Bool b)) as [| |parsed] eqn:Hn; try discriminate.
    now apply Hsome.
  - cbn [notBlank]. destruct (toNumber rt (Num q)) as [| |parsed] eqn:Hn; try discriminate.
    now apply Hsome.
  - cbn [notBlank]. destruct (hasText s).
    + destruct (toNumber rt (Str s)) as [| |parsed] eqn:Hn; try discriminate.
      now apply Hsome.
    + intros [= <-]. now apply Hnone.
  - cbn [notBlank]. destruct (hasText s).
    + destruct (toNumber rt (Obj s)) as [| |parsed] eqn:Hn; try discriminate.
      now apply Hsome.
    + intros [= <-]. now apply Hnone.
Qed.

Lemma parseCriteria_bounds_witness :
  1 <= inactiveDays Sample.criteria <= 3650 /\
  24 * 60 * 60 * 1000 <= inactiveThreshold Sample.criteria.
Proof.
  destruct (parseCriteria_bounds Sample.rt Sample.scanBody Sample.criteria
              ltac:(vm_compute; reflexivity)) as (H1 & H2 & _).
  split; [exact H1|exact H2].
Defined.

Lemma Qltb_inject_Z z k : Qltb (inject_Z z) (inject_Z k) = (z <? k).
Proof.
  unfold Qltb. destruct (Z.ltb_spec z k) as [Hlt|Hle].
  - apply negb_true_iff. destruct (Qle_bool (inject_Z k) (inject_Z z)) eqn:E; [|reflexivity].
    apply Qle_bool_iff in E. rewrite <- Zle_Qle in E. lia.
  - apply negb_false_iff. apply Qle_bool_iff. rewrite <- Zle_Qle. exact Hle.
Qed.

Lemma Qfloor_range q lo hi :
  lo <= Qfloor q <= hi <-> (inject_Z lo <= q)%Q /\ (q < inject_Z (hi + 1))%Q.
Proof.
  split.
  - intros [Hlo Hhi]. split.
    + apply Qle_trans with (inject_Z (Qfloor q)); [now rewrite <- Zle_Qle|apply Qfloor_le].
    + apply Qlt_le_trans with (inject_Z (Qfloor q + 1)); [apply Qlt_floor|].
      rewrite <- Zle_Qle. lia.
  - intros [Hlo Hhi]. split.
    + rewrite <- (Qfloor_Z lo). now apply Qfloor_resp_le.
    + assert (H : (inject_Z (Qfloor q) < inject_Z (hi + 1))%Q)
        by (apply Qle_lt_trans with q; [apply Qfloor_le|exact Hhi]).
      rewrite <- Zlt_Qlt in H. lia.
Qed.

(** X14: which [inactiveDays] are accepted: the field is converted by [Number()],
    60 standing in for an absent or [null] field, and rounded down before it
    is checked.  A number from 1 up to, but not including, 3651 passes the
    check and the criteria carry it rounded down; any other number, [NaN]
    and the infinities are rejected. *)
Theorem parseCriteria_inactiveDays rt body :
  let raw := match body_inactiveDays body with
             | Undefined | Null => Num 60
             | v => v
             end in
  (forall q, toNumber rt raw = Finite q ->
     (1 <= q)%Q -> (q < 3651)%Q ->
     parseCriteria rt body <> inl InvalidInactiveDays /\
     forall c, parseCriteria rt body = inr c -> inactiveDays c = Qfloor q) /\
  (forall q, toNumber rt raw = Finite q ->
     ~ ((1 <= q)%Q /\ (q < 3651)%Q) ->
     parseCriteria rt body = inl InvalidInactiveDays) /\
  (isFinite (toNumber rt raw) = false ->
     parseCriteria rt body = inl InvalidInactiveDays) /\
  (body_inactiveDays body = Undefined \/ body_inactiveDays body = Null ->
     forall c, parseCriteria rt body = inr c -> inactiveDays c = 60).
Proof.
  intros raw.
  assert (Hfin : forall q, toNumber rt raw = Finite q ->
    parseCriteria rt body =
    if Qltb (inject_Z (Qfloor q)) 1 || Qltb 3650 (inject_Z (Qfloor q))
    then inl InvalidInactiveDays
    else
      let finish (maxStorageMB : option Q) :=
        inr (mkCriteria (Qfloor (inject_Z (Qfloor q)))
               match body_requireUnused body with Bool true => true | _ => false end
               maxStorageMB
               match body_excludeActiveSubscriptions body with
               | Bool false => false | _ => true end) in
      match body_maxStorageMB body with
      | Null | Undefined => finish None
      | rawMB =>
          if notBlank rawMB then
            match toNumber rt rawMB with
            | Finite parsed =>
                if Qltb parsed 0 then inl InvalidMaxStorageMB
                else finish (Some parsed)
            | _ => inl InvalidMaxStorageMB
            end
          else finish None
      end).
  { intros q Hq. unfold parseCriteria. fold raw. rewrite Hq. reflexivity. }
  assert (Hdec : forall q,
    Qltb (inject_Z (Qfloor q)) 1 || Qltb 3650 (inject_Z (Qfloor q)) = false <->
    (1 <= q)%Q /\ (q < 3651)%Q).
  { intros q. change 1%Q with (inject_Z 1). change 3650%Q with (inject_Z 3650).
    rewrite !Qltb_inject_Z. change 3651%Q with (inject_Z (3650 + 1)).
    rewrite <- Qfloor_range, orb_false_iff, !Z.ltb_ge. reflexivity. }
  assert (Hin : forall q, toNumber rt raw = Finite q -> (1 <= q)%Q -> (q < 3651)%Q ->
    parseCriteria rt body <> inl InvalidInactiveDays /\
    forall c, parseCriteria rt body = inr c -> inactiveDays c = Qfloor q).
  { intros q Hq Hlo Hhi. rewrite (Hfin q Hq).
    rewrite (proj2 (Hdec q) (conj Hlo Hhi)). cbv zeta. rewrite Qfloor_Z.
    destruct (body_maxStorageMB body) as [| |b|x|s|s];
      repeat match goal with
             | |- context [if ?b then _ else _] => destruct b
             | |- context [match toNumber ?r ?v with _ => _ end] => destruct (toNumber r v)
             end;
      (split; [discriminate|]); intros c Hc; try discriminate Hc;
      injection Hc as <-; reflexivity. }
  split; [exact Hin|]. split; [|split].
  - intros q Hq Hout. rewrite (Hfin q Hq).
    destruct (Qltb (inject_Z (Qfloor q)) 1 || Qltb 3650 (inject_Z (Qfloor q))) eqn:E;
      [reflexivity|]. now apply Hdec in E.
  - intros Hnf. unfold parseCriteria. fold raw.
    destruct (toNumber rt raw) as [|neg|q]; [reflexivity|reflexivity|discriminate].
  - intros Habsent c Hc.
    assert (Hraw : toNumber rt raw = Finite 60)
      by (unfold raw; destruct Habsent as [-> | ->]; reflexivity).
    destruct (Hin 60%Q Hraw) as [_ Hval]; [discriminate|reflexivity|].
    now rewrite (Hval c Hc).
Qed.

Lemma parseCriteria_inactiveDays_witness :
  parseCriteria Sample.rt Sample.scanBody <> inl InvalidInactiveDays /\
  forall c, parseCriteria Sample.rt Sample.scanBody = inr c -> inactiveDays c = Qfloor 60.
Proof.
  apply (proj1 (parseCriteria_inactiveDays Sample.rt Sample.scanBody) 60%Q).
  - reflexivity.
  - discriminate.
  - reflexivity.
Defined.

End CriteriaFacts.

(** ** Removal of a tree *)

Module RmFacts.
Import Fs FsFacts.

Lemma find_entry_filter_ne nm nm' es :
  nm' <> nm ->
  find_entry nm' (List.filter (fun e => negb (String.eqb (fst e) nm)) es)
    = find_entry nm' es.
Proof.
  intros Hne. induction es as [|[n c] es IH]; [reflexivity|]. cbn.
  destruct (String.eqb_spec n nm) as [->|Hn]; cbn.
  - destruct (String.eqb_spec nm nm'); [congruence|exact IH].
  - destruct (String.eqb n nm'); [reflexivity|exact IH].
Qed.

Lemma find_entry_filter_eq nm es :
  find_entry nm (List.filter (fun e => negb (String.eqb (fst e) nm)) es) = None.
Proof.
  induction es as [|[n c] es IH]; [reflexivity|]. cbn.
  destruct (String.eqb_spec n nm) as [->|Hn]; cbn; [exact IH|].
  destruct (String.eqb_spec n nm); [congruence|exact IH].
Qed.

Lemma find_entry_map nm nm' (f : node -> node) es :
  find_entry nm' (map (fun e => if String.eqb (fst e) nm then (fst e, f (snd e)) else e) es)
    = if String.eqb nm nm' then option_map f (find_entry nm' es) else find_entry nm' es.
Proof.
  induction es as [|[n c] es IH].
  - cbn. now destruct (String.eqb nm nm').
  - cbn [map fst snd]. destruct (String.eqb_spec n nm) as [->|Hn]; cbn [find_entry].
    + destruct (String.eqb_spec nm nm') as [->|Hne]; [reflexivity|].
      rewrite IH. now destruct (String.eqb_spec nm nm').
    + destruct (String.eqb_spec n nm') as [->|Hn'].
      * now destruct (String.eqb_spec nm nm'); [congruence|].
      * exact IH.
Qed.

(** What [rm] does on a directory, by the shape of the path. *)
Lemma rm_Dir r d es nm p :
  rm (Dir r d es) (nm :: p) =
  match p with
  | [] => Dir r d (List.filter (fun e => negb (String.eqb (fst e) nm)) es)
  | _ => Dir r d (map (fun e => if String.eqb (fst e) nm
                                then (fst e, rm (snd e) p) else e) es)
  end.
Proof. now destruct p. Qed.

Lemma rm_not_Dir n p : (forall r d es, n <> Dir r d es) -> rm n p = n.
Proof.
  intros Hn. destruct p as [|nm [|nm' p]]; destruct n; try reflexivity;
    now edestruct Hn.
Qed.

(** The removed path is gone. *)
Lemma lookup_rm_gone p : forall n, p <> [] -> lookup (rm n p) p = None.
Proof.
  induction p as [|nm p IH]; intros n Hp; [congruence|].
  destruct n as [sz|r d es|t];
    [now rewrite rm_not_Dir by (intros; discriminate)|
    |now rewrite rm_not_Dir by (intros; discriminate)].
  rewrite rm_Dir. destruct p as [|nm' p'].
  - cbn [lookup]. now rewrite find_entry_filter_eq.
  - cbn [lookup]. rewrite (find_entry_map nm nm (fun n => rm n (nm' :: p'))), String.eqb_refl.
    destruct (find_entry nm es) as [c|]; [|reflexivity]. cbn [option_map].
    now apply IH.
Qed.

(** A path that neither lies below the removed one nor leads to it resolves
    as before. *)
Lemma lookup_rm_other p : forall n q,
  ~ p `prefix_of` q -> ~ q `prefix_of` p -> lookup (rm n p) q = lookup n q.
Proof.
  induction p as [|nm p IH]; intros n q Hq Hp; [now destruct n|].
  destruct q as [|nm' q]; [exfalso; apply Hp, prefix_nil|].
  destruct n as [sz|r d es|t];
    [now rewrite rm_not_Dir by (intros; discriminate)|
    |now rewrite rm_not_Dir by (intros; discriminate)].
  rewrite rm_Dir. destruct p as [|nm2 p'].
  - cbn [lookup]. rewrite find_entry_filter_ne; [reflexivity|].
    intros ->. apply Hq. now apply prefix_cons, prefix_nil.
  - cbn [lookup]. rewrite (find_entry_map nm nm' (fun n => rm n (nm2 :: p'))).
    destruct (String.eqb_spec nm nm') as [->|Hne]; [|reflexivity].
    destruct (find_entry nm' es) as [c|]; [|reflexivity]. cbn [option_map].
    apply IH.
    + intros Hpre. apply Hq. now apply prefix_cons.
    + intros Hpre. apply Hp. now apply prefix_cons.
Qed.

End RmFacts.

(** ** More on the execution pass of [/delete-inactive-users] *)

Module ExecMore.
Import Fs FsFacts Js Users DirectorySize UsersAdmin Statements ScanFacts ExecFacts RmFacts.


(** The removals of a candidate, complete or not, leave the records of the
    other accounts alone, and the tree either as it is or without the root
    directory of the candidate. *)
Lemma removeCandidate_frame env c w :
  let w' := snd (removeCandidate env c w) in
  (forall h, h <> cand_handle c ->
     users w' !! h = users w !! h /\ avatars w' !! h = avatars w !! h /\
     loadStats w' !! h = loadStats w !! h) /\
  (fs w' = fs w \/
   exists root, rootOf (getUserDirectories env (cand_handle c)) = Some root /\
                fs w' = rm (fs w) root).
Proof.
  unfold removeCandidate, bind, removeItem, removeAvatar, resetUserStats.
  destruct (removeItem_error env (cand_handle c)); [cbn; tauto|].
  destruct (removeAvatar_error env (cand_handle c)).
  { cbn. split; [|tauto]. intros h Hh. now rewrite lookup_delete_ne by congruence. }
  cbn [fs].
  destruct (rootOf (getUserDirectories env (cand_handle c))) as [root|].
  - destruct (existsSync (fs w) root); cbn [when].
    + unfold rmTree. cbn [fs users avatars loadStats].
      destruct (rm_error env root).
      { cbn. split; [|tauto]. intros h Hh. now rewrite !lookup_delete_ne by congruence. }
      destruct (resetUserStats_error env (cand_handle c)); cbn.
      * split; [|eauto]. intros h Hh. now rewrite !lookup_delete_ne by congruence.
      * split; [|eauto]. intros h Hh. now rewrite !lookup_delete_ne by congruence.
    + unfold ret.
      destruct (resetUserStats_error env (cand_handle c)); cbn.
      * split; [|tauto]. intros h Hh. now rewrite !lookup_delete_ne by congruence.
      * split; [|tauto]. intros h Hh. now rewrite !lookup_delete_ne by congruence.
  - unfold ret.
    destruct (resetUserStats_error env (cand_handle c)); cbn.
    + split; [|tauto]. intros h Hh. now rewrite !lookup_delete_ne by congruence.
    + split; [|tauto]. intros h Hh. now rewrite !lookup_delete_ne by congruence.
Qed.

(** The world after the body of the loop is the world before it or the one
    after the removals. *)
Lemma deleteCandidate_world env criteria c w :
  snd (deleteCandidate env criteria c w) = w \/
  snd (deleteCandidate env criteria c w) = snd (removeCandidate env c w).
Proof.
  unfold deleteCandidate, getItem.
  destruct (getItem_error env (cand_handle c)); [now left|].
  destruct (users w !! cand_handle c) as [user|]; [|now left].
  destruct (_ || _); [now left|].
  destruct (_ && _); [now left|].
  destruct (notify env user c) as [[n e]|msg]; [|now left].
  right. now destruct (removeCandidate env c w) as [[u|msg] w2].
Qed.




(** The body of the loop adds no record and touches none but the
    candidate's. *)
Lemma deleteCandidate_frame env criteria c w :
  let w' := snd (deleteCandidate env criteria c w) in
  (forall h, h <> cand_handle c ->
     users w' !! h = users w !! h /\ avatars w' !! h = avatars w !! h /\
     loadStats w' !! h = loadStats w !! h) /\
  (fs w' = fs w \/
   exists root, rootOf (getUserDirectories env (cand_handle c)) = Some root /\
                fs w' = rm (fs w) root).
Proof.
  destruct (deleteCandidate_world env criteria c w) as [-> | ->].
  - cbn. tauto.
  - apply removeCandidate_frame.
Qed.

(** X16: the execution pass touches nothing but the candidates: the account
    record, the avatar record and the statistics of an account that is not
    among the candidates are after the pass what they were before it, and so
    is every file-system object that neither lies below the root directory
    of a candidate nor leads to it. *)
Theorem execution_frame env criteria cands : forall w results0 total0,
  let w' := snd (deleteCandidates env criteria cands w results0 total0) in
  (forall h, ~ In h (map cand_handle cands) ->
     users w' !! h = users w !! h /\ avatars w' !! h = avatars w !! h /\
     loadStats w' !! h = loadStats w !! h) /\
  (forall q,
     (forall c root, In c cands ->
        rootOf (getUserDirectories env (cand_handle c)) = Some root ->
        ~ root `prefix_of` q /\ ~ q `prefix_of` root) ->
     lookup (fs w') q = lookup (fs w) q).
Proof.
  induction cands as [|c cands IH]; intros w results0 total0; cbn [deleteCandidates].
  - cbn. tauto.
  - pose proof (deleteCandidate_frame env criteria c w) as [Hrec Hfs].
    destruct (deleteCandidate env criteria c w) as [r w1]. cbn [snd] in Hrec, Hfs.
    specialize (IH w1 (results0 ++ [r])
                  (if res_success r then total0 + cand_storageSize c else total0)).
    destruct IH as [IHrec IHfs]. split.
    + intros h Hh. cbn [map] in Hh.
      destruct (IHrec h) as (-> & -> & ->); [intros Hin; apply Hh; now right|].
      apply Hrec. intros ->. apply Hh. now left.
    + intros q Hq. rewrite IHfs by (intros c' root Hc'; apply Hq; now right).
      destruct Hfs as [->|(root & Hroot & ->)]; [reflexivity|].
      destruct (Hq c root (or_introl eq_refl) Hroot) as [H1 H2].
      now apply lookup_rm_other.
Qed.

Lemma execution_frame_witness :
  let w' := snd (deleteCandidates Sample.env Sample.criteria
                   [mkCandidate "carol" "Carol" Sample.day 99 7 true None false (Some true)]
                   Sample.world [] 0) in
  users w' !! "dave" = users Sample.world !! "dave" /\
  lookup (fs w') ["data"; "dave"; "chats"]
    = lookup (fs Sample.world) ["data"; "dave"; "chats"].
Proof.
  intros w'.
  destruct (execution_frame Sample.env Sample.criteria
              [mkCandidate "carol" "Carol" Sample.day 99 7 true None false (Some true)]
              Sample.world [] 0) as [Hrec Hfs].
  split.
  - apply Hrec. intros [H|[]]. discriminate H.
  - apply Hfs. intros c root [<-|[]] Hroot.
    assert (root = ["data"; "carol"]) as -> by (vm_compute in Hroot; congruence).
    split; intros [k Hk]; discriminate Hk.
Defined.

(** X17: the execution pass checks again what the scan checked: a candidate whose
    record is gone by the time of the pass is reported as not found, and a
    candidate that has meanwhile been made an admin or, when subscriptions
    are excluded, has by then a running subscription is reported as a
    failure; in each case nothing is removed. *)
Theorem deleteCandidate_revalidation env criteria c w :
  getItem_error env (cand_handle c) = None ->
  (users w !! cand_handle c = None ->
     deleteCandidate env criteria c w = (failure c "User not found" None None, w)) /\
  (forall user, users w !! cand_handle c = Some user ->
     admin user = true ->
     deleteCandidate env criteria c w
       = (failure c "Protected user cannot be deleted" None None, w)) /\
  (forall user, users w !! cand_handle c = Some user ->
     cand_handle c <> callerHandle env ->
     cand_handle c <> DEFAULT_USER_handle env ->
     admin user = false ->
     excludeActiveSubscriptions criteria = true ->
     hasActiveSubscriptionAt (nowAt env (cand_handle c)) user = true ->
     deleteCandidate env criteria c w
       = (failure c "User has active subscription" None None, w)).
Proof.
  intros Hget. unfold deleteCandidate, getItem. rewrite Hget. split; [|split].
  - now intros ->.
  - intros user -> ->. now rewrite !orb_true_r.
  - intros user -> Hc Hd -> -> ->.
    apply String.eqb_neq in Hc, Hd. now rewrite Hc, Hd.
Qed.

Lemma deleteCandidate_revalidation_witness :
  deleteCandidate Sample.env Sample.criteria
      (mkCandidate "dave" "Dave" Sample.day 99 100 false (Some (200 * Sample.day)) true None)
      Sample.world
    = (failure
         (mkCandidate "dave" "Dave" Sample.day 99 100 false (Some (200 * Sample.day)) true None)
         "User has active subscription" None None, Sample.world).
Proof.
  apply (proj2 (proj2 (deleteCandidate_revalidation Sample.env Sample.criteria
                         (mkCandidate "dave" "Dave" Sample.day 99 100 false
                            (Some (200 * Sample.day)) true None)
                         Sample.world eq_refl))
           (mkUser "dave" "Dave" (Some Sample.day) false true (Some (200 * Sample.day)) None));
    try reflexivity; try discriminate.
Defined.

(** The sizes of the report. *)
Lemma deleteCandidate_deletedSize env criteria c w :
  let r := fst (deleteCandidate env criteria c w) in
  res_deletedSize r = if res_success r then Some (cand_storageSize c) else None.
Proof.
  unfold deleteCandidate, getItem.
  destruct (getItem_error env (cand_handle c)); [reflexivity|].
  destruct (users w !! cand_handle c) as [user|]; [|reflexivity].
  destruct (_ || _); [reflexivity|].
  destruct (_ && _); [reflexivity|].
  destruct (notify env user c) as [[n e]|msg]; [|reflexivity].
  now destruct (removeCandidate env c w) as [[u|msg] w2].
Qed.

Lemma deleteCandidates_total env criteria cands : forall w results0 total0,
  let out := deleteCandidates env criteria cands w results0 total0 in
  exists new,
    fst (fst out) = results0 ++ new /\
    snd (fst out) = total0 + sumZ (map (fun r => default 0 (res_deletedSize r)) new) /\
    Forall (fun r => exists c, In c cands /\ res_handle r = cand_handle c /\
                      res_deletedSize r
                        = if res_success r then Some (cand_storageSize c) else None) new /\
    sumZ (map (fun r => default 0 (res_deletedSize r)) new)
      = sumZ (map (fun r => default 0 (res_deletedSize r)) (List.filter res_success new)).
Proof.
  induction cands as [|c cands IH]; intros w results0 total0; cbn [deleteCandidates].
  - exists []. rewrite app_nil_r. cbn. repeat split; [lia|constructor].
  - pose proof (deleteCandidate_deletedSize env criteria c w) as Hsz.
    pose proof (deleteCandidate_entry env criteria c w) as (Hh & _).
    destruct (deleteCandidate env criteria c w) as [r w1]. cbn [fst] in Hsz, Hh.
    destruct (IH w1 (results0 ++ [r])
                (if res_success r then total0 + cand_storageSize c else total0))
      as (new & Hres & Htot & Hall & Hsum).
    exists (r :: new). rewrite Hres, Htot, <- app_assoc. split; [reflexivity|].
    assert (Hall' : Forall (fun r => exists c0, In c0 (c :: cands) /\
                       res_handle r = cand_handle c0 /\
                       res_deletedSize r
                         = if res_success r then Some (cand_storageSize c0) else None)
                      (r :: new)).
    { constructor.
      - exists c. split; [now left|]. now split.
      - eapply Forall_impl; [exact Hall|]. intros r' (c' & Hin & H1 & H2).
        exists c'. split; [now right|]. now split. }
    assert (Hd : default 0 (res_deletedSize r)
                 = if res_success r then cand_storageSize c else 0)
      by (rewrite Hsz; now destruct (res_success r)).
    unfold sumZ in *. split; [|split; [exact Hall'|]].
    + cbn [map foldr]. rewrite Hd. destruct (res_success r); lia.
    + cbn [List.filter map foldr]. rewrite Hd.
      destruct (res_success r); cbn [map foldr]; rewrite ?Hd, Hsum; reflexivity.
Qed.

(** X18: the total the report gives is the sum of the sizes it credits to the
    deleted accounts, each the size the scan measured for the candidate; a
    failure is credited nothing. *)
Theorem execution_total env criteria cands w :
  let out := deleteCandidates env criteria cands w [] 0 in
  snd (fst out)
    = sumZ (map (fun r => default 0 (res_deletedSize r))
              (List.filter res_success (fst (fst out)))) /\
  (forall r, In r (fst (fst out)) ->
     exists c, In c cands /\ res_handle r = cand_handle c /\
       res_deletedSize r = if res_success r then Some (cand_storageSize c) else None).
Proof.
  intros out.
  destruct (deleteCandidates_total env criteria cands w [] 0)
    as (new & Hres & Htot & Hall & Hsum).
  fold out in Hres, Htot. rewrite app_nil_l in Hres. rewrite Hres, Htot, <- Hsum.
  split; [lia|]. intros r Hr. rewrite List.Forall_forall in Hall. now apply Hall.
Qed.

Lemma execution_total_witness :
  snd (fst (deleteCandidates Sample.faultyEnv Sample.criteriaAny Sample.candidatesAny
              Sample.worldWithFrank [] 0)) = 0.
Proof.
  rewrite (proj1 (execution_total Sample.faultyEnv Sample.criteriaAny
                    Sample.candidatesAny Sample.worldWithFrank)).
  vm_compute. reflexivity.
Defined.

(** X19: the notice and the deletion.  For a candidate that passes the checks of
    the pass: an exception of the notifier keeps the account, nothing is
    removed and the failure carries the exception; in every other case (no
    bound address, no e-mail service, the notifier answers, with [true] or
    [false]) the removals are carried out, and the candidate is reported as
    deleted when they complete.  A report says [emailNotified: true] only
    when the notifier answered [true]. *)
Theorem deleteCandidate_notification env criteria c w user :
  getItem_error env (cand_handle c) = None ->
  users w !! cand_handle c = Some user ->
  cand_handle c <> callerHandle env ->
  cand_handle c <> DEFAULT_USER_handle env ->
  admin user = false ->
  (excludeActiveSubscriptions criteria = true ->
     hasActiveSubscriptionAt (nowAt env (cand_handle c)) user = false) ->
  let notice := sendInactiveUserDeletionNotice env (trim (default "" (email user)))
                  (name user) (cand_daysSinceLastActivity c) in
  (forall msg, hasBoundEmail user = true -> isEmailServiceAvailable env = true ->
     notice = Throw msg ->
     deleteCandidate env criteria c w = (failure c msg (Some false) None, w)) /\
  (hasBoundEmail user = false \/ isEmailServiceAvailable env = false \/
   (exists sent, notice = Ok sent) ->
     snd (deleteCandidate env criteria c w) = snd (removeCandidate env c w) /\
     (res_success (fst (deleteCandidate env criteria c w)) = true <->
      exists u, fst (removeCandidate env c w) = Ok u)) /\
  (res_emailNotified (fst (deleteCandidate env criteria c w)) = Some true ->
     hasBoundEmail user = true /\ isEmailServiceAvailable env = true /\
     notice = Ok true).
Proof.
  intros Hget Hu Hc Hd Ha Hsub notice.
  apply String.eqb_neq in Hc, Hd.
  assert (Hbody : deleteCandidate env criteria c w =
    match notify env user c with
    | Throw msg => (failure c msg (Some false) None, w)
    | Ok (emailNotified, emailError) =>
        match removeCandidate env c w with
        | (Throw msg, w2) => (failure c msg (Some emailNotified) emailError, w2)
        | (Ok _, w2) =>
            (mkDeletionResult (cand_handle c) (cand_name c) true None
               (Some (cand_storageSize c)) (Some emailNotified) emailError, w2)
        end
    end).
  { unfold deleteCandidate, getItem. rewrite Hget, Hu, Hc, Hd, Ha. cbn [orb].
    destruct (excludeActiveSubscriptions criteria); [|reflexivity].
    now rewrite (Hsub eq_refl). }
  rewrite Hbody. unfold notify. fold notice. split; [|split].
  - intros msg -> -> ->. reflexivity.
  - intros Hcase.
    assert (Hok : exists n e,
      (if hasBoundEmail user
       then if isEmailServiceAvailable env
            then match notice with
                 | Ok sent =>
                     Ok (sent, if sent then None
                               else Some "Failed to send notification email")
                 | Throw msg => Throw msg
                 end
            else Ok (false, Some "Email service not available")
       else Ok (false, None)) = Ok (n, e)).
    { destruct (hasBoundEmail user); [|eauto].
      destruct (isEmailServiceAvailable env); [|eauto].
      destruct Hcase as [H|[H|[sent H]]]; [discriminate|discriminate|].
      rewrite H. eauto. }
    destruct Hok as (n & e & ->).
    destruct (removeCandidate env c w) as [[u|msg] w2]; cbn [fst snd res_success].
    + split; [reflexivity|]. split; [eauto|reflexivity].
    + split; [reflexivity|]. split; [discriminate|]. intros [u Hu']. discriminate Hu'.
  - destruct (hasBoundEmail user).
    + destruct (isEmailServiceAvailable env).
      * destruct notice as [[|]|msg].
        -- tauto.
        -- now destruct (removeCandidate env c w) as [[u|msg] w2].
        -- discriminate.
      * now destruct (removeCandidate env c w) as [[u|msg] w2].
    + now destruct (removeCandidate env c w) as [[u|msg] w2].
Qed.

Lemma deleteCandidate_notification_witness :
  let c := mkCandidate "carol" "Carol" Sample.day 99 7 true None false (Some true) in
  snd (deleteCandidate Sample.env Sample.criteria c Sample.world)
    = snd (removeCandidate Sample.env c Sample.world).
Proof.
  intros c.
  apply (proj1 (proj2 (deleteCandidate_notification Sample.env Sample.criteria c
           Sample.world
           (mkUser "carol" "Carol" (Some Sample.day) false true None (Some "c@x.org"))
           eq_refl ltac:(vm_compute; reflexivity) ltac:(discriminate)
           ltac:(discriminate) eq_refl ltac:(reflexivity)))).
  right. left. reflexivity.
Defined.

End ExecMore.

(** ** The handler of [/delete-inactive-users] as a whole *)

Module HandlerFacts.
Import Fs FsFacts Js Users DirectorySize UsersAdmin Statements ScanFacts ExecFacts.



(** X21: only the execution report goes with a change: whatever the request, a
    response that is a rejection or a preview leaves the account store, the
    avatars, the statistics and the file system as they were; and only the
    boolean [true] in [dryRun] asks for a preview. *)
Theorem deleteInactiveUsers_changes rt env body w resp w' :
  deleteInactiveUsers rt env body w = Some (resp, w') ->
  match resp with
  | Executed criteria previewId deleted failed nd nf total =>
      body_dryRun body <> Bool true /\
      parseCriteria rt body = inr criteria /\
      exists cands total0,
        scan env criteria w = Some (cands, total0) /\
        body_previewId body = Str (previewIdOf rt criteria (map cand_handle cands)) /\
        w' = snd (deleteCandidates env criteria cands w [] 0)
  | Preview _ _ _ _ _ => body_dryRun body = Bool true /\ w' = w
  | _ => w' = w
  end.
Proof.
  unfold deleteInactiveUsers.
  destruct (parseCriteria rt body) as [d|criteria]; [now intros [= <- <-]|].
  destruct (scan env criteria w) as [[cands total]|] eqn:Hscan; [|discriminate].
  assert (Hexec :
    match body_previewId body with
    | Str requestPreviewId =>
        if (String.length requestPreviewId <? 8)%nat
        then Some (Rejected 400 MissingPreviewId, w)
        else if negb (isFinite (toNumber rt (body_confirmCount body)))
                || negb (isInteger (toNumber rt (body_confirmCount body)))
                || lt (toNumber rt (body_confirmCount body)) 0
        then Some (Rejected 400 MissingConfirmCount, w)
        else if negb (String.eqb requestPreviewId
                        (previewIdOf rt criteria (map cand_handle cands)))
        then Some (Rejected 409 PreviewChanged, w)
        else if negb (strictEqualsInt (toNumber rt (body_confirmCount body))
                        (Z.of_nat (length cands)))
        then Some (Rejected 400 (ConfirmCountMismatch (length cands)), w)
        else
          let '(results, totalDeletedSize, w') :=
            deleteCandidates env criteria cands w [] 0 in
          Some (Executed criteria (previewIdOf rt criteria (map cand_handle cands))
                  (List.filter res_success results)
                  (List.filter (fun r => negb (res_success r)) results)
                  (length (List.filter res_success results))
                  (length (List.filter (fun r => negb (res_success r)) results))
                  totalDeletedSize, w')
    | _ => Some (Rejected 400 MissingPreviewId, w)
    end = Some (resp, w') ->
    body_dryRun body <> Bool true ->
    match resp with
    | Executed criteria0 previewId deleted failed nd nf total1 =>
        body_dryRun body <> Bool true /\
        @inr Diagnostic Criteria criteria = inr criteria0 /\
        exists cands0 total0,
          scan env criteria0 w = Some (cands0, total0) /\
          body_previewId body = Str (previewIdOf rt criteria0 (map cand_handle cands0)) /\
          w' = snd (deleteCandidates env criteria0 cands0 w [] 0)
    | Preview _ _ _ _ _ => body_dryRun body = Bool true /\ w' = w
    | _ => w' = w
    end).
  { intros H Hnd.
    destruct (body_previewId body) as [| |b|q|s|s] eqn:Hpid;
      try (now injection H as <- <-).
    destruct (String.length s <? 8)%nat; [now injection H as <- <-|].
    destruct (_ || _); [now injection H as <- <-|].
    destruct (String.eqb_spec s (previewIdOf rt criteria (map cand_handle cands)))
      as [Heq|Hne]; cbn [negb] in H; [|now injection H as <- <-].
    destruct (negb _); [now injection H as <- <-|].
    destruct (deleteCandidates env criteria cands w [] 0) as [[results t] w2] eqn:Hdc.
    injection H as <- <-. split; [exact Hnd|]. split; [reflexivity|].
    exists cands, total. rewrite Heq, Hdc. now repeat split. }
  destruct (body_dryRun body) as [| |[|]| | |] eqn:Hdry.
  all: try (intros H; apply (Hexec H); discriminate).
  intros H. injection H as <- <-. now split.
Qed.

Lemma deleteInactiveUsers_changes_witness :
  let carol := mkCandidate "carol" "Carol" Sample.day 99 7 true None false (Some true) in
  let body := Sample.executeBody (Str Sample.carolToken) (Num 1) in
  exists cands total0,
    scan Sample.env Sample.criteria Sample.world = Some (cands, total0) /\
    body_previewId body
      = Str (previewIdOf Sample.rt Sample.criteria (map cand_handle cands)) /\
    snd (deleteCandidates Sample.env Sample.criteria [carol] Sample.world [] 0)
      = snd (deleteCandidates Sample.env Sample.criteria cands Sample.world [] 0).
Proof.
  intros carol body.
  apply (deleteInactiveUsers_changes Sample.rt Sample.env body Sample.world
           (Executed Sample.criteria Sample.carolToken
              [mkDeletionResult "carol" "Carol" true None (Some 7) (Some false)
                 (Some "Email service not available")] [] 1 0 7)
           (snd (deleteCandidates Sample.env Sample.criteria [carol] Sample.world [] 0))).
  vm_compute. reflexivity.
Defined.

End HandlerFacts.

(** ** The flag endpoints: [/disable], [/enable], [/promote], [/demote] *)

Module AccountFacts.
Import Js Users UsersAdmin Statements AccountEndpoints.

Lemma disableUser_cases env body w :
  let h := normalizeHandle env (body_handle body) in
  (fst (disableUser env body w) <> NoContent /\ snd (disableUser env body w) = w) \/
  (exists user,
     truthy (body_handle body) = true /\ h <> "" /\ h <> callerHandle env /\
     getItem_error env h = None /\ users w !! h = Some user /\
     disableUser env body w = (NoContent, updated w h (withEnabled false user))).
Proof.
  intros h. unfold disableUser. fold h.
  destruct (truthy (body_handle body)); cbn [negb]; [|left; split; [discriminate|reflexivity]].
  destruct (String.eqb_spec h "") as [|Hne]; [left; split; [discriminate|reflexivity]|].
  destruct (String.eqb_spec h (callerHandle env)) as [|Hself];
    [left; split; [discriminate|reflexivity]|].
  unfold getItem. destruct (getItem_error env h) eqn:Hget;
    [left; split; [discriminate|reflexivity]|].
  destruct (users w !! h) as [user|] eqn:Hu; [|left; split; [discriminate|reflexivity]].
  right. exists user. repeat split; try assumption; reflexivity.
Qed.

Lemma enableUser_cases env se body w :
  let h := normalizeHandle env (body_handle body) in
  (answer_status (fst (enableUser env se body w)) <> 204 /\ snd (enableUser env se body w) = w) \/
  (exists user,
     truthy (body_handle body) = true /\ h <> "" /\
     getItem_error env h = None /\ se h = None /\ users w !! h = Some user /\
     enableUser env se body w = (mkAnswer 204 None, updated w h (withEnabled true user))).
Proof.
  intros h. unfold enableUser. fold h.
  destruct (truthy (body_handle body)); cbn [negb]; [|left; split; [discriminate|reflexivity]].
  destruct (String.eqb_spec h "") as [|Hne]; [left; split; [discriminate|reflexivity]|].
  unfold getItem. destruct (getItem_error env h) eqn:Hget;
    [left; split; [discriminate|reflexivity]|].
  destruct (users w !! h) as [user|] eqn:Hu; [|left; split; [discriminate|reflexivity]].
  unfold setItemOrThrow. destruct (se h) eqn:Hset;
    [left; split; [discriminate|reflexivity]|].
  right. exists user. repeat split; try assumption; reflexivity.
Qed.

Lemma promoteUser_cases env se body w :
  let h := normalizeHandle env (body_handle body) in
  (answer_status (fst (promoteUser env se body w)) <> 204 /\ snd (promoteUser env se body w) = w) \/
  (exists user,
     truthy (body_handle body) = true /\ h <> "" /\
     getItem_error env h = None /\ se h = None /\ users w !! h = Some user /\
     promoteUser env se body w = (mkAnswer 204 None, updated w h (withAdmin true user))).
Proof.
  intros h. unfold promoteUser. fold h.
  destruct (truthy (body_handle body)); cbn [negb]; [|left; split; [discriminate|reflexivity]].
  destruct (String.eqb_spec h "") as [|Hne]; [left; split; [discriminate|reflexivity]|].
  unfold getItem. destruct (getItem_error env h) eqn:Hget;
    [left; split; [discriminate|reflexivity]|].
  destruct (users w !! h) as [user|] eqn:Hu; [|left; split; [discriminate|reflexivity]].
  unfold setItemOrThrow. destruct (se h) eqn:Hset;
    [left; split; [discriminate|reflexivity]|].
  right. exists user. repeat split; try assumption; reflexivity.
Qed.

Lemma demoteUser_cases env se body w :
  let h := normalizeHandle env (body_handle body) in
  (answer_status (fst (demoteUser env se body w)) <> 204 /\ snd (demoteUser env se body w) = w) \/
  (exists user,
     truthy (body_handle body) = true /\ h <> "" /\ h <> callerHandle env /\
     getItem_error env h = None /\ se h = None /\ users w !! h = Some user /\
     demoteUser env se body w = (mkAnswer 204 None, updated w h (withAdmin false user))).
Proof.
  intros h. unfold demoteUser. fold h.
  destruct (truthy (body_handle body)); cbn [negb]; [|left; split; [discriminate|reflexivity]].
  destruct (String.eqb_spec h "") as [|Hne]; [left; split; [discriminate|reflexivity]|].
  destruct (String.eqb_spec h (callerHandle env)) as [|Hself];
    [left; split; [discriminate|reflexivity]|].
  unfold getItem. destruct (getItem_error env h) eqn:Hget;
    [left; split; [discriminate|reflexivity]|].
  destruct (users w !! h) as [user|] eqn:Hu; [|left; split; [discriminate|reflexivity]].
  unfold setItemOrThrow. destruct (se h) eqn:Hset;
    [left; split; [discriminate|reflexivity]|].
  right. exists user. repeat split; try assumption; reflexivity.
Qed.

Lemma updated_id w h user : users w !! h = Some user -> updated w h user = w.
Proof.
  intros Hu. unfold updated. rewrite insert_id by exact Hu. now destruct w.
Qed.

Lemma updated_twice w h u1 u2 : updated (updated w h u1) h u2 = updated w h u2.
Proof. unfold updated. cbn. now rewrite insert_insert_eq. Qed.

(** X22: [/disable] changes one flag of one record: when it answers 204 the
    account of the normalised handle exists, is not the caller's, and is
    stored again with [enabled] unset and all else as before; every other
    answer leaves the world as it was.  In both cases the other records, the
    avatars, the file system and the statistics are untouched, and no handle
    is added to or removed from the store. *)
Theorem disableUser_effect env body w :
  let h := normalizeHandle env (body_handle body) in
  let w' := snd (disableUser env body w) in
  (fst (disableUser env body w) = NoContent ->
     h <> callerHandle env /\
     exists user, users w !! h = Some user /\
                  users w' !! h = Some (withEnabled false user)) /\
  (fst (disableUser env body w) <> NoContent -> w' = w) /\
  (forall k, k <> h -> users w' !! k = users w !! k) /\
  dom (users w') = dom (users w) /\
  avatars w' = avatars w /\ fs w' = fs w /\ loadStats w' = loadStats w.
Proof.
  intros h w'. subst w'.
  destruct (disableUser_cases env body w) as [[Hr Hw]|(user & _ & _ & Hself & _ & Hu & E)];
    [|fold h in Hu, E, Hself].
  - rewrite Hw. split; [intros Hn; contradiction|]. now repeat split.
  - rewrite E. cbn [fst snd updated users avatars fs loadStats]. repeat split.
    + exact Hself.
    + exists user. split; [exact Hu|]. now rewrite lookup_insert_eq.
    + intros Hn. contradiction.
    + intros k Hk. now rewrite lookup_insert_ne by congruence.
    + rewrite dom_insert_L. apply elem_of_dom_2 in Hu. set_solver.
Qed.

Lemma disableUser_effect_witness :
  exists user, users Sample.world !! "carol" = Some user /\
    users (snd (disableUser Sample.env (mkHandleBody (Str "Carol") Undefined) Sample.world))
      !! "carol" = Some (withEnabled false user).
Proof.
  apply (proj1 (disableUser_effect Sample.env (mkHandleBody (Str "Carol") Undefined)
                  Sample.world)).
  vm_compute. reflexivity.
Defined.

(** X23: [/enable] undoes [/disable]: when [/disable] has answered 204 for an
    account that was enabled, [/enable] with the same request, if the store
    accepts its write, answers 204 and the world is again what it was before
    the two requests.  Disabling twice is disabling once. *)
Theorem enable_undoes_disable env se body w w1 user :
  users w !! normalizeHandle env (body_handle body) = Some user ->
  disableUser env body w = (NoContent, w1) ->
  (enabled user = true -> se (normalizeHandle env (body_handle body)) = None ->
     enableUser env se body w1 = (mkAnswer 204 None, w)) /\
  disableUser env body w1 = (NoContent, w1).
Proof.
  intros Hu Hd.
  destruct (disableUser_cases env body w) as [[Hr _]|(u & Ht & Hne & Hself & Hget & Hu' & E)];
    [now rewrite Hd in Hr|].
  rewrite Hu in Hu'. injection Hu' as <-. rewrite Hd in E. injection E as ->.
  set (h := normalizeHandle env (body_handle body)) in *.
  assert (Hl : users (updated w h (withEnabled false user)) !! h
               = Some (withEnabled false user)) by (cbn; now rewrite lookup_insert_eq).
  split.
  - intros Hen Hset.
    destruct (enableUser_cases env se body (updated w h (withEnabled false user)))
      as [[Hr Hw]|(u & _ & _ & _ & _ & Hu' & E)]; [|fold h in Hu', E].
    + exfalso. revert Hr. unfold enableUser. fold h. rewrite Ht. cbn [negb].
      apply String.eqb_neq in Hne. rewrite Hne. unfold getItem, setItemOrThrow.
      rewrite Hget, Hl, Hset. cbn. congruence.
    + rewrite Hl in Hu'. injection Hu' as <-. rewrite E, updated_twice.
      f_equal. apply updated_id. rewrite Hu. f_equal.
      destruct user. cbn in *. now subst.
  - destruct (disableUser_cases env body (updated w h (withEnabled false user)))
      as [[Hr Hw]|(u & _ & _ & _ & _ & Hu' & E)]; [|fold h in Hu', E].
    + exfalso. revert Hr. unfold disableUser. fold h. rewrite Ht. cbn [negb].
      apply String.eqb_neq in Hne, Hself. rewrite Hne, Hself. unfold getItem.
      rewrite Hget, Hl. cbn. congruence.
    + rewrite Hl in Hu'. injection Hu' as <-. rewrite E, updated_twice. reflexivity.
Qed.

Lemma enable_undoes_disable_witness :
  enableUser Sample.env (fun _ => None) (mkHandleBody (Str "Carol") Undefined)
    (snd (disableUser Sample.env (mkHandleBody (Str "Carol") Undefined) Sample.world))
  = (mkAnswer 204 None, Sample.world).
Proof.
  apply (proj1 (enable_undoes_disable Sample.env (fun _ => None)
                  (mkHandleBody (Str "Carol") Undefined) Sample.world _
                  (mkUser "carol" "Carol" (Some Sample.day) false true None (Some "c@x.org"))
                  ltac:(vm_compute; reflexivity) ltac:(vm_compute; reflexivity)));
    reflexivity.
Defined.

(** X24: [/demote] undoes [/promote] for an account that was no admin and is not
    the caller's: after the two requests the world is what it was. *)
Theorem demote_undoes_promote env se body w w1 user :
  users w !! normalizeHandle env (body_handle body) = Some user ->
  admin user = false ->
  normalizeHandle env (body_handle body) <> callerHandle env ->
  promoteUser env se body w = (mkAnswer 204 None, w1) ->
  users w1 !! normalizeHandle env (body_handle body) = Some (withAdmin true user) /\
  demoteUser env se body w1 = (mkAnswer 204 None, w).
Proof.
  intros Hu Hadm Hself Hp.
  destruct (promoteUser_cases env se body w)
    as [[Hr _]|(u & Ht & Hne & Hget & Hset & Hu' & E)]; [now rewrite Hp in Hr|].
  rewrite Hu in Hu'. injection Hu' as <-. rewrite Hp in E. injection E as ->.
  set (h := normalizeHandle env (body_handle body)) in *.
  assert (Hl : users (updated w h (withAdmin true user)) !! h
               = Some (withAdmin true user)) by (cbn; now rewrite lookup_insert_eq).
  split; [exact Hl|].
  destruct (demoteUser_cases env se body (updated w h (withAdmin true user)))
    as [[Hr Hw]|(u & _ & _ & _ & _ & _ & Hu' & E)]; [|fold h in Hu', E].
  - exfalso. revert Hr. unfold demoteUser. fold h. rewrite Ht. cbn [negb].
    apply String.eqb_neq in Hne, Hself. rewrite Hne, Hself.
    unfold getItem, setItemOrThrow. fold h in Hset. rewrite Hget, Hl, Hset. cbn.
    congruence.
  - rewrite Hl in Hu'. injection Hu' as <-. rewrite E, updated_twice.
    f_equal. apply updated_id. rewrite Hu. f_equal.
    destruct user. cbn in *. now subst.
Qed.

Lemma demote_undoes_promote_witness :
  demoteUser Sample.env (fun _ => None) (mkHandleBody (Str "Carol") Undefined)
    (snd (promoteUser Sample.env (fun _ => None) (mkHandleBody (Str "Carol") Undefined)
            Sample.world))
  = (mkAnswer 204 None, Sample.world).
Proof.
  apply (demote_undoes_promote Sample.env (fun _ => None)
           (mkHandleBody (Str "Carol") Undefined) Sample.world _
           (mkUser "carol" "Carol" (Some Sample.day) false true None (Some "c@x.org"))
           ltac:(vm_compute; reflexivity) eq_refl ltac:(vm_compute; discriminate)
           ltac:(vm_compute; reflexivity)).
Defined.

Lemma enabledAdmin_updated w h k user :
  enabledAdmin w k ->
  (k = h -> admin user = true /\ enabled user = true) ->
  enabledAdmin (updated w h user) k.
Proof.
  intros (u & Hu & Ha & He) Hk. unfold enabledAdmin, updated. cbn [users].
  destruct (decide (k = h)) as [->|Hne].
  - exists user. rewrite lookup_insert_eq. destruct (Hk eq_refl). now repeat split.
  - exists u. rewrite lookup_insert_ne by congruence. now repeat split.
Qed.

(** X25: no request to the four flag endpoints locks the calling admin out: when
    the caller's account is an enabled admin before the request, it is one
    after it, whatever the request. *)
Theorem caller_stays_admin env se body w :
  enabledAdmin w (callerHandle env) ->
  enabledAdmin (snd (disableUser env body w)) (callerHandle env) /\
  enabledAdmin (snd (enableUser env se body w)) (callerHandle env) /\
  enabledAdmin (snd (promoteUser env se body w)) (callerHandle env) /\
  enabledAdmin (snd (demoteUser env se body w)) (callerHandle env).
Proof.
  intros Hadm. pose proof Hadm as (ua & Hua & Ha & He). repeat split.
  - destruct (disableUser_cases env body w) as [[_ ->]|(u & _ & _ & Hself & _ & Hu & ->)];
      [exact Hadm|].
    apply enabledAdmin_updated; [exact Hadm|]. intros E. now symmetry in E.
  - destruct (enableUser_cases env se body w) as [[_ ->]|(u & _ & _ & _ & _ & Hu & ->)];
      [exact Hadm|].
    apply enabledAdmin_updated; [exact Hadm|]. intros E. rewrite <- E, Hua in Hu.
    injection Hu as <-. now split.
  - destruct (promoteUser_cases env se body w) as [[_ ->]|(u & _ & _ & _ & _ & Hu & ->)];
      [exact Hadm|].
    apply enabledAdmin_updated; [exact Hadm|]. intros E. rewrite <- E, Hua in Hu.
    injection Hu as <-. now split.
  - destruct (demoteUser_cases env se body w)
      as [[_ ->]|(u & _ & _ & Hself & _ & _ & Hu & ->)]; [exact Hadm|].
    apply enabledAdmin_updated; [exact Hadm|]. intros E. now symmetry in E.
Qed.

Lemma caller_stays_admin_witness :
  enabledAdmin (snd (demoteUser Sample.env (fun _ => None)
                       (mkHandleBody (Str "ADMIN") Undefined) Sample.world)) "admin".
Proof.
  apply (caller_stays_admin Sample.env (fun _ => None)
           (mkHandleBody (Str "ADMIN") Undefined) Sample.world).
  exists (mkUser "admin" "Admin" (Some 0) true true None None).
  split; [vm_compute; reflexivity|]. split; reflexivity.
Defined.

End AccountFacts.

(** ** More on [POST /delete] *)

Module DeleteMore.
Import Fs FsFacts Js Users UsersAdmin Statements RmFacts.

(** The removals of [/delete], for a request that passes the checks. *)
Lemma deleteUser_checked env body w :
  truthy (body_handle body) = true ->
  isString (body_handle body) (callerHandle env) = false ->
  isString (body_handle body) (DEFAULT_USER_handle env) = false ->
  normalizeHandle env (body_handle body) <> "" ->
  let h := normalizeHandle env (body_handle body) in
  deleteUser env body w =
  match removeItem_error env h with
  | Some msg => (ServerError msg, w)
  | None =>
      match removeAvatar_error env h with
      | Some msg =>
          (ServerError msg, mkWorld (delete h (users w)) (avatars w) (fs w) (loadStats w))
      | None =>
          match resetUserStats_error env h with
          | Some msg =>
              (ServerError msg,
               mkWorld (delete h (users w)) (delete h (avatars w)) (fs w) (loadStats w))
          | None =>
              let w3 := mkWorld (delete h (users w)) (delete h (avatars w)) (fs w)
                                (delete h (loadStats w)) in
              if truthy (body_purge body) then
                match rootOf (getUserDirectories env h) with
                | Some root =>
                    match rm_error env root with
                    | Some msg => (ServerError msg, w3)
                    | None =>
                        (NoContent,
                         mkWorld (delete h (users w)) (delete h (avatars w))
                                 (rm (fs w) root) (delete h (loadStats w)))
                    end
                | None => (ServerError "The path argument must be of type string", w3)
                end
              else (NoContent, w3)
          end
      end
  end.
Proof.
  intros Ht Hc Hd Hne h. unfold deleteUser. fold h. rewrite Ht, Hc, Hd. cbn [negb].
  apply String.eqb_neq in Hne. fold h in Hne. rewrite Hne.
  unfold bind, removeItem, removeAvatar, resetUserStats, when, rmTree, failWhen, ret.
  destruct (removeItem_error env h); [reflexivity|].
  destruct (removeAvatar_error env h); [reflexivity|].
  cbn [users avatars fs loadStats].
  destruct (resetUserStats_error env h); [reflexivity|].
  cbn [users avatars fs loadStats].
  destruct (truthy (body_purge body)); [|reflexivity].
  destruct (rootOf (getUserDirectories env h)) as [root|]; [|reflexivity].
  cbn [users avatars fs loadStats].
  destruct (rm_error env root); reflexivity.
Qed.

(** A request that does not pass the checks is rejected and changes
    nothing. *)
Lemma deleteUser_unchecked env body w :
  (truthy (body_handle body) = true /\
   isString (body_handle body) (callerHandle env) = false /\
   isString (body_handle body) (DEFAULT_USER_handle env) = false /\
   normalizeHandle env (body_handle body) <> "") \/
  (exists d, deleteUser env body w = (Rejected 400 d, w)).
Proof.
  unfold deleteUser.
  destruct (truthy (body_handle body)); cbn [negb]; [|right; eauto].
  destruct (isString (body_handle body) (callerHandle env)); [right; eauto|].
  destruct (isString (body_handle body) (DEFAULT_USER_handle env)); [right; eauto|].
  destruct (String.eqb_spec (normalizeHandle env (body_handle body)) ""); [right; eauto|].
  left. tauto.
Qed.

(** X26: what a 204 of [/delete] means: the account record, the avatar record and
    the statistics of the normalised handle are gone, and nothing else of
    the three stores is; without [purge] the file system is as it was; with
    [purge] the root directory of the account is gone, and every object that
    neither lies below it nor leads to it is as it was. *)
Theorem deleteUser_done env body w :
  fst (deleteUser env body w) = NoContent ->
  let h := normalizeHandle env (body_handle body) in
  let w' := snd (deleteUser env body w) in
  users w' = delete h (users w) /\
  avatars w' = delete h (avatars w) /\
  loadStats w' = delete h (loadStats w) /\
  (truthy (body_purge body) = false -> fs w' = fs w) /\
  (truthy (body_purge body) = true ->
     exists root,
       rootOf (getUserDirectories env h) = Some root /\
       fs w' = rm (fs w) root /\
       (root <> [] -> existsSync (fs w') root = false) /\
       (forall q, ~ root `prefix_of` q -> ~ q `prefix_of` root ->
          lookup (fs w') q = lookup (fs w) q)).
Proof.
  intros Hok h w'. subst w'.
  destruct (deleteUser_unchecked env body w) as [(Ht & Hc & Hd & Hne)|[d E]];
    [|rewrite E in Hok; discriminate].
  revert Hok. rewrite (deleteUser_checked env body w Ht Hc Hd Hne). fold h.
  destruct (removeItem_error env h); [discriminate|].
  destruct (removeAvatar_error env h); [discriminate|].
  destruct (resetUserStats_error env h); [discriminate|]. cbv zeta.
  destruct (truthy (body_purge body)).
  - destruct (rootOf (getUserDirectories env h)) as [root|]; [|discriminate].
    destruct (rm_error env root); [discriminate|]. intros _.
    cbn [snd users avatars fs loadStats].
    repeat split; try discriminate. intros _. exists root. repeat split.
    + intros Hroot. unfold existsSync, stat. now rewrite lookup_rm_gone.
    + intros q H1 H2. now apply lookup_rm_other.
  - intros _. cbn [snd users avatars fs loadStats]. repeat split; discriminate.
Qed.

Lemma deleteUser_done_witness :
  users (snd (deleteUser Sample.env (mkHandleBody (Str "Carol") (Bool true)) Sample.world))
    = delete "carol" (users Sample.world) /\
  exists root,
    rootOf (getUserDirectories Sample.env "carol") = Some root /\
    existsSync
      (fs (snd (deleteUser Sample.env (mkHandleBody (Str "Carol") (Bool true))
                  Sample.world))) root = false.
Proof.
  destruct (deleteUser_done Sample.env (mkHandleBody (Str "Carol") (Bool true))
              Sample.world ltac:(vm_compute; reflexivity))
    as (Hu & _ & _ & _ & Hp).
  split; [exact Hu|].
  destruct (Hp eq_refl) as (root & Hroot & _ & Hgone & _).
  exists root. split; [exact Hroot|]. apply Hgone.
  intros ->. vm_compute in Hroot. discriminate Hroot.
Defined.

(** X27: [/delete] does not ask whether the account exists: a request for a
    handle that names no account, when none of the stores fails, is answered
    204 like a deletion, and without [purge] it changes nothing. *)
Theorem deleteUser_absent env body w :
  truthy (body_handle body) = true ->
  isString (body_handle body) (callerHandle env) = false ->
  isString (body_handle body) (DEFAULT_USER_handle env) = false ->
  normalizeHandle env (body_handle body) <> "" ->
  let h := normalizeHandle env (body_handle body) in
  removeItem_error env h = None ->
  removeAvatar_error env h = None ->
  resetUserStats_error env h = None ->
  truthy (body_purge body) = false ->
  users w !! h = None -> avatars w !! h = None -> loadStats w !! h = None ->
  deleteUser env body w = (NoContent, w).
Proof.
  intros Ht Hc Hd Hne h E1 E2 E3 Hp Hu Ha Hs.
  rewrite (deleteUser_checked env body w Ht Hc Hd Hne). fold h.
  rewrite E1, E2, E3, Hp. cbv zeta.
  rewrite !delete_id by assumption. now destruct w.
Qed.

Lemma deleteUser_absent_witness :
  deleteUser Sample.env (mkHandleBody (Str "nobody") Undefined) Sample.world
    = (NoContent, Sample.world).
Proof.
  apply (deleteUser_absent Sample.env (mkHandleBody (Str "nobody") Undefined) Sample.world);
    try reflexivity; try discriminate; vm_compute; reflexivity.
Defined.

End DeleteMore.

(** ** The account store stays consistent *)

Module InvariantFacts.
Import Fs Js Users UsersAdmin Statements AccountEndpoints AccountFacts ExecMore DeleteMore.

Lemma store_consistent_subseteq w w' :
  users w' ⊆ users w -> store_consistent w -> store_consistent w'.
Proof.
  intros Hsub Hc k u Hk. apply Hc. now apply (lookup_weaken _ _ _ _ Hk).
Qed.

Lemma store_consistent_updated w h user0 user :
  store_consistent w -> users w !! h = Some user0 -> handle user = handle user0 ->
  store_consistent (updated w h user).
Proof.
  intros Hc Hu Hh k u. unfold updated. cbn [users].
  destruct (decide (k = h)) as [->|Hne].
  - rewrite lookup_insert_eq. intros [= <-]. rewrite Hh. now apply Hc.
  - rewrite lookup_insert_ne by congruence. apply Hc.
Qed.

Lemma removeCandidate_users env c w :
  users (snd (removeCandidate env c w)) ⊆ users w.
Proof.
  unfold removeCandidate, bind, removeItem, removeAvatar, resetUserStats.
  destruct (removeItem_error env (cand_handle c)); [reflexivity|].
  destruct (removeAvatar_error env (cand_handle c)); [apply delete_subseteq|].
  cbn [fs].
  destruct (rootOf (getUserDirectories env (cand_handle c))) as [root|].
  - destruct (existsSync (fs w) root); cbn [when].
    + unfold rmTree. cbn [fs users avatars loadStats].
      destruct (rm_error env root); [apply delete_subseteq|].
      destruct (resetUserStats_error env (cand_handle c)); apply delete_subseteq.
    + unfold ret.
      destruct (resetUserStats_error env (cand_handle c)); apply delete_subseteq.
  - unfold ret.
    destruct (resetUserStats_error env (cand_handle c)); apply delete_subseteq.
Qed.

Lemma deleteCandidates_users env criteria cands : forall w results0 total0,
  users (snd (deleteCandidates env criteria cands w results0 total0)) ⊆ users w.
Proof.
  induction cands as [|c cands IH]; intros w results0 total0; cbn [deleteCandidates].
  - reflexivity.
  - pose proof (deleteCandidate_world env criteria c w) as Hw.
    destruct (deleteCandidate env criteria c w) as [r w1]. cbn [snd] in Hw.
    etransitivity; [apply IH|].
    destruct Hw as [-> | ->]; [reflexivity|apply removeCandidate_users].
Qed.

Lemma deleteUser_users env body w : users (snd (deleteUser env body w)) ⊆ users w.
Proof.
  destruct (deleteUser_unchecked env body w) as [(Ht & Hc & Hd & Hne)|[d ->]];
    [|reflexivity].
  rewrite (deleteUser_checked env body w Ht Hc Hd Hne). cbv zeta.
  repeat match goal with
         | |- context [match ?e with Some _ => _ | None => _ end] => destruct e
         | |- context [if ?b then _ else _] => destruct b
         end; cbn [snd users]; first [reflexivity | apply delete_subseteq].
Qed.

(** X28: every endpoint that writes to the account store keeps it consistent:
    when every record is stored under its own handle before a request to
    [/disable], [/enable], [/promote], [/demote], [/delete] or the execution
    pass of [/delete-inactive-users], the same holds after it, whatever the
    request and whichever operation fails on the way. *)
Theorem store_consistent_preserved env w :
  store_consistent w ->
  (forall body, store_consistent (snd (disableUser env body w))) /\
  (forall se body, store_consistent (snd (enableUser env se body w))) /\
  (forall se body, store_consistent (snd (promoteUser env se body w))) /\
  (forall se body, store_consistent (snd (demoteUser env se body w))) /\
  (forall body, store_consistent (snd (deleteUser env body w))) /\
  (forall criteria cands,
     store_consistent (snd (deleteCandidates env criteria cands w [] 0))).
Proof.
  intros Hc. repeat split.
  - intros body.
    destruct (disableUser_cases env body w) as [[_ ->]|(u & _ & _ & _ & _ & Hu & ->)];
      [exact Hc|]. now apply (store_consistent_updated w _ u).
  - intros se body.
    destruct (enableUser_cases env se body w) as [[_ ->]|(u & _ & _ & _ & _ & Hu & ->)];
      [exact Hc|]. now apply (store_consistent_updated w _ u).
  - intros se body.
    destruct (promoteUser_cases env se body w) as [[_ ->]|(u & _ & _ & _ & _ & Hu & ->)];
      [exact Hc|]. now apply (store_consistent_updated w _ u).
  - intros se body.
    destruct (demoteUser_cases env se body w)
      as [[_ ->]|(u & _ & _ & _ & _ & _ & Hu & ->)];
      [exact Hc|]. now apply (store_consistent_updated w _ u).
  - intros body. apply (store_consistent_subseteq w); [apply deleteUser_users|exact Hc].
  - intros criteria cands.
    apply (store_consistent_subseteq w); [apply deleteCandidates_users|exact Hc].
Qed.

Lemma store_consistent_preserved_witness :
  store_consistent
    (snd (deleteUser Sample.env (mkHandleBody (Str "Carol") (Bool true)) Sample.world)).
Proof.
  apply (store_consistent_preserved Sample.env Sample.world).
  apply ScanFacts.store_consistentb_spec. vm_compute. reflexivity.
Defined.

End InvariantFacts.

(** ** From the preview to the execution *)

Module PreviewFacts.
Import Fs FsFacts Js Users DirectorySize UsersAdmin Statements ScanFacts ExecFacts.





End PreviewFacts.

(** ** [POST /clear-backups] *)

Module BackupFacts.
Import Fs FsFacts DirectorySize DirectorySizeFacts Users RmFacts Backups.

Lemma find_entry_app nm es es' :
  find_entry nm (es ++ es') =
  match find_entry nm es with
  | Some c => Some c
  | None => find_entry nm es'
  end.
Proof.
  induction es as [|[n c] es IH]; [reflexivity|]. cbn.
  now destruct (String.eqb n nm).
Qed.

Lemma find_entry_replace nm nm' c' es :
  find_entry nm' (map (fun e => if String.eqb (fst e) nm then (fst e, c') else e) es)
    = if String.eqb nm nm' then option_map (fun _ => c') (find_entry nm' es)
      else find_entry nm' es.
Proof. apply (find_entry_map nm nm' (fun _ => c')). Qed.

Lemma mkdir_Dir dsize r d es nm p :
  mkdir dsize (Dir r d es) (nm :: p) =
  match find_entry nm es with
  | Some c =>
      match mkdir dsize c p with
      | Some c' =>
          Some (Dir r d (map (fun e => if String.eqb (fst e) nm
                                       then (fst e, c') else e) es))
      | None => None
      end
  | None => Some (Dir r d (es ++ [(nm, newDirs dsize p)]))
  end.
Proof. reflexivity. Qed.

(** After the removal of an existing path, [mkdir] on it succeeds: it puts an
    empty directory there and leaves alone what neither lies below the path
    nor leads to it. *)
Lemma mkdir_after_rm dsize p : forall n c,
  p <> [] -> lookup n p = Some c ->
  exists n',
    mkdir dsize (rm n p) p = Some n' /\
    lookup n' p = Some (Dir true dsize []) /\
    (forall q, ~ p `prefix_of` q -> ~ q `prefix_of` p -> lookup n' q = lookup n q).
Proof.
  induction p as [|nm p IH]; intros n c Hp Hl; [congruence|].
  destruct n as [sz|r d es|t]; [discriminate| |discriminate].
  cbn [lookup] in Hl. destruct (find_entry nm es) as [c0|] eqn:Hfind; [|discriminate].
  rewrite rm_Dir. destruct p as [|nm2 p'].
  - rewrite mkdir_Dir, find_entry_filter_eq. eexists. split; [reflexivity|]. split.
    + cbn [lookup]. rewrite find_entry_app, find_entry_filter_eq. cbn.
      now rewrite String.eqb_refl.
    + intros [|nm' q] Hq1 Hq2; [exfalso; apply Hq2, prefix_nil|].
      assert (Hne : nm' <> nm)
        by (intros ->; apply Hq1; now apply prefix_cons, prefix_nil).
      cbn [lookup]. rewrite find_entry_app, find_entry_filter_ne by exact Hne.
      destruct (find_entry nm' es) as [c1|]; [reflexivity|]. cbn.
      destruct (String.eqb_spec nm nm'); [congruence|reflexivity].
  - destruct (IH c0 c ltac:(discriminate) Hl) as (c' & Hmk & Hlook & Hframe).
    rewrite mkdir_Dir.
    rewrite (find_entry_map nm nm (fun n => rm n (nm2 :: p'))), String.eqb_refl, Hfind.
    cbn [option_map]. rewrite Hmk. eexists. split; [reflexivity|]. split.
    + cbn [lookup]. rewrite find_entry_replace, String.eqb_refl.
      rewrite (find_entry_map nm nm (fun n => rm n (nm2 :: p'))), String.eqb_refl, Hfind.
      cbn [option_map]. exact Hlook.
    + intros [|nm' q] Hq1 Hq2; [exfalso; apply Hq2, prefix_nil|].
      cbn [lookup]. rewrite find_entry_replace.
      rewrite (find_entry_map nm nm' (fun n => rm n (nm2 :: p'))).
      destruct (String.eqb_spec nm nm') as [<-|Hne]; [|reflexivity].
      rewrite Hfind. cbn [option_map]. apply Hframe.
      * intros H. apply Hq1. now apply prefix_cons.
      * intros H. apply Hq2. now apply prefix_cons.
Qed.

(** X30: what a report of [/clear-backups] means when the backups directory of
    the handle exists: the directory could be listed, [deletedFiles] is the
    number of its entries (files and directories alike, those below them not
    counted) and [deletedSize] the size [calculateDirectorySize] gives for
    it; afterwards the directory is there again and empty, every object that
    neither lies below it nor leads to it is as it was, and the account
    store, the avatars and the statistics are untouched. *)
Theorem clearBackups_done env pf handle w (backups : path) deletedSize deletedFiles w' :
  wf_node (fs w) = true ->
  getUserDirectories env handle !! "backups" = Some backups ->
  backups <> [] ->
  existsSync (fs w) backups = true ->
  clearBackups env pf handle w = Some (Cleared deletedSize deletedFiles, w') ->
  (exists d es,
     lookup (fs w) backups = Some (Dir true d es) /\
     deletedFiles = length es /\
     deletedSize = counted (Dir true d es)) /\
  lookup (fs w') backups = Some (Dir true (newDirSize pf) []) /\
  readdir (fs w') backups = Some [] /\
  (forall q, ~ backups `prefix_of` q -> ~ q `prefix_of` backups ->
     lookup (fs w') q = lookup (fs w) q) /\
  users w' = users w /\ avatars w' = avatars w /\ loadStats w' = loadStats w.
Proof.
  intros Hwf Hdir Hne Hex. unfold clearBackups.
  destruct (String.eqb handle ""); [discriminate|]. cbv zeta. rewrite Hdir, Hex.
  rewrite (calculateDirectorySize_counted (fs w) backups Hwf).
  unfold readdir, readdirTypes, directorySize.
  destruct (lookup (fs w) backups) as [[sz|[|] d es|t]|] eqn:Hl; try discriminate.
  cbn [option_map]. unfold rmTree.
  destruct (rm_error env backups); [discriminate|]. cbn [fs users avatars loadStats].
  destruct (mkdir_error pf backups); [discriminate|].
  destruct (mkdir_after_rm (newDirSize pf) backups (fs w) _ Hne Hl)
    as (fs2 & Hmk & Hlook & Hframe).
  rewrite Hmk. intros [= <- <- <-]. cbn [fs users avatars loadStats].
  split; [exists d, es; now rewrite !length_map|].
  split; [exact Hlook|]. rewrite Hlook. cbn. now repeat split.
Qed.

Lemma clearBackups_done_witness :
  let w' := mkWorld (users BackupSample.backupWorld) (avatars BackupSample.backupWorld)
              (default (fs BackupSample.backupWorld)
                 (mkdir 4096 (rm (fs BackupSample.backupWorld) ["data"; "erin"; "backups"])
                    ["data"; "erin"; "backups"]))
              (loadStats BackupSample.backupWorld) in
  (exists d es,
     lookup (fs BackupSample.backupWorld) ["data"; "erin"; "backups"] = Some (Dir true d es) /\
     2%nat = length es /\ 15 = counted (Dir true d es)) /\
  readdir (fs w') ["data"; "erin"; "backups"] = Some [] /\
  lookup (fs w') ["data"; "erin"; "chats"; "c.json"] = Some (File 100).
Proof.
  intros w'.
  destruct (clearBackups_done BackupSample.backupEnv BackupSample.platform "erin"
              BackupSample.backupWorld ["data"; "erin"; "backups"] 15 2 w'
              ltac:(vm_compute; reflexivity) ltac:(vm_compute; reflexivity)
              ltac:(discriminate) ltac:(vm_compute; reflexivity)
              ltac:(vm_compute; reflexivity))
    as (Hold & _ & Hempty & Hframe & _).
  split; [exact Hold|]. split; [exact Hempty|].
  rewrite Hframe; [vm_compute; reflexivity| |]; intros [k Hk]; discriminate Hk.
Defined.

End BackupFacts.
